(** * ICC mailbox transport and bridge command queue of the PS4 Aeolia driver

    A shallow embedding of [drivers/ps4/icc.c] (the ICC message-passing
    transport: framing, checksum, single outstanding request, interrupt
    handler, ioctl pass-through) and of the command-queue encoder of
    [drivers/gpu/drm/amd/amdgpu/ps4_bridge.c], with the properties the
    specification states about them.

    Machine integers are [Z] with the wrap-around of their C type written
    out; bytes are [Z] in [0, 256); device and kernel memory are lists of
    bytes; the effects of the code (register writes, wake-ups, log lines)
    are collected in a trace. *)

From Stdlib Require Import ZArith List Lia Bool Permutation.
From Stdlib Require String.
Import ListNotations.
Import String.StringSyntax.
Local Open Scope string_scope.
Local Open Scope Z_scope.

(** ** Machine integers *)

Definition to_u8 (x : Z) : Z := x mod 2 ^ 8.
Definition to_u16 (x : Z) : Z := x mod 2 ^ 16.

(** Low and high byte of a 16-bit value, as x86 lays it out in memory. *)
Definition lo8 (x : Z) : Z := x mod 256.
Definition hi8 (x : Z) : Z := (x / 256) mod 256.
Definition le16 (b0 b1 : Z) : Z := to_u8 b0 + 256 * to_u8 b1.

(** ** Byte buffers *)

(** [*(buf + i) = v].  A store outside the buffer is undefined in C; the
    model leaves the buffer as it is. *)
Fixpoint store_byte (buf : list Z) (i : nat) (v : Z) : list Z :=
  match buf, i with
  | [], _ => []
  | _ :: t, O => v :: t
  | b :: t, S j => b :: store_byte t j v
  end.

(** [buf[i]]; reads outside the buffer give 0 in the model. *)
Definition load_byte (buf : list Z) (i : nat) : Z := nth i buf 0.

(** [memcpy(buf, src, length src)]: the first bytes of [buf] are replaced. *)
Definition overwrite (src buf : list Z) : list Z :=
  src ++ skipn (length src) buf.

Definition sum_bytes (l : list Z) : Z := fold_right Z.add 0 l.

(** ** Errno values (include/uapi/asm-generic/errno-base.h, errno.h) *)

Definition ENOENT : Z := 2.
Definition EINTR : Z := 4.
Definition EIO : Z := 5.
Definition E2BIG : Z := 7.
Definition EAGAIN : Z := 11.
Definition EFAULT : Z := 14.
Definition ETIMEDOUT : Z := 110.
Definition ERESTARTSYS : Z := 512.

(** ** The bridge command queue (ps4_bridge.c) *)

Module Bridge.

(** [struct i2c_cmd_hdr { u8 major; u8 length; u8 minor; u8 count; }]:
    byte offsets of the fields inside a group header. *)
Definition OFF_MAJOR : nat := 0.
Definition OFF_LENGTH : nat := 1.
Definition OFF_MINOR : nat := 2.
Definition OFF_COUNT : nat := 3.
Definition CMD_HDR_SIZE : nat := 4.

(** [sizeof(q->req.cmdbuf)] and [sizeof(q->reply)]. *)
Definition CMDBUF_SIZE : nat := 0x7ec.
Definition REPLY_SIZE : Z := 0x7f0.
(** Bytes of [req] before [cmdbuf]: [code] (1), [length] (2), [count] (1). *)
Definition REQ_HDR_SIZE : Z := 4.

(** [struct i2c_cmdqueue].  The pointers [p] and [cmd] are kept as offsets
    into [req.cmdbuf]; [cmd = None] is the NULL pointer.  [reply] is the
    reply structure as bytes: [res1], [res2], [unk1], [unk2], [count],
    then [databuf]. *)
Record i2c_cmdqueue := mk_cq {
  req_code : Z;
  req_length : Z;
  req_count : Z;
  req_cmdbuf : list Z;
  reply : list Z;
  p : nat;
  cmd : option nat
}.

Definition set_cmdbuf (q : i2c_cmdqueue) (b : list Z) : i2c_cmdqueue :=
  mk_cq (req_code q) (req_length q) (req_count q) b (reply q) (p q) (cmd q).

(** [*q->p++ = v] *)
Definition put (q : i2c_cmdqueue) (v : Z) : i2c_cmdqueue :=
  mk_cq (req_code q) (req_length q) (req_count q)
        (store_byte (req_cmdbuf q) (p q) (to_u8 v)) (reply q)
        (S (p q)) (cmd q).

Definition cq_init (q : i2c_cmdqueue) (code : Z) : i2c_cmdqueue :=
  mk_cq (to_u8 code) (req_length q) 0 (req_cmdbuf q) (reply q) 0%nat None.

(** [q->cmd->length = q->p - (u8 * )q->cmd] for the open group, if any. *)
Definition close_group (q : i2c_cmdqueue) : i2c_cmdqueue :=
  match cmd q with
  | None => q
  | Some c =>
      set_cmdbuf q (store_byte (req_cmdbuf q) (c + OFF_LENGTH)
                               (to_u8 (Z.of_nat (p q - c))))
  end.

(** Does the open group carry this opcode pair? *)
Definition same_cmd (q : i2c_cmdqueue) (major minor : Z) : bool :=
  match cmd q with
  | None => false
  | Some c =>
      (load_byte (req_cmdbuf q) (c + OFF_MAJOR) =? major) &&
      (load_byte (req_cmdbuf q) (c + OFF_MINOR) =? minor)
  end.

Definition cq_cmd (q : i2c_cmdqueue) (major minor : Z) : i2c_cmdqueue :=
  let major := to_u8 major in
  let minor := to_u8 minor in
  if negb (same_cmd q major minor) then
    let q1 := close_group q in
    let c := p q1 in
    let b := req_cmdbuf q1 in
    let b := store_byte b (c + OFF_MAJOR) major in
    let b := store_byte b (c + OFF_MINOR) minor in
    let b := store_byte b (c + OFF_LENGTH) 0 in
    let b := store_byte b (c + OFF_COUNT) 1 in
    mk_cq (req_code q1) (req_length q1) (to_u8 (req_count q1 + 1)) b
          (reply q1) (c + CMD_HDR_SIZE)%nat (Some c)
  else
    match cmd q with
    | None => q
    | Some c =>
        set_cmdbuf q
          (store_byte (req_cmdbuf q) (c + OFF_COUNT)
             (to_u8 (load_byte (req_cmdbuf q) (c + OFF_COUNT) + 1)))
    end.

(** The opcode pairs [CMD_READ] ... [CMD_WAIT_CLEAR]. *)
Definition CMD_READ : Z * Z := (1, 1).
Definition CMD_WRITE : Z * Z := (2, 2).
Definition CMD_MASK : Z * Z := (2, 3).
Definition CMD_DELAY : Z * Z := (3, 1).
Definition CMD_WAIT_SET : Z * Z := (3, 2).
Definition CMD_WAIT_CLEAR : Z * Z := (3, 3).

Definition cq_cmd2 (q : i2c_cmdqueue) (mm : Z * Z) : i2c_cmdqueue :=
  cq_cmd q (fst mm) (snd mm).

(** The emitters.  [addr] and [time] are [u16], the other operands [u8];
    [put] truncates each stored value to a byte as the C store does. *)
Definition cq_read (q : i2c_cmdqueue) (addr count : Z) : i2c_cmdqueue :=
  let addr := to_u16 addr in
  let q := cq_cmd2 q CMD_READ in
  let q := put q count in
  let q := put q (Z.shiftr addr 8) in
  let q := put q (Z.land addr 0xff) in
  put q 0.

Definition cq_writereg (q : i2c_cmdqueue) (addr data : Z) : i2c_cmdqueue :=
  let addr := to_u16 addr in
  let q := cq_cmd2 q CMD_WRITE in
  let q := put q 1 in
  let q := put q (Z.shiftr addr 8) in
  let q := put q (Z.land addr 0xff) in
  put q data.

Definition cq_mask (q : i2c_cmdqueue) (addr value mask : Z) : i2c_cmdqueue :=
  let addr := to_u16 addr in
  let q := cq_cmd2 q CMD_MASK in
  let q := put q 1 in
  let q := put q (Z.shiftr addr 8) in
  let q := put q (Z.land addr 0xff) in
  let q := put q value in
  put q mask.

Definition cq_delay (q : i2c_cmdqueue) (time : Z) : i2c_cmdqueue :=
  let time := to_u16 time in
  let q := cq_cmd2 q CMD_DELAY in
  let q := put q 0 in
  let q := put q (Z.land time 0xff) in
  let q := put q (Z.shiftr time 8) in
  put q 0.

Definition cq_wait_set (q : i2c_cmdqueue) (addr mask : Z) : i2c_cmdqueue :=
  let addr := to_u16 addr in
  let q := cq_cmd2 q CMD_WAIT_SET in
  let q := put q 0 in
  let q := put q (Z.shiftr addr 8) in
  let q := put q (Z.land addr 0xff) in
  put q mask.

Definition cq_wait_clear (q : i2c_cmdqueue) (addr mask : Z) : i2c_cmdqueue :=
  let addr := to_u16 addr in
  let q := cq_cmd2 q CMD_WAIT_CLEAR in
  let q := put q 0 in
  let q := put q (Z.shiftr addr 8) in
  let q := put q (Z.land addr 0xff) in
  put q mask.

(** The request as [apcie_icc_cmd] reads it from [&q->req]: [code], the
    16-bit [length], [count], then [length - 4] bytes of [cmdbuf]. *)
Definition req_bytes (q : i2c_cmdqueue) : list Z :=
  req_code q :: lo8 (req_length q) :: hi8 (req_length q) :: req_count q ::
  firstn (Z.to_nat (req_length q - REQ_HDR_SIZE)) (req_cmdbuf q).

(** The transport [apcie_icc_cmd(0x10, 0, &q->req, q->req.length, &q->reply,
    sizeof(q->reply))] as [cq_exec] sees it: given the request bytes and the
    reply buffer, it yields the return value and the reply buffer after the
    call. *)
Definition transport : Type := list Z -> list Z -> Z * list Z.

(** One recorded call of the transport: major, minor, request bytes, reply
    capacity. *)
Record icc_call := mk_call {
  call_major : Z;
  call_minor : Z;
  call_data : list Z;
  call_reply_length : Z
}.

(** The first two statements of [cq_exec] past the guard: the length of
    the open group and the length of the whole request are filled in. *)
Definition cq_seal (q : i2c_cmdqueue) : i2c_cmdqueue :=
  let q := close_group q in
  mk_cq (req_code q) (to_u16 (Z.of_nat (p q) + REQ_HDR_SIZE))
        (req_count q) (req_cmdbuf q) (reply q) (p q) (cmd q).

Definition set_reply (q : i2c_cmdqueue) (rep : list Z) : i2c_cmdqueue :=
  mk_cq (req_code q) (req_length q) (req_count q) (req_cmdbuf q) rep
        (p q) (cmd q).

(** What [cq_exec] does besides computing: calls of the transport and
    lines logged with [DRM_ERROR]. *)
Inductive cq_event :=
| Icc_cmd (call : icc_call)
| Drm_error (msg : String.string).

(** [cq_exec]: the return value, the queue afterwards, and the events. *)
Definition cq_exec (icc : transport) (q : i2c_cmdqueue)
  : Z * i2c_cmdqueue * list cq_event :=
  match cmd q with
  | None => (0, q, [])
  | Some _ =>
      let q := cq_seal q in
      let call := mk_call 0x10 0 (req_bytes q) REPLY_SIZE in
      let '(res, rep) := icc (req_bytes q) (reply q) in
      let q := set_reply q rep in
      if res <? 5 then
        (- EIO, q,
         [Icc_cmd call; Drm_error "icc i2c commandqueue failed: %d"])
      else if negb (load_byte (reply q) 0 =? 0)
              || negb (load_byte (reply q) 1 =? 0)
           then
             (- EIO, q,
              [Icc_cmd call; Drm_error "icc i2c commandqueue failed: %d, %d"])
           else (res, q, [Icc_cmd call])
  end.

(** The emitter calls of a batch, as data. *)
Inductive cq_op :=
| Op_read (addr count : Z)
| Op_writereg (addr data : Z)
| Op_mask (addr value mask : Z)
| Op_delay (time : Z)
| Op_wait_set (addr mask : Z)
| Op_wait_clear (addr mask : Z).

Definition cq_emit (q : i2c_cmdqueue) (op : cq_op) : i2c_cmdqueue :=
  match op with
  | Op_read a c => cq_read q a c
  | Op_writereg a d => cq_writereg q a d
  | Op_mask a v m => cq_mask q a v m
  | Op_delay t => cq_delay q t
  | Op_wait_set a m => cq_wait_set q a m
  | Op_wait_clear a m => cq_wait_clear q a m
  end.

Definition cq_batch (q : i2c_cmdqueue) (code : Z) (ops : list cq_op)
  : i2c_cmdqueue :=
  fold_left cq_emit ops (cq_init q code).

(** A queue as [g_bridge] holds it before first use: zeroed memory. *)
Definition cq_zero : i2c_cmdqueue :=
  mk_cq 0 0 0 (repeat 0 CMDBUF_SIZE) (repeat 0 (Z.to_nat REPLY_SIZE)) 0%nat None.

(** Example batches and transports. *)
Definition three_writes : list cq_op :=
  [Op_writereg 0x7005 1; Op_writereg 0x7006 2; Op_writereg 0x7040 3].

Definition write_read_write : list cq_op :=
  [Op_writereg 0x7005 1; Op_read 0x7008 1; Op_writereg 0x7040 3].

Definition long_run : list cq_op := repeat (Op_writereg 0x7005 1) 64.

(** A transport whose reply is too short, and one whose reply is long
    enough but carries a nonzero status byte. *)
Definition icc_short : transport := fun _ rep => (4, rep).
Definition icc_rejected : transport :=
  fun _ rep => (9, overwrite [1; 0; 0; 0; 1; 0; 0; 0; 8] rep).

End Bridge.

(** ** The ICC transport (icc.c) *)

Module Icc.

(** Constants of [aeolia-baikal.h], whose values the driver sources do not
    show: they are parameters of the development. *)
Record icc_config := mk_config {
  ICC_MAGIC : Z;
  ICC_EVENT_MAGIC : Z;
  ICC_REPLY : Z;
  ICC_EVENT : Z;
  ICC_MIN_SIZE : Z;
  ICC_MAX_SIZE : Z;
  ICC_MIN_PAYLOAD : Z;
  ICC_MAX_PAYLOAD : Z;
  ICC_IOCTL_CMD : Z
}.

(** A concrete configuration for the examples: header of 12 bytes, frames
    between 0x20 and 0x7f0 bytes, flag bits 14 and 15 of [minor]. *)
Definition sample_config : icc_config :=
  mk_config 0x42 0x24 0x4000 0x8000 0x20 0x7f0 0x14 0x7e4 0xc0284901.

(** Registers and bits of aeolia.h. *)
Definition APCIE_RGN_ICC_BASE : Z := 0x184000.
Definition APCIE_REG_ICC (x : Z) : Z := APCIE_RGN_ICC_BASE + x.
Definition APCIE_REG_ICC_DOORBELL : Z := APCIE_REG_ICC 0x804.
Definition APCIE_REG_ICC_STATUS : Z := APCIE_REG_ICC 0x814.
Definition APCIE_REG_ICC_IRQ_MASK : Z := APCIE_REG_ICC 0x824.
Definition APCIE_ICC_SEND : Z := 0x01.
Definition APCIE_ICC_ACK : Z := 0x02.

Definition IRQ_NONE : Z := 0.
Definition IRQ_HANDLED : Z := 1.

(** *** Message header *)

Module Hdr.

(** [struct icc_message_hdr], as the code uses its fields: [magic] and
    [major] are bytes, the others 16-bit. *)
Record t := mk {
  magic : Z;
  major : Z;
  minor : Z;
  unknown : Z;
  cookie : Z;
  length : Z;
  checksum : Z
}.

Definition set_length (h : t) (v : Z) : t :=
  mk (magic h) (major h) (minor h) (unknown h) (cookie h) v (checksum h).

Definition set_checksum (h : t) (v : Z) : t :=
  mk (magic h) (major h) (minor h) (unknown h) (cookie h) (length h) v.

(** Every field within the range of its C type. *)
Definition wf (h : t) : Prop :=
  0 <= magic h < 2 ^ 8 /\ 0 <= major h < 2 ^ 8 /\
  0 <= minor h < 2 ^ 16 /\ 0 <= unknown h < 2 ^ 16 /\
  0 <= cookie h < 2 ^ 16 /\ 0 <= length h < 2 ^ 16 /\
  0 <= checksum h < 2 ^ 16.

End Hdr.

(** Modelled from the spec: the layout of [struct icc_message_hdr] (declared
    in the absent [aeolia-baikal.h]): a packed header of the fields the
    source reads and prints, in that order, 16-bit fields little-endian. *)
Definition ICC_HDR_SIZE : Z := 12.

Definition hdr_bytes (h : Hdr.t) : list Z :=
  [ to_u8 (Hdr.magic h); to_u8 (Hdr.major h);
    lo8 (Hdr.minor h); hi8 (Hdr.minor h);
    lo8 (Hdr.unknown h); hi8 (Hdr.unknown h);
    lo8 (Hdr.cookie h); hi8 (Hdr.cookie h);
    lo8 (Hdr.length h); hi8 (Hdr.length h);
    lo8 (Hdr.checksum h); hi8 (Hdr.checksum h) ].

Definition hdr_of_bytes (l : list Z) : Hdr.t :=
  let b i := nth i l 0 in
  Hdr.mk (to_u8 (b 0%nat)) (to_u8 (b 1%nat))
         (le16 (b 2%nat) (b 3%nat)) (le16 (b 4%nat) (b 5%nat))
         (le16 (b 6%nat) (b 7%nat)) (le16 (b 8%nat) (b 9%nat))
         (le16 (b 10%nat) (b 11%nat)).

(** *** checksum *)

(** [while (length--) sum += *pp++;] over the bytes at [p], [sum] a [u16]. *)
Fixpoint checksum_loop (pp : list Z) (sum : Z) : Z :=
  match pp with
  | [] => sum
  | b :: pp' => checksum_loop pp' (to_u16 (sum + b))
  end.

(** [checksum(p, length)], [p] being the [length] bytes read. *)
Definition checksum (p : list Z) : Z := checksum_loop p 0.

(** *** Device state *)

Definition ptr : Type := nat.

(** Kernel memory holding the callers' buffers.  Reads through NULL or past
    the end of a buffer are undefined in C: the model reads nothing there
    and lets a copy through NULL change nothing. *)
Definition heap : Type := ptr -> list Z.

Definition heap_store (m : heap) (a : ptr) (v : list Z) : heap :=
  fun b => if Nat.eqb a b then v else m b.

Definition load (m : heap) (p : option ptr) (n : Z) : list Z :=
  match p with
  | None => []
  | Some a => firstn (Z.to_nat n) (m a)
  end.

Definition memcpy_to (m : heap) (p : option ptr) (src : list Z) : heap :=
  match p with
  | None => m
  | Some a => heap_store m a (overwrite src (m a))
  end.

Inductive event :=
| Iowrite32 (val reg : Z)
| Wake_up
| Sc_err (msg : String.string)
| Dump_message
| Pwrbutton_trigger (state : Z).

(** One half of the shared-memory window: the [BUF_EMPTY] and [BUF_FULL]
    flag words and the frame bytes at offset 0. *)
Record icc_slot := mk_slot {
  buf_empty : Z;
  buf_full : Z;
  buf_data : list Z
}.

(** [n] bytes of the slot from offset [off]. *)
Definition slot_bytes (s : icc_slot) (off n : Z) : list Z :=
  firstn (Z.to_nat n) (skipn (Z.to_nat off) (buf_data s)).

(** [sc->icc] with the two halves of the window, the kernel memory the
    saved pointers refer to, and the trace of effects so far. *)
Record apcie_dev := mk_dev {
  request : Hdr.t;
  reply : Hdr.t;
  reply_pending : bool;
  reply_buffer : option ptr;
  reply_length : Z;
  reply_extra_checksum : Z;
  spm_request : icc_slot;
  spm_reply : icc_slot;
  mem : heap;
  trace : list event
}.

Definition emit (sc : apcie_dev) (e : event) : apcie_dev :=
  mk_dev (request sc) (reply sc) (reply_pending sc) (reply_buffer sc)
         (reply_length sc) (reply_extra_checksum sc) (spm_request sc)
         (spm_reply sc) (mem sc) (trace sc ++ [e]).

Definition sc_err (sc : apcie_dev) (msg : String.string) : apcie_dev :=
  emit sc (Sc_err msg).

Definition dump_message (sc : apcie_dev) : apcie_dev := emit sc Dump_message.

Definition iowrite32 (val reg : Z) (sc : apcie_dev) : apcie_dev :=
  emit sc (Iowrite32 val reg).

Definition set_spm_request (sc : apcie_dev) (s : icc_slot) : apcie_dev :=
  mk_dev (request sc) (reply sc) (reply_pending sc) (reply_buffer sc)
         (reply_length sc) (reply_extra_checksum sc) s
         (spm_reply sc) (mem sc) (trace sc).

Definition set_spm_reply (sc : apcie_dev) (s : icc_slot) : apcie_dev :=
  mk_dev (request sc) (reply sc) (reply_pending sc) (reply_buffer sc)
         (reply_length sc) (reply_extra_checksum sc) (spm_request sc)
         s (mem sc) (trace sc).

Definition set_reply_pending (sc : apcie_dev) (b : bool) : apcie_dev :=
  mk_dev (request sc) (reply sc) b (reply_buffer sc)
         (reply_length sc) (reply_extra_checksum sc) (spm_request sc)
         (spm_reply sc) (mem sc) (trace sc).

Definition set_reply_buffer (sc : apcie_dev) (p : option ptr) : apcie_dev :=
  mk_dev (request sc) (reply sc) (reply_pending sc) p
         (reply_length sc) (reply_extra_checksum sc) (spm_request sc)
         (spm_reply sc) (mem sc) (trace sc).

(** *** Interrupt side *)

Definition handle_event (sc : apcie_dev) (msg : Hdr.t) : apcie_dev :=
  let key := Z.lor (Z.shiftl (Hdr.major msg) 16) (Hdr.minor msg) in
  if key =? 0x088010 then emit sc (Pwrbutton_trigger 1)
  else if key =? 0x088011 then emit sc (Pwrbutton_trigger 0)
  else dump_message (sc_err sc "icc: event arrived, not yet supported.").

Definition handle_message (cfg : icc_config) (sc : apcie_dev) : apcie_dev :=
  let rep := spm_reply sc in
  let rep_empty := buf_empty rep in
  let rep_full := buf_full rep in
  if negb (rep_empty =? 0) || negb (rep_full =? 1) then
    sc_err sc "icc: reply buffer in bad state"
  else
    let msg := hdr_of_bytes (slot_bytes rep 0 ICC_HDR_SIZE) in
    if negb (Z.land (Hdr.minor msg) (ICC_EVENT cfg) =? 0) then
      if negb (Hdr.magic msg =? ICC_EVENT_MAGIC cfg) then
        dump_message (sc_err sc "icc: event has bad magic")
      else handle_event sc msg
    else if negb (Z.land (Hdr.minor msg) (ICC_REPLY cfg) =? 0) then
      if negb (Hdr.magic msg =? ICC_MAGIC cfg) then
        dump_message (sc_err sc "icc: reply has bad magic")
      else if negb (reply_pending sc) then
        dump_message (sc_err sc "icc: unexpected reply")
      else if negb (Hdr.cookie msg =? Hdr.cookie (request sc)) then
        dump_message (sc_err sc "icc: reply has bad cookie")
      else if (Hdr.length msg <? ICC_HDR_SIZE)
              || (Hdr.length msg >? ICC_MAX_SIZE cfg) then
        dump_message (sc_err sc "icc: reply has bad length")
      else
        let off := ICC_HDR_SIZE in
        let copy_size := Z.min (reply_length sc) (Hdr.length msg - off) in
        let mem' :=
          memcpy_to (mem sc) (reply_buffer sc) (slot_bytes rep off copy_size) in
        let off := off + copy_size in
        (* while (off < msg.length) reply_extra_checksum += ioread8(...) *)
        let extra := checksum_loop (slot_bytes rep off (Hdr.length msg - off)) 0 in
        emit (mk_dev (request sc) msg false (reply_buffer sc) copy_size extra
                     (spm_request sc) (spm_reply sc) mem' (trace sc))
             Wake_up
    else
      dump_message (sc_err sc "icc: unknown message arrived").

(** The body of the [do ... while (status)] loop for one value read from
    the status register. *)
Definition icc_interrupt_body (cfg : icc_config) (status : Z)
  (st : apcie_dev * Z) : apcie_dev * Z :=
  let '(sc, ret) := st in
  let '(sc, ret) :=
    if negb (Z.land status APCIE_ICC_ACK =? 0)
    then (iowrite32 APCIE_ICC_ACK APCIE_REG_ICC_STATUS sc, IRQ_HANDLED)
    else (sc, ret) in
  if negb (Z.land status APCIE_ICC_SEND =? 0) then
    let sc := iowrite32 APCIE_ICC_SEND APCIE_REG_ICC_STATUS sc in
    let sc := handle_message cfg sc in
    let sc := set_spm_reply sc (mk_slot 1 0 (buf_data (spm_reply sc))) in
    let sc := iowrite32 APCIE_ICC_ACK APCIE_REG_ICC_DOORBELL sc in
    (sc, IRQ_HANDLED)
  else (sc, ret).

(** [icc_interrupt], given the successive values the status register reads
    as; the loop ends at the first zero (a register that is read after the
    list is used up reads as zero). *)
Fixpoint icc_interrupt_loop (cfg : icc_config) (statuses : list Z)
  (st : apcie_dev * Z) : apcie_dev * Z :=
  match statuses with
  | [] => st
  | status :: rest =>
      let st := icc_interrupt_body cfg status st in
      if status =? 0 then st else icc_interrupt_loop cfg rest st
  end.

Definition icc_interrupt (cfg : icc_config) (statuses : list Z)
  (sc : apcie_dev) : apcie_dev * Z :=
  icc_interrupt_loop cfg statuses (sc, IRQ_NONE).

(** *** What the other side and the kernel do while a caller waits *)

Inductive hw_event :=
| Remote_drain                     (* the request was taken: empty=1, full=0 *)
| Remote_post (slot : icc_slot)    (* a frame was placed in the reply half *)
| Irq (statuses : list Z).         (* the interrupt handler runs *)

Definition hw_step (cfg : icc_config) (sc : apcie_dev) (e : hw_event)
  : apcie_dev :=
  match e with
  | Remote_drain =>
      set_spm_request sc (mk_slot 1 0 (buf_data (spm_request sc)))
  | Remote_post slot => set_spm_reply sc slot
  | Irq statuses => fst (icc_interrupt cfg statuses sc)
  end.

(** The environment of one wait: what happens before the wait ends, whether
    a signal is delivered to the waiter, and the time left when the
    condition became true. *)
Record wait_env := mk_env {
  hw : list hw_event;
  signalled : bool;
  jiffies_left : Z
}.

(** The kernel's [wait_event_timeout]: 0 when the time ran out with the
    condition false, otherwise the remaining time, at least 1. *)
Definition wait_event_timeout (env : wait_env) (condition : bool) : Z :=
  if condition then Z.max 1 (jiffies_left env) else 0.

(** [wait_event_interruptible_timeout]: as above, or [-ERESTARTSYS] when a
    signal interrupts the wait. *)
Definition wait_event_interruptible_timeout (env : wait_env)
  (condition : bool) : Z :=
  if condition then Z.max 1 (jiffies_left env)
  else if signalled env then - ERESTARTSYS else 0.

(** *** Sending a request *)

(** The request header [_apcie_icc_cmd] builds (before the checksum is
    filled in: its checksum field is zero). *)
Definition request_hdr0 (cfg : icc_config) (sc : apcie_dev)
  (major minor length : Z) : Hdr.t :=
  let h := Hdr.mk (to_u8 (ICC_MAGIC cfg)) major minor
                  (Hdr.unknown (request sc))
                  (to_u16 (Hdr.cookie (request sc) + 1))
                  (to_u16 (ICC_HDR_SIZE + length)) 0 in
  if Hdr.length h <? ICC_MIN_SIZE cfg
  then Hdr.set_length h (to_u16 (ICC_MIN_SIZE cfg))
  else h.

(** ... and with the checksum: that of the header plus that of the data. *)
Definition request_hdr (cfg : icc_config) (sc : apcie_dev)
  (major minor length : Z) (payload : list Z) : Hdr.t :=
  let h := request_hdr0 cfg sc major minor length in
  let h := Hdr.set_checksum h (checksum (hdr_bytes h)) in
  Hdr.set_checksum h (to_u16 (Hdr.checksum h + checksum payload)).

(** The [memset_io] after the payload: zeros up to the minimum payload. *)
Definition request_padding (cfg : icc_config) (length : Z) : list Z :=
  if length <? ICC_MIN_PAYLOAD cfg
  then repeat 0 (Z.to_nat (ICC_MIN_PAYLOAD cfg - length))
  else [].

(** The bytes written to the request half of the window. *)
Definition request_frame (cfg : icc_config) (sc : apcie_dev)
  (major minor length : Z) (payload : list Z) : list Z :=
  hdr_bytes (request_hdr cfg sc major minor length payload)
  ++ payload ++ request_padding cfg length.

(** The part of [_apcie_icc_cmd] after the wait returned [ret]. *)
Definition icc_cmd_finish (cfg : icc_config) (sc : apcie_dev) (ret : Z)
  (major minor : Z) (reply : option ptr) : Z * apcie_dev :=
  let sc := set_reply_buffer sc None in
  if (ret <? 0) || reply_pending sc then
    let sc := set_reply_pending sc false in
    let sc := sc_err sc "icc: interrupted or timeout" in
    (if ret <? 0 then - EINTR else - ETIMEDOUT, sc)
  else
    let rep_checksum := Hdr.checksum (Icc.reply sc) in
    let rep0 := Hdr.set_checksum (Icc.reply sc) 0 in
    let sc := mk_dev (request sc) rep0 (reply_pending sc) (reply_buffer sc)
                     (reply_length sc) (reply_extra_checksum sc)
                     (spm_request sc) (spm_reply sc) (mem sc) (trace sc) in
    let rep_checksum := to_u16 (rep_checksum - checksum (hdr_bytes rep0)) in
    let rep_checksum :=
      to_u16 (rep_checksum - checksum (load (mem sc) reply (reply_length sc))) in
    let rep_checksum := to_u16 (rep_checksum - reply_extra_checksum sc) in
    if negb (rep_checksum =? 0) then
      (- EIO, sc_err sc "icc: checksum mismatch")
    else if negb (Hdr.major rep0 =? major) then
      (- EIO, sc_err sc "icc: major mismatch")
    else if negb (Hdr.minor rep0 =? Z.lor minor (ICC_REPLY cfg)) then
      (- EIO, sc_err sc "icc: minor mismatch")
    else (Hdr.length rep0 - ICC_HDR_SIZE, sc).

(** The part of [_apcie_icc_cmd] before the wait: either an early return,
    or the state once the doorbell has been rung.  [data] and [reply] are
    pointers into kernel memory (NULL is [None]). *)
Definition icc_cmd_submit (cfg : icc_config) (sc : apcie_dev)
  (major minor : Z) (data : option ptr) (length : Z)
  (reply : option ptr) (reply_length : Z) : (Z * apcie_dev) + apcie_dev :=
  if length >? ICC_MAX_PAYLOAD cfg then inl (- E2BIG, sc)
  else
    let payload := load (mem sc) data length in
    let req := request_hdr cfg sc major minor length payload in
    let frame := request_frame cfg sc major minor length payload in
    let sc := mk_dev req (Icc.reply sc) (reply_pending sc) reply reply_length
                     (reply_extra_checksum sc) (spm_request sc)
                     (spm_reply sc) (mem sc) (trace sc) in
    let req_empty := buf_empty (spm_request sc) in
    let req_full := buf_full (spm_request sc) in
    if negb (req_empty =? 1) || negb (req_full =? 0) then
      inl (- EIO, sc_err sc "icc: request buffer is busy")
    else
      let sc :=
        set_spm_request sc
          (mk_slot 0 1 (overwrite frame (buf_data (spm_request sc)))) in
      let sc := set_reply_pending sc true in
      inr (iowrite32 APCIE_ICC_SEND APCIE_REG_ICC_DOORBELL sc).

(** The state when the wait is over: the events of [env] have happened. *)
Definition icc_cmd_wait (cfg : icc_config) (env : wait_env) (sc : apcie_dev)
  : apcie_dev :=
  fold_left (hw_step cfg) (hw env) sc.

(** [_apcie_icc_cmd]; [env] is what happens during the wait.  The
    arguments arrive as [u8] and [u16]. *)
Definition _apcie_icc_cmd (cfg : icc_config) (env : wait_env)
  (sc : apcie_dev) (major minor : Z) (data : option ptr) (length : Z)
  (reply : option ptr) (reply_length : Z) (intr : bool) : Z * apcie_dev :=
  let major := to_u8 major in
  let minor := to_u16 minor in
  let length := to_u16 length in
  let reply_length := to_u16 reply_length in
  match icc_cmd_submit cfg sc major minor data length reply reply_length with
  | inl r => r
  | inr sc =>
      let sc := icc_cmd_wait cfg env sc in
      let ret :=
        if intr
        then wait_event_interruptible_timeout env (negb (reply_pending sc))
        else wait_event_timeout env (negb (reply_pending sc)) in
      icc_cmd_finish cfg sc ret major minor reply
  end.

(** *** The exported entry point *)

(** The globals of icc.c.  [icc_sc] is NULL or points to the one device
    [dev]; [icc_mutex] is [true] while held; [ioctl_tmp_buf] is the
    scratch buffer of the ioctl. *)
Record icc_global := mk_global {
  bpcie_initialized : bool;
  icc_mutex : bool;
  icc_sc : bool;
  dev : apcie_dev;
  ioctl_tmp_buf : option ptr
}.

Definition set_mutex (g : icc_global) (b : bool) : icc_global :=
  mk_global (bpcie_initialized g) b (icc_sc g) (dev g) (ioctl_tmp_buf g).

Definition set_dev (g : icc_global) (d : apcie_dev) : icc_global :=
  mk_global (bpcie_initialized g) (icc_mutex g) (icc_sc g) d (ioctl_tmp_buf g).

(** What a call does: it returns, or it never gets past [mutex_lock]
    because the mutex is held and nothing releases it. *)
Inductive result :=
| Returns (ret : Z) (g : icc_global)
| Blocks.

(** [bpcie_icc_cmd], the transport of the other southbridge, is defined
    elsewhere in the kernel. *)
Definition bpcie_transport : Type :=
  icc_global -> Z -> Z -> option ptr -> Z -> option ptr -> Z -> Z * icc_global.

Definition apcie_icc_cmd (cfg : icc_config) (bpcie_icc_cmd : bpcie_transport)
  (env : wait_env) (g : icc_global) (major minor : Z) (data : option ptr)
  (length : Z) (reply : option ptr) (reply_length : Z) : result :=
  if bpcie_initialized g then
    let '(ret, g) :=
      bpcie_icc_cmd g major minor data length reply reply_length in
    Returns ret g
  else if icc_mutex g then Blocks
  else
    let g := set_mutex g true in                          (* mutex_lock *)
    if negb (icc_sc g) then
      Returns (- EAGAIN) (set_dev g (emit (dev g) (Sc_err "icc: not ready")))
    else
      let '(ret, d) :=
        _apcie_icc_cmd cfg env (dev g) major minor data length reply
                       reply_length false in
      let g := set_dev g d in
      let g := set_mutex g false in                       (* mutex_unlock *)
      Returns ret g.

(** *** The ioctl *)

(** [kzalloc(1 << 16, GFP_KERNEL)] in [apcie_icc_init]. *)
Definition IOCTL_TMP_BUF_SIZE : Z := Z.shiftl 1 16.

Definition le_bytes (l : list Z) : Z :=
  fold_right (fun b acc => to_u8 b + 256 * acc) 0 l.

(** Modelled from the spec: [struct icc_cmd] (declared in the absent
    [aeolia-baikal.h]) carries what the control operation accepts, major,
    minor, request bytes, reply capacity, with the widths of the parameters
    of [apcie_icc_cmd]: [u8 major; u16 minor; void *data; u16 length;
    void *reply; u16 reply_length], naturally aligned, 40 bytes. *)
Record icc_cmd := mk_icc_cmd {
  cmd_major : Z;
  cmd_minor : Z;
  cmd_data : Z;
  cmd_length : Z;
  cmd_reply : Z;
  cmd_reply_length : Z
}.

Definition SIZEOF_ICC_CMD : Z := 40.

Definition field (l : list Z) (off n : nat) : Z :=
  le_bytes (firstn n (skipn off l)).

Definition icc_cmd_of_bytes (l : list Z) : icc_cmd :=
  mk_icc_cmd (field l 0 1) (field l 2 2) (field l 8 8) (field l 16 2)
             (field l 24 8) (field l 32 2).

(** User memory as the copy routines see it: [uread a n] is the [n] bytes
    at user address [a], or [None] when the access faults; [uwrite a n]
    tells whether [n] bytes can be written at [a]. *)
Record user_space := mk_user {
  uread : Z -> Z -> option (list Z);
  uwrite : Z -> Z -> bool
}.

(** A copy into or out of the scratch buffer, with its length. *)
Inductive scratch_copy :=
| Copy_in (n : Z)
| Copy_out (n : Z).


(** [icc_ioctl]: the copies made through the scratch buffer, and the
    outcome. *)
Definition icc_ioctl (cfg : icc_config) (bpcie_icc_cmd : bpcie_transport)
  (env : wait_env) (u : user_space) (g : icc_global) (cmd : Z) (arg : Z)
  : list scratch_copy * result :=
  if cmd =? ICC_IOCTL_CMD cfg then
    match uread u arg SIZEOF_ICC_CMD with
    | None => ([], Returns (- EFAULT) g)
    | Some raw =>
        let cmd := icc_cmd_of_bytes raw in
        match uread u (cmd_data cmd) (cmd_length cmd) with
        | None => ([Copy_in (cmd_length cmd)], Returns (- EFAULT) g)
        | Some bytes =>
            let d := dev g in
            let d := mk_dev (request d) (reply d) (reply_pending d)
                            (reply_buffer d) (reply_length d)
                            (reply_extra_checksum d) (spm_request d)
                            (spm_reply d)
                            (memcpy_to (mem d) (ioctl_tmp_buf g)
                               (firstn (Z.to_nat (cmd_length cmd)) bytes))
                            (trace d) in
            let g := set_dev g d in
            match apcie_icc_cmd cfg bpcie_icc_cmd env g (cmd_major cmd)
                    (cmd_minor cmd) (ioctl_tmp_buf g) (cmd_length cmd)
                    (ioctl_tmp_buf g) (cmd_reply_length cmd) with
            | Blocks => ([Copy_in (cmd_length cmd)], Blocks)
            | Returns reply_len g =>
                if reply_len <? 0 then
                  ([Copy_in (cmd_length cmd)], Returns reply_len g)
                else if uwrite u (cmd_reply cmd) (cmd_reply_length cmd) then
                  ([Copy_in (cmd_length cmd);
                    Copy_out (cmd_reply_length cmd)], Returns reply_len g)
                else
                  ([Copy_in (cmd_length cmd);
                    Copy_out (cmd_reply_length cmd)], Returns (- EFAULT) g)
            end
        end
    end
  else ([], Returns (- ENOENT) g).

(** *** Frames, as the properties speak of them *)

(** A frame with the two bytes of its checksum field set to zero. *)
Definition zero_checksum_field (frame : list Z) : list Z :=
  firstn 10 frame ++ [0; 0] ++ skipn 12 frame.

(** The checksum of a whole frame: header, with a zero checksum field, and
    payload. *)
Definition frame_checksum (h : Hdr.t) (payload : list Z) : Z :=
  to_u16 (sum_bytes (hdr_bytes (Hdr.set_checksum h 0) ++ payload)).

(** The reply half holds header [h] followed by [payload]. *)
Definition reply_slot (h : Hdr.t) (payload rest : list Z) : icc_slot :=
  mk_slot 0 1 (hdr_bytes h ++ payload ++ rest).

(** The conditions under which [handle_message] takes the frame [h],
    [payload] as the reply to the outstanding request of [sc]: a reply and
    not an event, reply magic, the request's cookie, a length within
    bounds, and as many payload bytes as the length announces. *)
Definition awaited_reply (cfg : icc_config) (sc : apcie_dev) (h : Hdr.t)
  (payload : list Z) : Prop :=
  Hdr.wf h /\
  Z.land (Hdr.minor h) (ICC_EVENT cfg) = 0 /\
  Z.land (Hdr.minor h) (ICC_REPLY cfg) <> 0 /\
  Hdr.magic h = ICC_MAGIC cfg /\
  Hdr.cookie h = Hdr.cookie (request sc) /\
  ICC_HDR_SIZE <= Hdr.length h <= ICC_MAX_SIZE cfg /\
  Z.of_nat (length payload) = Hdr.length h - ICC_HDR_SIZE.

(** A frame that will be taken as the reply to the request about to be
    sent from [sc]: as [awaited_reply], with the cookie that request will
    get. *)
Definition expected_reply (cfg : icc_config) (sc : apcie_dev) (h : Hdr.t)
  (payload : list Z) : Prop :=
  Hdr.wf h /\
  Z.land (Hdr.minor h) (ICC_EVENT cfg) = 0 /\
  Z.land (Hdr.minor h) (ICC_REPLY cfg) <> 0 /\
  Hdr.magic h = ICC_MAGIC cfg /\
  Hdr.cookie h = to_u16 (Hdr.cookie (request sc) + 1) /\
  ICC_HDR_SIZE <= Hdr.length h <= ICC_MAX_SIZE cfg /\
  Z.of_nat (length payload) = Hdr.length h - ICC_HDR_SIZE.

(** ... and that answers the request [major], [minor]: its major, and its
    minor with the reply flag. *)
Definition reply_to (cfg : icc_config) (sc : apcie_dev) (major minor : Z)
  (h : Hdr.t) (payload : list Z) : Prop :=
  expected_reply cfg sc h payload /\
  Hdr.major h = to_u8 major /\
  Hdr.minor h = Z.lor (to_u16 minor) (ICC_REPLY cfg).

(** The mailbox bookkeeping of the device: the saved request and reply,
    the pending flag, the reply destination and what it points to. *)
Definition mailbox (sc : apcie_dev)
  : Hdr.t * Hdr.t * bool * option ptr * Z * Z * heap :=
  (request sc, reply sc, reply_pending sc, reply_buffer sc, reply_length sc,
   reply_extra_checksum sc, mem sc).

(** The frame found in the reply half. *)
Definition inbound (sc : apcie_dev) : Hdr.t :=
  hdr_of_bytes (slot_bytes (spm_reply sc) 0 ICC_HDR_SIZE).

(** The request can be sent: the length is within bounds and the request
    half of the window is idle. *)
Definition can_send (cfg : icc_config) (sc : apcie_dev) (length : Z) : Prop :=
  to_u16 length <= ICC_MAX_PAYLOAD cfg /\
  buf_empty (spm_request sc) = 1 /\ buf_full (spm_request sc) = 0.

(** The caller's reply buffer holds at least [cap] bytes; a NULL buffer is
    fine for a capacity of zero. *)
Definition buffer_ok (sc : apcie_dev) (reply : option ptr) (cap : Z) : Prop :=
  match reply with
  | Some a => to_u16 cap <= Z.of_nat (length (mem sc a))
  | None => to_u16 cap = 0
  end.

(** The state in which [_apcie_icc_cmd] starts to wait (or the state it
    returns with, when it returns early). *)
Definition submitted (cfg : icc_config) (sc : apcie_dev) (major minor : Z)
  (data : option ptr) (length : Z) (reply : option ptr) (reply_length : Z)
  : apcie_dev :=
  match icc_cmd_submit cfg sc (to_u8 major) (to_u16 minor) data
          (to_u16 length) reply (to_u16 reply_length) with
  | inl (_, sc') => sc'
  | inr sc' => sc'
  end.

(** During the wait the other side takes the request, places one frame in
    the reply half and raises the interrupt, whose handler reads [st] and
    then 0 from the status register. *)
Definition answers (h : Hdr.t) (payload rest : list Z) (st : Z)
  (signalled : bool) (jiffies_left : Z) : wait_env :=
  mk_env [Remote_drain; Remote_post (reply_slot h payload rest); Irq [st; 0]]
         signalled jiffies_left.

(** During the wait nothing happens at all. *)
Definition silence (signalled : bool) : wait_env := mk_env [] signalled 0.

(** *** Examples *)

Definition hdr_zero : Hdr.t := Hdr.mk 0 0 0 0 0 0 0.

Definition slot_idle : icc_slot := mk_slot 1 0 (repeat 0 (Z.to_nat 0x7f0)).

(** Kernel memory of the examples: a request byte at address 0, a reply
    buffer of eight bytes at address 1, a scratch buffer at address 2. *)
Definition heap0 : heap :=
  fun a =>
    match a with
    | 0%nat => [0x10]
    | 1%nat => repeat 0 8
    | 2%nat => repeat 0 32
    | _ => []
    end.

(** A device at rest. *)
Definition sc0 : apcie_dev :=
  mk_dev hdr_zero hdr_zero false None 0 0 slot_idle slot_idle heap0 [].

Definition with_checksum (h : Hdr.t) (payload : list Z) : Hdr.t :=
  Hdr.set_checksum h (frame_checksum h payload).

Definition payload1 : list Z := [0; 0; 0; 8].

(** Replies to request 1:0 carrying cookie 1, cookie 7 and cookie 2. *)
Definition reply1 : Hdr.t :=
  with_checksum (Hdr.mk 0x42 1 0x4000 0 1 16 0) payload1.
Definition stale7 : Hdr.t :=
  with_checksum (Hdr.mk 0x42 1 0x4000 0 7 16 0) payload1.
Definition reply2 : Hdr.t :=
  with_checksum (Hdr.mk 0x42 1 0x4000 0 2 16 0) payload1.

(** The payload of [reply1] with its last byte altered. *)
Definition payload_bad : list Z := [0; 0; 0; 9].

(** The device after request 1:0 went out, with the stale frame in the
    reply half. *)
Definition sc_stale : apcie_dev :=
  set_spm_reply (submitted sample_config sc0 1 0 (Some 0%nat) 1 (Some 1%nat) 8)
                (reply_slot stale7 payload1 []).

(** Globals: the device registered or not, the mutex free. *)
Definition g_ready : icc_global := mk_global false false true sc0 (Some 2%nat).
Definition g_not_ready : icc_global :=
  mk_global false false false sc0 (Some 2%nat).

(** The other transport is not in use in the examples. *)
Definition no_bpcie : bpcie_transport := fun g _ _ _ _ _ _ => (- EAGAIN, g).

End Icc.

(** ** The batching encoding, as the specification words it *)

Module BridgeSpec.

Import Bridge.

(** The opcode pair of an operation and the operand bytes its emitter
    appends. *)
Definition opcode (op : cq_op) : Z * Z :=
  match op with
  | Op_read _ _ => CMD_READ
  | Op_writereg _ _ => CMD_WRITE
  | Op_mask _ _ _ => CMD_MASK
  | Op_delay _ => CMD_DELAY
  | Op_wait_set _ _ => CMD_WAIT_SET
  | Op_wait_clear _ _ => CMD_WAIT_CLEAR
  end.

Definition operands (op : cq_op) : list Z :=
  match op with
  | Op_read a c =>
      [to_u8 c; to_u8 (Z.shiftr (to_u16 a) 8);
       to_u8 (Z.land (to_u16 a) 0xff); to_u8 0]
  | Op_writereg a d =>
      [to_u8 1; to_u8 (Z.shiftr (to_u16 a) 8);
       to_u8 (Z.land (to_u16 a) 0xff); to_u8 d]
  | Op_mask a v m =>
      [to_u8 1; to_u8 (Z.shiftr (to_u16 a) 8);
       to_u8 (Z.land (to_u16 a) 0xff); to_u8 v; to_u8 m]
  | Op_delay t =>
      [to_u8 0; to_u8 (Z.land (to_u16 t) 0xff);
       to_u8 (Z.shiftr (to_u16 t) 8); to_u8 0]
  | Op_wait_set a m =>
      [to_u8 0; to_u8 (Z.shiftr (to_u16 a) 8);
       to_u8 (Z.land (to_u16 a) 0xff); to_u8 m]
  | Op_wait_clear a m =>
      [to_u8 0; to_u8 (Z.shiftr (to_u16 a) 8);
       to_u8 (Z.land (to_u16 a) 0xff); to_u8 m]
  end.

(** A command group: one opcode pair, the number of operations coalesced
    into it, and their operand bytes. *)
Record group := mk_group {
  g_major : Z;
  g_minor : Z;
  g_count : nat;
  g_body : list Z
}.

(** Groups are kept newest first: the head is the open group.  An
    operation whose opcode matches the open group joins it; any other
    closes it and opens a new group with repeat count 1. *)
Definition add_op (gs : list group) (op : cq_op) : list group :=
  let '(ma, mi) := opcode op in
  match gs with
  | g :: rest =>
      if (g_major g =? ma) && (g_minor g =? mi)
      then mk_group ma mi (S (g_count g)) (g_body g ++ operands op) :: rest
      else mk_group ma mi 1 (operands op) :: gs
  | [] => [mk_group ma mi 1 (operands op)]
  end.

Definition spec_coalesce (ops : list cq_op) : list group :=
  rev (fold_left add_op ops []).

(** Size of a group on the wire: header and operand bytes. *)
Definition group_size (g : group) : nat :=
  (CMD_HDR_SIZE + length (g_body g))%nat.

(** A closed group on the wire, its length and count fields holding the
    true values. *)
Definition encode_group (g : group) : list Z :=
  [g_major g; Z.of_nat (group_size g); g_minor g; Z.of_nat (g_count g)]
  ++ g_body g.

Definition encode_groups (gs : list group) : list Z :=
  List.concat (map encode_group gs).

(** The two halves of [add_op], as the emitters perform them: [cq_cmd]
    opens or joins a group, then each operand byte is appended. *)
Definition open_or_join (gs : list group) (mm : Z * Z) : list group :=
  let '(ma, mi) := mm in
  match gs with
  | g :: rest =>
      if (g_major g =? ma) && (g_minor g =? mi)
      then mk_group ma mi (S (g_count g)) (g_body g) :: rest
      else mk_group ma mi 1 [] :: gs
  | [] => [mk_group ma mi 1 []]
  end.

Definition append_bytes (gs : list group) (bs : list Z) : list group :=
  match gs with
  | g :: rest =>
      mk_group (g_major g) (g_minor g) (g_count g) (g_body g ++ bs) :: rest
  | [] => []
  end.

(** A group on the wire as the code leaves it: the fields are bytes, so
    length and count are stored modulo 256; the open group's length field
    is still zero. *)
Definition wire_closed (g : group) : list Z :=
  [g_major g; to_u8 (Z.of_nat (group_size g)); g_minor g;
   to_u8 (Z.of_nat (g_count g))] ++ g_body g.

Definition wire_open (g : group) : list Z :=
  [g_major g; 0; g_minor g; to_u8 (Z.of_nat (g_count g))] ++ g_body g.

Definition wire_groups (gs : list group) : list Z :=
  List.concat (map wire_closed gs).

Definition total_size (gs : list group) : nat :=
  list_sum (map group_size gs).

(** The queue [q] holds the groups [gs] (newest first, the head open). *)
Definition cq_inv (q : i2c_cmdqueue) (gs : list group) : Prop :=
  length (req_cmdbuf q) = CMDBUF_SIZE /\
  req_count q = to_u8 (Z.of_nat (length gs)) /\
  match gs with
  | [] => cmd q = None /\ p q = 0%nat
  | g :: rest =>
      cmd q = Some (length (wire_groups (rev rest))) /\
      exists tail,
        req_cmdbuf q = wire_groups (rev rest) ++ wire_open g ++ tail /\
        p q = length (wire_groups (rev rest) ++ wire_open g)
  end.

(** The header fields of the groups found in an encoded buffer, read the
    way the device would: each header's length field leads to the next. *)
Fixpoint decode_groups (fuel : nat) (buf : list Z) : list (Z * Z * Z * Z) :=
  match fuel, buf with
  | S fuel', ma :: len :: mi :: cnt :: _ =>
      (ma, mi, len, cnt) ::
      (if len <=? 0 then []
       else decode_groups fuel' (skipn (Z.to_nat len) buf))
  | _, _ => []
  end.

End BridgeSpec.

(** ** The transport: further notions for the properties below *)

Module IccFacts.

Import Icc.

(** The conditions [handle_message] tests before it takes the frame in the
    reply half as the reply to the outstanding request, on the state
    itself: the slot is full, the frame is a reply and not an event, has
    the reply magic and the request's cookie, a request is pending, and
    the length is within bounds. *)
Definition accepts (cfg : icc_config) (sc : apcie_dev) : Prop :=
  buf_empty (spm_reply sc) = 0 /\ buf_full (spm_reply sc) = 1 /\
  Z.land (Hdr.minor (inbound sc)) (ICC_EVENT cfg) = 0 /\
  Z.land (Hdr.minor (inbound sc)) (ICC_REPLY cfg) <> 0 /\
  Hdr.magic (inbound sc) = ICC_MAGIC cfg /\
  reply_pending sc = true /\
  Hdr.cookie (inbound sc) = Hdr.cookie (request sc) /\
  ICC_HDR_SIZE <= Hdr.length (inbound sc) <= ICC_MAX_SIZE cfg.

(** The values of the status register that [icc_interrupt] gets to read:
    those up to and including the first zero. *)
Fixpoint processed (statuses : list Z) : list Z :=
  match statuses with
  | [] => []
  | st :: rest => if st =? 0 then [st] else st :: processed rest
  end.

(** Either a reply is pending, or the saved reply has a length within
    bounds. *)
Definition settled (cfg : icc_config) (sc : apcie_dev) : Prop :=
  reply_pending sc = true \/
  ICC_HDR_SIZE <= Hdr.length (reply sc) <= ICC_MAX_SIZE cfg.

(** The constants of a configuration are consistent: the minimum payload
    is the minimum frame without its header, and frame lengths fit the
    16-bit length field. *)
Definition config_ok (cfg : icc_config) : Prop :=
  ICC_MIN_PAYLOAD cfg = ICC_MIN_SIZE cfg - ICC_HDR_SIZE /\
  ICC_HDR_SIZE <= ICC_MIN_SIZE cfg < 2 ^ 16 /\
  ICC_MAX_PAYLOAD cfg + ICC_HDR_SIZE < 2 ^ 16.

(** The caller's request buffer holds the bytes to send; NULL is fine for
    a length of zero. *)
Definition data_ok (sc : apcie_dev) (data : option ptr) (length : Z) : Prop :=
  match data with
  | Some a => to_u16 length <= Z.of_nat (List.length (mem sc a))
  | None => to_u16 length = 0
  end.

(** Is the bit set in the status word? *)
Definition has_bit (st bit : Z) : bool := negb (Z.land st bit =? 0).

(** The writes of [APCIE_ICC_ACK] to the doorbell in a trace: the frames
    acknowledged to the other side. *)
Definition is_doorbell_ack (e : event) : bool :=
  match e with
  | Iowrite32 v r => (v =? APCIE_ICC_ACK) && (r =? APCIE_REG_ICC_DOORBELL)
  | _ => false
  end.

Definition doorbell_acks (tr : list event) : nat :=
  length (filter is_doorbell_ack tr).

End IccFacts.

(** ** The bridge driver entry points (ps4_bridge.c) *)

Module Ps4Bridge.

Import Bridge.

Definition BIT (n : Z) : Z := Z.shiftl 1 n.

Definition TMONREG : Z := 0x7008.
Definition TMONREG_HPD : Z := BIT 3.



(** The fields of [struct ps4_bridge] the entry points use: the command
    queue, the mutex (true when held) and the stashed VIC. *)
Record ps4_bridge := mk_bridge {
  cq : i2c_cmdqueue;
  mutex : bool;
  mode : Z
}.

Definition set_cq (b : ps4_bridge) (q : i2c_cmdqueue) : ps4_bridge :=
  mk_bridge q (mutex b) (mode b).

(** [mutex_lock] does not return while the mutex is held. *)
Definition mutex_lock (b : ps4_bridge) : option ps4_bridge :=
  if mutex b then None else Some (mk_bridge (cq b) true (mode b)).

Definition mutex_unlock (b : ps4_bridge) : ps4_bridge :=
  mk_bridge (cq b) false (mode b).

(** The emitter calls of each batch, in source order. *)










(** [ps4_bridge_detect], line 705. *)
Definition detect_seq : list cq_op :=
  [Op_read TMONREG 1].

(** [cq_init(&mn_bridge->cq, 4)], the emitter calls of [ops], then
    [cq_exec(&mn_bridge->cq)]: the return value, the bridge and the
    events. *)
Definition run (icc : transport) (b : ps4_bridge) (ops : list cq_op)
  : Z * ps4_bridge * list cq_event :=
  let '(res, q, evs) := cq_exec icc (cq_batch (cq b) 4 ops) in
  (res, set_cq b q, evs).





Inductive drm_connector_status :=
| connector_status_connected
| connector_status_disconnected.

(** [ps4_bridge_detect], from [mutex_lock] on: the DPCD read of the
    amdgpu connector before it does not touch the bridge. *)
Definition ps4_bridge_detect (icc : transport) (b : ps4_bridge)
  : option (drm_connector_status * ps4_bridge * list cq_event) :=
  match mutex_lock b with
  | None => None
  | Some b =>
      let '(res, b, evs) := run icc b detect_seq in
      if res <? 9 then
        Some (connector_status_disconnected, mutex_unlock b,
              evs ++ [Drm_error "could not read TMONREG"])
      else
        let reg := to_u8 (load_byte (reply (cq b)) 8) in
        let b := mutex_unlock b in
        if negb (Z.land reg TMONREG_HPD =? 0)
        then Some (connector_status_connected, b, evs)
        else Some (connector_status_disconnected, b, evs)
  end.

(** Examples: the bridge as [g_bridge] starts out, with 1080p stashed; a
    transport that answers every batch with eleven bytes, status clear
    and the hot-plug bit set. *)
Definition bridge0 : ps4_bridge := mk_bridge cq_zero false 16.

Definition icc_plugged : transport :=
  fun _ rep => (11, overwrite [0; 0; 0; 0; 1; 0; 0; 0; 8; 0x14; 0] rep).

End Ps4Bridge.

(** ** The requests of the bridge driver, from the batches *)

Module BridgeFacts.

Import Bridge BridgeSpec.





End BridgeFacts.

(** ** Further examples *)

Module IccExamples.

Import Icc.

(** The power button event, in the reply half of a device at rest. *)
Definition event_frame : Hdr.t := Hdr.mk 0x24 8 0x8010 0 0 12 0.

Definition sc_event : apcie_dev :=
  set_spm_reply sc0 (reply_slot event_frame [] []).

(** A reply to request 1:0 with cookie 1 and a correct checksum, but
    major 2. *)
Definition wrong_major : Hdr.t :=
  with_checksum (Hdr.mk 0x42 2 0x4000 0 1 16 0) payload1.

(** The device after request 1:0 timed out. *)
Definition sc_timed_out : apcie_dev :=
  snd (_apcie_icc_cmd sample_config (silence false) sc0 1 0 (Some 0%nat) 1
                      (Some 1%nat) 8 false).

(** A user process none of whose memory is accessible. *)
Definition user_none : user_space :=
  mk_user (fun _ _ => None) (fun _ _ => false).

End IccExamples.

(** ** Bringing the transport up and down (icc.c) *)

Module IccInit.

Import Icc.

(** include/uapi/asm-generic/errno-base.h *)
Definition EBUSY : Z := 16.
Definition ENODEV : Z := 19.

(** The two memory regions the driver claims: the ICC registers in BAR4
    and the ICC part of the SPM. *)
Inductive region := Rgn_icc | Rgn_spm.

(** Calls into the rest of the kernel, with what they returned. *)
Inductive kcall :=
| Pci_get_slot (found : bool)
| Request_mem_region (r : region) (ok : bool)
| Release_mem_region (r : region)
| Ioremap (ok : bool)
| Iounmap
| Request_irq (ret : Z)
| Free_irq
| Icc_i2c_init (ret : Z)
| Icc_i2c_remove
| Icc_pwrbutton_init (ret : Z)
| Icc_pwrbutton_remove
| Kzalloc (p : option ptr)
| Register_chrdev (ret : Z).

(** Where the locals [on], [resp], [svc], [reply] and the static
    [led_config] of [resetBtWlan] and [do_icc_init] live. *)
Record frame := mk_frame {
  on_ptr : ptr;
  resp_ptr : ptr;
  svc_ptr : ptr;
  reply_ptr : ptr;
  led_config_ptr : ptr
}.

(** What the rest of the kernel answers during [apcie_icc_init], and what
    happens during the wait of its [n]-th command. *)
Record init_env := mk_init_env {
  mem_dev_found : bool;
  icc_region_ok : bool;
  spm_region_ok : bool;
  ioremap_ok : bool;
  request_irq_ret : Z;
  icc_i2c_init_ret : Z;
  icc_pwrbutton_init_ret : Z;
  kzalloc_ret : option ptr;
  register_chrdev_ret : Z;
  locals : frame;
  waits : nat -> wait_env
}.

(** The driver: the globals of icc.c, the kernel calls made so far, and
    whether [pm_power_off] points to [icc_shutdown]. *)
Record driver := mk_driver {
  glob : icc_global;
  klog : list kcall;
  pm_power_off : bool
}.

(** A call returns, or never gets past a [mutex_lock]. *)
Inductive outcome (A : Type) :=
| Done (a : A) (d : driver)
| Stuck (d : driver).

Arguments Done {A} a d.
Arguments Stuck {A} d.

Definition bind {A B : Type} (o : outcome A) (k : A -> driver -> outcome B)
  : outcome B :=
  match o with
  | Done a d => k a d
  | Stuck d => Stuck d
  end.

Definition call (d : driver) (k : kcall) : driver :=
  mk_driver (glob d) (klog d ++ [k]) (pm_power_off d).

Definition set_glob (d : driver) (g : icc_global) : driver :=
  mk_driver g (klog d) (pm_power_off d).

Definition set_pm_power_off (d : driver) (b : bool) : driver :=
  mk_driver (glob d) (klog d) b.

Definition on_dev (d : driver) (f : apcie_dev -> apcie_dev) : driver :=
  set_glob d (set_dev (glob d) (f (dev (glob d)))).

Definition err (d : driver) (msg : String.string) : driver :=
  on_dev d (fun sc => sc_err sc msg).

Definition set_icc_sc (g : icc_global) (b : bool) : icc_global :=
  mk_global (bpcie_initialized g) (icc_mutex g) b (dev g) (ioctl_tmp_buf g).

Definition set_ioctl_tmp_buf (g : icc_global) (p : option ptr) : icc_global :=
  mk_global (bpcie_initialized g) (icc_mutex g) (icc_sc g) (dev g) p.

Definition set_mem (sc : apcie_dev) (m : heap) : apcie_dev :=
  mk_dev (request sc) (reply sc) (reply_pending sc) (reply_buffer sc)
         (reply_length sc) (reply_extra_checksum sc) (spm_request sc)
         (spm_reply sc) m (trace sc).

(** An initialised local (or a zeroed allocation) at address [a]. *)
Definition place (d : driver) (a : ptr) (bytes : list Z) : driver :=
  on_dev d (fun sc => set_mem sc (heap_store (mem sc) a bytes)).

(** One [apcie_icc_cmd] whose return value is only printed. *)
Definition command (cfg : icc_config) (bpcie : bpcie_transport)
  (env : wait_env) (d : driver) (major minor : Z) (data : option ptr)
  (length : Z) (reply : option ptr) (reply_length : Z) : outcome Z :=
  match apcie_icc_cmd cfg bpcie env (glob d) major minor data length reply
                      reply_length with
  | Blocks => Stuck d
  | Returns ret g => Done ret (set_glob d g)
  end.

(** [resetBtWlan]: the one command not commented out.  The [printk]s are
    left out. *)
Definition resetBtWlan (cfg : icc_config) (bpcie : bpcie_transport)
  (env : init_env) (d : driver) : outcome unit :=
  let f := locals env in
  let d := place d (on_ptr f) [3] in
  bind (command cfg bpcie (waits env 0%nat) d 5 0 (Some (on_ptr f)) 1
                (Some (resp_ptr f)) 20)
       (fun _ d => Done tt d).

Definition led_config : list Z :=
  [3; 1; 0; 0;
   0x10; 1;
   2; 0xff; 2; 1; 0x00;
   0x11; 1;
   2; 0x00; 2; 1; 0x00;
   0x02; 3;
   1; 0x00; 4; 1; 0xbf;
   2; 0xff; 5; 1; 0xff;
   2; 0x00; 5; 1; 0xff].

(** [do_icc_init]: firmware version, service 0x10, LED configuration. *)
Definition do_icc_init (cfg : icc_config) (bpcie : bpcie_transport)
  (env : init_env) (d : driver) : outcome unit :=
  let f := locals env in
  let d := place d (svc_ptr f) [0x10] in
  let d := place d (led_config_ptr f) led_config in
  bind (command cfg bpcie (waits env 1%nat) d 2 6 None 0
                (Some (reply_ptr f)) 0x30) (fun _ d =>
  bind (command cfg bpcie (waits env 2%nat) d 1 0 (Some (svc_ptr f)) 1
                (Some (reply_ptr f)) 0x30) (fun _ d =>
  bind (command cfg bpcie (waits env 3%nat) d 9 0x20
                (Some (led_config_ptr f)) (Z.of_nat (length led_config))
                (Some (reply_ptr f)) 0x30) (fun _ d =>
  Done tt d))).

(** The labels at the end of [apcie_icc_init], each falling through to
    the next. *)
Definition release_icc (d : driver) (ret : Z) : outcome Z :=
  Done ret (call d (Release_mem_region Rgn_icc)).

Definition release_spm (d : driver) (ret : Z) : outcome Z :=
  release_icc (call d (Release_mem_region Rgn_spm)) ret.

Definition iounmap (d : driver) (ret : Z) : outcome Z :=
  release_spm (call d Iounmap) ret.

Definition free_irq (d : driver) (ret : Z) : outcome Z :=
  iounmap (call d Free_irq) ret.

Definition unassign_global (d : driver) (ret : Z) : outcome Z :=
  if icc_mutex (glob d) then Stuck d else                  (* mutex_lock *)
  let d := on_dev d (iowrite32 0 APCIE_REG_ICC_IRQ_MASK) in
  let d := set_glob d (set_icc_sc (glob d) false) in
  free_irq d ret.                                          (* mutex_unlock *)

(** [apcie_icc_init].  [sc] is the device of the globals. *)
Definition apcie_icc_init (cfg : icc_config) (bpcie : bpcie_transport)
  (env : init_env) (d : driver) : outcome Z :=
  let d := call d (Pci_get_slot (mem_dev_found env)) in
  if negb (mem_dev_found env) then
    Done (- ENODEV) (err d "icc: could not get handle to mem device")
  else
  let d := call d (Request_mem_region Rgn_icc (icc_region_ok env)) in
  if negb (icc_region_ok env) then
    Done (- EBUSY) (err d "icc: failed to request ICC register region")
  else
  let d := call d (Request_mem_region Rgn_spm (spm_region_ok env)) in
  if negb (spm_region_ok env) then
    release_icc (err d "icc: failed to request ICC SPM region") (- EBUSY)
  else
  let d := call d (Ioremap (ioremap_ok env)) in
  if negb (ioremap_ok env) then
    release_spm (err d "icc: failed to map ICC portion of SPM") (- EIO)
  else
  let d := on_dev d (iowrite32 (Z.lor APCIE_ICC_SEND APCIE_ICC_ACK)
                               APCIE_REG_ICC_STATUS) in
  let d := call d (Request_irq (request_irq_ret env)) in
  if negb (request_irq_ret env =? 0) then
    iounmap (err d "icc: could not request IRQ: %d") (request_irq_ret env)
  else
  let req_empty := buf_empty (spm_request (dev (glob d))) in
  let req_full := buf_full (spm_request (dev (glob d))) in
  if negb (req_empty =? 1) || negb (req_full =? 0) then
    free_irq (err d "icc: request buffer is busy: empty=%d full=%d") (- EIO)
  else
  if icc_mutex (glob d) then Stuck d else                  (* mutex_lock *)
  let d := set_glob d (set_icc_sc (glob d) true) in
  let d := on_dev d (iowrite32 (Z.lor APCIE_ICC_SEND APCIE_ICC_ACK)
                               APCIE_REG_ICC_IRQ_MASK) in  (* mutex_unlock *)
  let d := call d (Icc_i2c_init (icc_i2c_init_ret env)) in
  if negb (icc_i2c_init_ret env =? 0) then
    unassign_global (err d "icc: i2c init failed: %d") (icc_i2c_init_ret env)
  else
  bind (resetBtWlan cfg bpcie env d) (fun _ d =>
  let d := call d (Icc_pwrbutton_init (icc_pwrbutton_init_ret env)) in
  let d := if negb (icc_pwrbutton_init_ret env =? 0)
           then err d "icc: pwrbutton init failed: %d" else d in
  bind (do_icc_init cfg bpcie env d) (fun _ d =>
  let d := set_pm_power_off d true in
  let d := call d (Kzalloc (kzalloc_ret env)) in
  let d := set_glob d (set_ioctl_tmp_buf (glob d) (kzalloc_ret env)) in
  match kzalloc_ret env with
  | None => Done 0 (err d "icc: alloc ioctl_tmp_buf failed")
  | Some a =>
      let d := place d a (repeat 0 (Z.to_nat IOCTL_TMP_BUF_SIZE)) in
      let d := call d (Register_chrdev (register_chrdev_ret env)) in
      if negb (register_chrdev_ret env =? 0)
      then Done 0 (err d "icc: register_chrdev failed: %d")
      else Done 0 d
  end)).

(** [apcie_icc_remove]. *)
Definition apcie_icc_remove (d : driver) : outcome unit :=
  let d := err d "apcie_icc_remove: shouldn't normally be called" in
  let d := set_pm_power_off d false in
  let d := call d Icc_pwrbutton_remove in
  let d := call d Icc_i2c_remove in
  if icc_mutex (glob d) then Stuck d else                  (* mutex_lock *)
  let d := on_dev d (iowrite32 0 APCIE_REG_ICC_IRQ_MASK) in
  let d := set_glob d (set_icc_sc (glob d) false) in       (* mutex_unlock *)
  let d := call d Free_irq in
  let d := call d Iounmap in
  let d := call d (Release_mem_region Rgn_spm) in
  let d := call d (Release_mem_region Rgn_icc) in
  Done tt d.

(** *** What the driver holds, from the calls it made *)

Inductive resource :=
| Mem_dev_ref
| Mem_region (r : region)
| Spm_mapping
| Irq_handler
| I2c_bus
| Pwrbutton
| Scratch_buf
| Chrdev.

Definition resource_eqb (a b : resource) : bool :=
  match a, b with
  | Mem_dev_ref, Mem_dev_ref => true
  | Mem_region Rgn_icc, Mem_region Rgn_icc => true
  | Mem_region Rgn_spm, Mem_region Rgn_spm => true
  | Spm_mapping, Spm_mapping => true
  | Irq_handler, Irq_handler => true
  | I2c_bus, I2c_bus => true
  | Pwrbutton, Pwrbutton => true
  | Scratch_buf, Scratch_buf => true
  | Chrdev, Chrdev => true
  | _, _ => false
  end.

(** What a call hands to the driver when it succeeds: [pci_get_slot]
    returns the device with its reference count raised, the others follow
    the kernel's convention of 0 or a non-NULL pointer for success
    ([register_chrdev] is given the fixed major [ICC_MAJOR] of the absent
    [aeolia-baikal.h], for which it returns 0 on success; the code reads
    any other value as failure). *)
Definition acquired (k : kcall) : option resource :=
  match k with
  | Pci_get_slot true => Some Mem_dev_ref
  | Request_mem_region r true => Some (Mem_region r)
  | Ioremap true => Some Spm_mapping
  | Request_irq ret => if ret =? 0 then Some Irq_handler else None
  | Icc_i2c_init ret => if ret =? 0 then Some I2c_bus else None
  | Icc_pwrbutton_init ret => if ret =? 0 then Some Pwrbutton else None
  | Kzalloc (Some _) => Some Scratch_buf
  | Register_chrdev ret => if ret =? 0 then Some Chrdev else None
  | _ => None
  end.

Definition released (k : kcall) : option resource :=
  match k with
  | Release_mem_region r => Some (Mem_region r)
  | Iounmap => Some Spm_mapping
  | Free_irq => Some Irq_handler
  | Icc_i2c_remove => Some I2c_bus
  | Icc_pwrbutton_remove => Some Pwrbutton
  | _ => None
  end.

Definition account (h : list resource) (k : kcall) : list resource :=
  match acquired k, released k with
  | Some r, _ => h ++ [r]
  | None, Some r => filter (fun x => negb (resource_eqb x r)) h
  | None, None => h
  end.

(** The resources held after the calls of [log], in the order they were
    acquired. *)
Definition held (log : list kcall) : list resource :=
  fold_left account log [].

(** The optional resources of a successful [apcie_icc_init]. *)
Definition optional (env : init_env) : list resource :=
  (if icc_pwrbutton_init_ret env =? 0 then [Pwrbutton] else []) ++
  match kzalloc_ret env with
  | None => []
  | Some _ =>
      Scratch_buf ::
      (if register_chrdev_ret env =? 0 then [Chrdev] else [])
  end.

(** Every call [apcie_icc_init] cannot do without succeeds, and the
    request half is idle. *)
Definition comes_up (env : init_env) (d : driver) : Prop :=
  mem_dev_found env = true /\ icc_region_ok env = true /\
  spm_region_ok env = true /\ ioremap_ok env = true /\
  request_irq_ret env = 0 /\
  buf_empty (spm_request (dev (glob d))) = 1 /\
  buf_full (spm_request (dev (glob d))) = 0.

(** The device is registered, the mutex free and the other transport not
    in use. *)
Definition ready (d : driver) : Prop :=
  bpcie_initialized (glob d) = false /\ icc_mutex (glob d) = false /\
  icc_sc (glob d) = true.

(** The calls of a successful [apcie_icc_init]. *)
Definition init_calls (env : init_env) : list kcall :=
  [Pci_get_slot true; Request_mem_region Rgn_icc true;
   Request_mem_region Rgn_spm true; Ioremap true; Request_irq 0;
   Icc_i2c_init 0; Icc_pwrbutton_init (icc_pwrbutton_init_ret env);
   Kzalloc (kzalloc_ret env)]
  ++ match kzalloc_ret env with
     | None => []
     | Some _ => [Register_chrdev (register_chrdev_ret env)]
     end.

(** Examples: everything succeeds and nothing answers the commands. *)
Definition frame0 : frame := mk_frame 3%nat 4%nat 5%nat 6%nat 7%nat.

Definition env_ok : init_env :=
  mk_init_env true true true true 0 0 0 (Some 2%nat) 0 frame0
              (fun _ => silence false).

(** The interrupt line cannot be had. *)
Definition env_no_irq : init_env :=
  mk_init_env true true true true (- EBUSY) 0 0 (Some 2%nat) 0 frame0
              (fun _ => silence false).

Definition driver0 : driver := mk_driver g_not_ready [] false.

(** The driver an outcome leaves. *)
Definition outcome_driver {A : Type} (o : outcome A) : driver :=
  match o with
  | Done _ d => d
  | Stuck d => d
  end.

End IccInit.

(** ** The ioctl's use of the user's lengths *)

Module IoctlFacts.

Import Icc.







End IoctlFacts.

(** * Properties *)

(** ** Byte buffers *)

Lemma store_byte_length (b : list Z) (i : nat) (v : Z) :
  length (store_byte b i v) = length b.
Proof.
  revert i; induction b as [|x b IH]; intros [|i]; simpl; auto.
Qed.

Lemma store_byte_app_r (l1 l2 : list Z) (j : nat) (v : Z) :
  store_byte (l1 ++ l2) (length l1 + j) v = l1 ++ store_byte l2 j v.
Proof.
  induction l1 as [|x l1 IH]; simpl; [reflexivity|].
  now rewrite IH.
Qed.

Lemma load_byte_app_r (l1 l2 : list Z) (j : nat) :
  load_byte (l1 ++ l2) (length l1 + j) = load_byte l2 j.
Proof.
  unfold load_byte. apply app_nth2_plus.
Qed.

Lemma to_u8_small (x : Z) : 0 <= x < 256 -> to_u8 x = x.
Proof. intros H. unfold to_u8. apply Z.mod_small. lia. Qed.

Lemma to_u8_succ (n : Z) : to_u8 (to_u8 n + 1) = to_u8 (n + 1).
Proof.
  unfold to_u8. now rewrite Zplus_mod_idemp_l.
Qed.

(** ** The command queue holds the coalesced groups *)

Section CqInvariant.

Import Bridge BridgeSpec.

Lemma wire_closed_length (g : group) :
  length (wire_closed g) = group_size g.
Proof. reflexivity. Qed.

Lemma wire_open_length (g : group) :
  length (wire_open g) = group_size g.
Proof. reflexivity. Qed.

Lemma wire_groups_app (l1 l2 : list group) :
  wire_groups (l1 ++ l2) = wire_groups l1 ++ wire_groups l2.
Proof.
  unfold wire_groups. now rewrite map_app, concat_app.
Qed.

Lemma wire_groups_snoc (l : list group) (g : group) :
  wire_groups (l ++ [g]) = wire_groups l ++ wire_closed g.
Proof.
  rewrite wire_groups_app. unfold wire_groups at 2. simpl.
  now rewrite app_nil_r.
Qed.

Lemma total_size_cons (g : group) (l : list group) :
  total_size (g :: l) = (group_size g + total_size l)%nat.
Proof. reflexivity. Qed.

Lemma total_size_app (l1 l2 : list group) :
  total_size (l1 ++ l2) = (total_size l1 + total_size l2)%nat.
Proof.
  unfold total_size. now rewrite map_app, list_sum_app.
Qed.

Lemma total_size_rev (l : list group) :
  total_size (rev l) = total_size l.
Proof.
  induction l as [|g l IH]; [reflexivity|].
  simpl rev. rewrite total_size_app, IH, !total_size_cons.
  change (total_size []) with 0%nat. lia.
Qed.

Lemma wire_groups_length (l : list group) :
  length (wire_groups l) = total_size l.
Proof.
  induction l as [|g l IH]; [reflexivity|].
  change (wire_groups (g :: l)) with (wire_closed g ++ wire_groups l).
  rewrite length_app, IH, wire_closed_length. reflexivity.
Qed.

Lemma cq_inv_p (q : i2c_cmdqueue) (gs : list group) :
  cq_inv q gs -> p q = total_size gs.
Proof.
  intros (_ & _ & H). destruct gs as [|g rest].
  - now destruct H.
  - destruct H as (_ & tail & _ & Hp). rewrite Hp.
    rewrite length_app, wire_groups_length, total_size_rev, wire_open_length.
    rewrite total_size_cons. lia.
Qed.

Lemma cq_init_inv (q : i2c_cmdqueue) (code : Z) :
  length (req_cmdbuf q) = CMDBUF_SIZE -> cq_inv (cq_init q code) [].
Proof.
  intros H. repeat split; assumption.
Qed.

Lemma put_inv (q : i2c_cmdqueue) (g : group) (rest : list group) (v : Z) :
  cq_inv q (g :: rest) ->
  (total_size (g :: rest) < CMDBUF_SIZE)%nat ->
  cq_inv (put q v) (append_bytes (g :: rest) [to_u8 v]).
Proof.
  intros Hinv Hfit. pose proof (cq_inv_p _ _ Hinv) as Hp0.
  destruct Hinv as (Hlen & Hcnt & Hcmd & tail & Hbuf & Hp).
  assert (Htail : exists t tail', tail = t :: tail').
  { destruct tail as [|t tail']; [|eauto].
    exfalso. rewrite Hbuf, app_nil_r, <- Hp, Hp0 in Hlen. lia. }
  destruct Htail as (t & tail' & ->).
  unfold put, cq_inv; simpl.
  rewrite store_byte_length. repeat split; try assumption.
  exists tail'. split.
  - rewrite Hbuf, Hp.
    replace (length (wire_groups (rev rest) ++ wire_open g))
      with (length (wire_groups (rev rest) ++ wire_open g) + 0)%nat by lia.
    rewrite app_assoc, store_byte_app_r. simpl.
    unfold wire_open; simpl. rewrite <- !app_assoc. reflexivity.
  - rewrite Hp. unfold wire_open; simpl.
    rewrite !length_app; simpl. rewrite !length_app; simpl. lia.
Qed.

Lemma same_cmd_inv (q : i2c_cmdqueue) (g : group) (rest : list group)
  (ma mi : Z) :
  cq_inv q (g :: rest) ->
  same_cmd q ma mi = (g_major g =? ma) && (g_minor g =? mi).
Proof.
  intros (_ & _ & Hcmd & tail & Hbuf & _).
  unfold same_cmd. rewrite Hcmd, Hbuf, !load_byte_app_r. reflexivity.
Qed.

Lemma cq_cmd_inv (q : i2c_cmdqueue) (gs : list group) (ma mi : Z) :
  cq_inv q gs ->
  to_u8 ma = ma -> to_u8 mi = mi ->
  (total_size (open_or_join gs (ma, mi)) <= CMDBUF_SIZE)%nat ->
  cq_inv (cq_cmd q ma mi) (open_or_join gs (ma, mi)).
Proof.
  intros Hinv Hma Hmi Hfit. unfold cq_cmd. rewrite Hma, Hmi.
  pose proof (cq_inv_p _ _ Hinv) as Hp0.
  destruct gs as [|g rest].
  - (* no group open *)
    destruct Hinv as (Hlen & Hcnt & Hcmd & Hp).
    unfold same_cmd, close_group. rewrite Hcmd. cbn [negb].
    rewrite Hp. cbn [open_or_join].
    destruct (req_cmdbuf q) as [|b0 [|b1 [|b2 [|b3 tail]]]] eqn:Hbuf;
      try (exfalso; simpl in Hlen; unfold CMDBUF_SIZE in Hlen; lia).
    unfold cq_inv; cbn. repeat split.
    + exact Hlen.
    + rewrite Hcnt. apply to_u8_succ.
    + exists tail. split; reflexivity.
  - rewrite (same_cmd_inv _ _ _ _ _ Hinv). cbn [open_or_join] in *.
    destruct Hinv as (Hlen & Hcnt & Hcmd & tail & Hbuf & Hp).
    destruct ((g_major g =? ma) && (g_minor g =? mi)) eqn:Hsame; cbn [negb].
    + (* the open group has this opcode: one more repetition *)
      apply andb_prop in Hsame. destruct Hsame as [Ha Hi].
      apply Z.eqb_eq in Ha, Hi. rewrite Hcmd.
      unfold cq_inv, set_cmdbuf; cbn [req_cmdbuf req_count cmd p].
      rewrite store_byte_length. repeat split; try assumption.
      exists tail. split; [|rewrite Hp, !length_app; reflexivity].
      rewrite Hbuf, store_byte_app_r, load_byte_app_r.
      unfold wire_open; cbn. rewrite Ha, Hi. do 5 f_equal.
      rewrite to_u8_succ. f_equal. lia.
    + (* another opcode: close the group, open a new one *)
      assert (Hclose : req_cmdbuf (close_group q)
                       = wire_groups (rev (g :: rest)) ++ tail).
      { unfold close_group. rewrite Hcmd. cbn [set_cmdbuf req_cmdbuf].
        rewrite Hbuf, store_byte_app_r. cbn [rev].
        rewrite wire_groups_snoc, <- app_assoc. f_equal.
        rewrite Hp, length_app, wire_open_length.
        replace (length (wire_groups (rev rest)) + group_size g
                 - length (wire_groups (rev rest)))%nat
          with (group_size g) by lia.
        reflexivity. }
      assert (Hpc : p (close_group q) = length (wire_groups (rev (g :: rest)))).
      { unfold close_group. rewrite Hcmd. cbn [set_cmdbuf p]. rewrite Hp.
        cbn [rev]. rewrite wire_groups_snoc, !length_app. reflexivity. }
      assert (Hlc : length (req_cmdbuf (close_group q)) = CMDBUF_SIZE).
      { unfold close_group. rewrite Hcmd. cbn [set_cmdbuf req_cmdbuf].
        now rewrite store_byte_length. }
      assert (Hcc : req_count (close_group q) = req_count q).
      { unfold close_group. now rewrite Hcmd. }
      assert (Htail : exists t0 t1 t2 t3 tail', tail = t0 :: t1 :: t2 :: t3 :: tail').
      { rewrite Hclose, length_app, wire_groups_length, total_size_rev in Hlc.
        rewrite !total_size_cons in Hfit. unfold group_size at 1 in Hfit.
        cbn [g_body length] in Hfit. rewrite total_size_cons in Hlc.
        unfold CMD_HDR_SIZE in Hfit.
        destruct tail as [|t0 [|t1 [|t2 [|t3 tail']]]]; cbn [length] in Hlc;
          try lia. eauto 6. }
      destruct Htail as (t0 & t1 & t2 & t3 & tail' & ->).
      unfold cq_inv. cbn [req_cmdbuf req_count cmd p].
      rewrite !store_byte_length, Hcc, Hpc, Hclose. repeat split.
      * rewrite <- Hlc, Hclose. reflexivity.
      * rewrite Hcnt. cbn [length]. rewrite to_u8_succ. f_equal. lia.
      * exists tail'. split.
        -- unfold OFF_MAJOR, OFF_MINOR, OFF_LENGTH, OFF_COUNT.
           rewrite !store_byte_app_r. reflexivity.
        -- rewrite length_app. reflexivity.
Qed.

Lemma add_op_split (gs : list group) (op : cq_op) :
  add_op gs op = append_bytes (open_or_join gs (opcode op)) (operands op).
Proof.
  unfold add_op, open_or_join. destruct (opcode op) as [ma mi].
  destruct gs as [|g rest]; [reflexivity|].
  destruct ((g_major g =? ma) && (g_minor g =? mi)); reflexivity.
Qed.

Lemma open_or_join_cons (gs : list group) (mm : Z * Z) :
  exists g rest, open_or_join gs mm = g :: rest.
Proof.
  unfold open_or_join. destruct mm as [ma mi]. destruct gs as [|g rest]; eauto.
  destruct ((g_major g =? ma) && (g_minor g =? mi)); eauto.
Qed.

Lemma total_size_append_bytes (g : group) (rest : list group) (bs : list Z) :
  total_size (append_bytes (g :: rest) bs)
  = (total_size (g :: rest) + length bs)%nat.
Proof.
  cbn [append_bytes]. rewrite !total_size_cons. unfold group_size.
  cbn [g_body]. rewrite length_app. lia.
Qed.

Lemma puts_inv (vs : list Z) :
  forall (q : i2c_cmdqueue) (g : group) (rest : list group),
  cq_inv q (g :: rest) ->
  (total_size (g :: rest) + length vs <= CMDBUF_SIZE)%nat ->
  cq_inv (fold_left put vs q) (append_bytes (g :: rest) (map to_u8 vs)).
Proof.
  induction vs as [|v vs IH]; intros q g rest Hinv Hfit.
  - cbn. rewrite app_nil_r. now destruct g.
  - cbn [fold_left map length] in *.
    assert (H1 : cq_inv (put q v) (append_bytes (g :: rest) [to_u8 v])).
    { apply put_inv; [assumption | lia]. }
    cbn [append_bytes] in H1. apply IH in H1.
    + cbn [append_bytes g_major g_minor g_count g_body] in *.
      now rewrite <- app_assoc in H1.
    + pose proof (total_size_append_bytes g rest [to_u8 v]) as E.
      cbn [append_bytes length] in E. rewrite E. lia.
Qed.

Lemma cq_emit_puts (q : i2c_cmdqueue) (op : cq_op) :
  exists vs,
    cq_emit q op = fold_left put vs (cq_cmd q (fst (opcode op)) (snd (opcode op)))
    /\ operands op = map to_u8 vs.
Proof.
  destruct op; cbn [cq_emit opcode];
    [ exists [count; Z.shiftr (to_u16 addr) 8; Z.land (to_u16 addr) 0xff; 0]
    | exists [1; Z.shiftr (to_u16 addr) 8; Z.land (to_u16 addr) 0xff; data]
    | exists [1; Z.shiftr (to_u16 addr) 8; Z.land (to_u16 addr) 0xff; value; mask]
    | exists [0; Z.land (to_u16 time) 0xff; Z.shiftr (to_u16 time) 8; 0]
    | exists [0; Z.shiftr (to_u16 addr) 8; Z.land (to_u16 addr) 0xff; mask]
    | exists [0; Z.shiftr (to_u16 addr) 8; Z.land (to_u16 addr) 0xff; mask] ];
    split; reflexivity.
Qed.

Lemma opcode_bytes (op : cq_op) :
  to_u8 (fst (opcode op)) = fst (opcode op) /\
  to_u8 (snd (opcode op)) = snd (opcode op).
Proof. destruct op; split; reflexivity. Qed.

Lemma cq_emit_inv (q : i2c_cmdqueue) (gs : list group) (op : cq_op) :
  cq_inv q gs ->
  (total_size (add_op gs op) <= CMDBUF_SIZE)%nat ->
  cq_inv (cq_emit q op) (add_op gs op).
Proof.
  intros Hinv Hfit. rewrite add_op_split in *.
  destruct (cq_emit_puts q op) as (vs & -> & Hops).
  destruct (opcode_bytes op) as [Hma Hmi].
  destruct (open_or_join_cons gs (opcode op)) as (g & rest & Hg).
  rewrite Hops, Hg in *. rewrite total_size_append_bytes, length_map in Hfit.
  apply puts_inv; [|exact Hfit].
  rewrite <- Hg. rewrite (surjective_pairing (opcode op)).
  apply cq_cmd_inv; try assumption.
  rewrite <- surjective_pairing, Hg. lia.
Qed.

Lemma total_size_add_op (gs : list group) (op : cq_op) :
  (total_size gs <= total_size (add_op gs op))%nat.
Proof.
  unfold add_op. destruct (opcode op) as [ma mi].
  destruct gs as [|g rest].
  - cbn. lia.
  - destruct ((g_major g =? ma) && (g_minor g =? mi));
      rewrite !total_size_cons; unfold group_size; cbn [g_body];
      try rewrite length_app; lia.
Qed.

Lemma total_size_fold_add_op (ops : list cq_op) :
  forall gs, (total_size gs <= total_size (fold_left add_op ops gs))%nat.
Proof.
  induction ops as [|op ops IH]; intros gs; cbn [fold_left]; [lia|].
  pose proof (total_size_add_op gs op). pose proof (IH (add_op gs op)). lia.
Qed.

Lemma cq_run_inv (ops : list cq_op) :
  forall (q : i2c_cmdqueue) (gs : list group),
  cq_inv q gs ->
  (total_size (fold_left add_op ops gs) <= CMDBUF_SIZE)%nat ->
  cq_inv (fold_left cq_emit ops q) (fold_left add_op ops gs).
Proof.
  induction ops as [|op ops IH]; intros q gs Hinv Hfit; cbn [fold_left] in *.
  - assumption.
  - apply IH; [|assumption]. apply cq_emit_inv; [assumption|].
    pose proof (total_size_fold_add_op ops (add_op gs op)). lia.
Qed.

Lemma firstn_length_app (l tail : list Z) :
  firstn (length l) (l ++ tail) = l.
Proof.
  rewrite firstn_app, Nat.sub_diag, firstn_all. cbn. apply app_nil_r.
Qed.

Lemma close_group_inv (q : i2c_cmdqueue) (gs : list group) :
  cq_inv q gs ->
  let q' := close_group q in
  firstn (p q') (req_cmdbuf q') = wire_groups (rev gs) /\
  req_count q' = to_u8 (Z.of_nat (length gs)) /\
  p q' = total_size gs.
Proof.
  intros Hinv. pose proof (cq_inv_p _ _ Hinv) as Hp0.
  destruct Hinv as (Hlen & Hcnt & H). unfold close_group.
  destruct gs as [|g rest].
  - destruct H as [Hcmd Hp]. rewrite Hcmd. cbn. rewrite Hp. cbn. auto.
  - destruct H as (Hcmd & tail & Hbuf & Hp). rewrite Hcmd.
    cbn [set_cmdbuf req_cmdbuf p req_count]. repeat split; try assumption.
    rewrite Hbuf, store_byte_app_r, Hp. cbn [rev].
    rewrite wire_groups_snoc.
    replace (wire_groups (rev rest) ++
             store_byte (wire_open g ++ tail) OFF_LENGTH
               (to_u8 (Z.of_nat
                  (length (wire_groups (rev rest) ++ wire_open g)
                   - length (wire_groups (rev rest))))))
      with ((wire_groups (rev rest) ++ wire_closed g) ++ tail).
    + replace (length (wire_groups (rev rest) ++ wire_open g))
        with (length (wire_groups (rev rest) ++ wire_closed g))
        by (rewrite !length_app; reflexivity).
      apply firstn_length_app.
    + rewrite <- app_assoc. f_equal. rewrite length_app, wire_open_length.
      replace (length (wire_groups (rev rest)) + group_size g
               - length (wire_groups (rev rest)))%nat
        with (group_size g) by lia.
      reflexivity.
Qed.

(** Every group of a batch holds at least one operation, and each
    operation brings at least four operand bytes. *)
Lemma operands_length (op : cq_op) : (4 <= length (operands op))%nat.
Proof. destruct op; cbn; lia. Qed.

Lemma add_op_ok (gs : list group) (op : cq_op) :
  Forall (fun g => (1 <= g_count g /\ 4 * g_count g <= length (g_body g))%nat) gs ->
  Forall (fun g => (1 <= g_count g /\ 4 * g_count g <= length (g_body g))%nat)
         (add_op gs op).
Proof.
  intros H. pose proof (operands_length op) as Hop.
  unfold add_op. destruct (opcode op) as [ma mi].
  destruct gs as [|g rest].
  - constructor; [cbn; lia | constructor].
  - destruct ((g_major g =? ma) && (g_minor g =? mi)).
    + inversion H as [|? ? [H1 H2] Hrest]; subst.
      constructor; [|assumption]. cbn [g_count g_body].
      rewrite length_app. lia.
    + constructor; [cbn; lia | assumption].
Qed.

Lemma fold_add_op_ok (ops : list cq_op) :
  forall gs,
  Forall (fun g => (1 <= g_count g /\ 4 * g_count g <= length (g_body g))%nat) gs ->
  Forall (fun g => (1 <= g_count g /\ 4 * g_count g <= length (g_body g))%nat)
         (fold_left add_op ops gs).
Proof.
  induction ops as [|op ops IH]; intros gs H; cbn [fold_left]; [assumption|].
  apply IH, add_op_ok, H.
Qed.

Lemma groups_number (gs : list group) :
  Forall (fun g => (1 <= g_count g /\ 4 * g_count g <= length (g_body g))%nat) gs ->
  (8 * length gs <= total_size gs)%nat.
Proof.
  induction 1 as [|g gs [H1 H2] _ IH]; [cbn; lia|].
  rewrite total_size_cons. unfold group_size, CMD_HDR_SIZE. cbn [length]. lia.
Qed.

Lemma encode_groups_length (gs : list group) :
  length (encode_groups gs) = total_size gs.
Proof.
  induction gs as [|g gs IH]; [reflexivity|].
  change (encode_groups (g :: gs)) with (encode_group g ++ encode_groups gs).
  rewrite length_app, IH, total_size_cons. reflexivity.
Qed.

Lemma wire_groups_encode (gs : list group) :
  Forall (fun g => (group_size g <= 255)%nat) gs ->
  Forall (fun g => (1 <= g_count g /\ 4 * g_count g <= length (g_body g))%nat) gs ->
  wire_groups gs = encode_groups gs.
Proof.
  induction 1 as [|g gs Hg _ IH]; intros Hok; [reflexivity|].
  inversion Hok as [|? ? [H1 H2] Hrest]; subst.
  change (wire_groups (g :: gs)) with (wire_closed g ++ wire_groups gs).
  change (encode_groups (g :: gs)) with (encode_group g ++ encode_groups gs).
  rewrite (IH Hrest). f_equal.
  unfold wire_closed, encode_group. unfold group_size in *.
  unfold CMD_HDR_SIZE in *.
  rewrite !to_u8_small by lia. reflexivity.
Qed.

(** C7 (as amended).  For every sequence of emitter calls whose encoding
    fits the request buffer and in which every group (4-byte header plus
    operand bytes) is at most 255 bytes long, the buffer the code has
    built when [cq_exec] closes the last group is the encoding of the
    coalesced groups: one group per run of equal opcode pairs, with the
    run length as its repeat count and the size of header and operands as
    its length; and the request's group count is the number of runs. *)
Theorem cq_batch_coalesces (q0 : i2c_cmdqueue) (code : Z) (ops : list cq_op) :
  length (req_cmdbuf q0) = CMDBUF_SIZE ->
  (length (encode_groups (spec_coalesce ops)) <= CMDBUF_SIZE)%nat ->
  Forall (fun g => (group_size g <= 255)%nat) (spec_coalesce ops) ->
  firstn (p (close_group (cq_batch q0 code ops)))
         (req_cmdbuf (close_group (cq_batch q0 code ops)))
    = encode_groups (spec_coalesce ops) /\
  req_count (close_group (cq_batch q0 code ops))
    = Z.of_nat (length (spec_coalesce ops)).
Proof.
  intros Hlen Hfit Hsmall. unfold spec_coalesce in *.
  set (gs := fold_left add_op ops []) in *.
  rewrite encode_groups_length, total_size_rev in Hfit.
  assert (Hok : Forall (fun g => (1 <= g_count g
                                  /\ 4 * g_count g <= length (g_body g))%nat) gs).
  { apply fold_add_op_ok. constructor. }
  assert (Hinv : cq_inv (cq_batch q0 code ops) gs).
  { unfold cq_batch. apply cq_run_inv; [apply cq_init_inv, Hlen | exact Hfit]. }
  destruct (close_group_inv _ _ Hinv) as (Hbuf & Hcnt & _).
  split.
  - rewrite Hbuf. apply wire_groups_encode; [assumption|].
    apply Forall_rev, Hok.
  - rewrite Hcnt, length_rev. apply to_u8_small.
    pose proof (groups_number _ Hok). unfold CMDBUF_SIZE in Hfit. lia.
Qed.

Lemma cq_batch_coalesces_witness :
  length (req_cmdbuf cq_zero) = CMDBUF_SIZE /\
  (length (encode_groups (spec_coalesce three_writes)) <= CMDBUF_SIZE)%nat /\
  Forall (fun g => (group_size g <= 255)%nat) (spec_coalesce three_writes) /\
  firstn (p (close_group (cq_batch cq_zero 4 three_writes)))
         (req_cmdbuf (close_group (cq_batch cq_zero 4 three_writes)))
    = encode_groups (spec_coalesce three_writes) /\
  req_count (close_group (cq_batch cq_zero 4 three_writes))
    = Z.of_nat (length (spec_coalesce three_writes)).
Proof.
  assert (H1 : length (req_cmdbuf cq_zero) = CMDBUF_SIZE) by reflexivity.
  assert (H2 : (length (encode_groups (spec_coalesce three_writes))
                <= CMDBUF_SIZE)%nat) by (vm_compute; lia).
  assert (H3 : Forall (fun g => (group_size g <= 255)%nat)
                      (spec_coalesce three_writes))
    by (repeat constructor; vm_compute; lia).
  exact (conj H1 (conj H2 (conj H3
           (cq_batch_coalesces cq_zero 4 three_writes H1 H2 H3)))).
Defined.

(** Three consecutive [cq_writereg] calls: one group, repeat count 3,
    length 16. *)
Example three_writes_one_group :
  spec_coalesce three_writes
    = [mk_group 2 2 3 [1; 0x70; 0x05; 1; 1; 0x70; 0x06; 2; 1; 0x70; 0x40; 3]] /\
  decode_groups 8 (firstn (p (close_group (cq_batch cq_zero 4 three_writes)))
                     (req_cmdbuf (close_group (cq_batch cq_zero 4 three_writes))))
    = [(2, 2, 16, 3)] /\
  req_count (cq_batch cq_zero 4 three_writes) = 1.
Proof. vm_compute. auto. Qed.

(** Write, read, write: three groups of one operation each. *)
Example write_read_write_three_groups :
  decode_groups 8 (firstn (p (close_group (cq_batch cq_zero 4 write_read_write)))
                     (req_cmdbuf (close_group (cq_batch cq_zero 4 write_read_write))))
    = [(2, 2, 8, 1); (1, 1, 8, 1); (2, 2, 8, 1)] /\
  req_count (cq_batch cq_zero 4 write_read_write) = 3.
Proof. vm_compute. auto. Qed.

(** C7, counterexample.  Sixty-four consecutive [cq_writereg] calls fit the
    buffer (260 bytes) and are coalesced into one group, but the length
    field of its header is a byte: it holds 4, not 260, and so does not
    cover the 256 operand bytes. *)
Lemma cq_long_run_length_wraps :
  req_count (close_group (cq_batch cq_zero 4 long_run)) = 1 /\
  cmd (close_group (cq_batch cq_zero 4 long_run)) = Some 0%nat /\
  p (close_group (cq_batch cq_zero 4 long_run)) = 260%nat /\
  load_byte (req_cmdbuf (close_group (cq_batch cq_zero 4 long_run))) OFF_COUNT
    = 64 /\
  load_byte (req_cmdbuf (close_group (cq_batch cq_zero 4 long_run))) OFF_LENGTH
    = 4 /\
  firstn (p (close_group (cq_batch cq_zero 4 long_run)))
         (req_cmdbuf (close_group (cq_batch cq_zero 4 long_run)))
    <> encode_groups (spec_coalesce long_run).
Proof.
  repeat split; try (vm_compute; reflexivity).
  intros H. apply (f_equal (fun l => nth 1 l 0)) in H. vm_compute in H.
  discriminate.
Qed.

End CqInvariant.

(** ** Executing a batch *)

Section CqExec.

Import Bridge.

(** C10.  Executing a batch in which no emitter was called since
    [cq_init] returns 0 at once and the transport is not called. *)
Theorem cq_exec_empty (icc : transport) (q0 : i2c_cmdqueue) (code : Z) :
  cq_exec icc (cq_init q0 code) = (0, cq_init q0 code, []).
Proof. reflexivity. Qed.

Lemma cq_exec_no_group (icc : transport) (q : i2c_cmdqueue) :
  cmd q = None -> cq_exec icc q = (0, q, []).
Proof. intros H. unfold cq_exec. now rewrite H. Qed.

Lemma cq_seal_reply (q : i2c_cmdqueue) : reply (cq_seal q) = reply q.
Proof. unfold cq_seal, close_group. now destruct (cmd q). Qed.

(** C8 (as amended).  With a group open, [cq_exec] makes one transport
    call.  It returns [-EIO] when the call returned less than 5, and the
    same [-EIO] when the call returned at least 5 and one of the two
    status bytes of the reply is nonzero; the two failures differ in the
    line they log, not in the value returned.  Otherwise it returns what
    the transport returned. *)
Theorem cq_exec_result (icc : transport) (q : i2c_cmdqueue) (c : nat) :
  cmd q = Some c ->
  let res := fst (icc (req_bytes (cq_seal q)) (reply q)) in
  let rep := snd (icc (req_bytes (cq_seal q)) (reply q)) in
  let call := Icc_cmd (mk_call 0x10 0 (req_bytes (cq_seal q)) REPLY_SIZE) in
  (res < 5 ->
   cq_exec icc q
   = (- EIO, set_reply (cq_seal q) rep,
      [call; Drm_error "icc i2c commandqueue failed: %d"])) /\
  (5 <= res -> load_byte rep 0 <> 0 \/ load_byte rep 1 <> 0 ->
   cq_exec icc q
   = (- EIO, set_reply (cq_seal q) rep,
      [call; Drm_error "icc i2c commandqueue failed: %d, %d"])) /\
  (5 <= res -> load_byte rep 0 = 0 -> load_byte rep 1 = 0 ->
   cq_exec icc q = (res, set_reply (cq_seal q) rep, [call])) /\
  (fst (fst (cq_exec icc q)) = - EIO
   <-> res < 5 \/ load_byte rep 0 <> 0 \/ load_byte rep 1 <> 0).
Proof.
  intros Hcmd res rep call. subst res rep call. unfold cq_exec. rewrite Hcmd.
  rewrite cq_seal_reply.
  destruct (icc (req_bytes (cq_seal q)) (reply q)) as [res rep].
  cbn [fst snd set_reply reply].
  destruct (Z.ltb_spec res 5) as [Hlt|Hge].
  - cbn [fst]. repeat split; intros; try lia; auto.
  - destruct (Z.eqb_spec (load_byte rep 0) 0) as [H0|H0];
      destruct (Z.eqb_spec (load_byte rep 1) 0) as [H1|H1];
      cbn [negb orb fst]; unfold EIO;
      (split; [intros; lia|]);
      (split; [intros _ [H|H]; try contradiction; reflexivity|]);
      (split; [intros; try contradiction; reflexivity|]);
      (split; [intros; try lia; tauto | intros [H|[H|H]];
                                          try lia; try contradiction;
                                          reflexivity]).
Qed.

Lemma cq_exec_result_witness :
  cmd (cq_batch cq_zero 4 [Op_read 0x7008 1]) = Some 0%nat /\
  fst (fst (cq_exec icc_rejected (cq_batch cq_zero 4 [Op_read 0x7008 1])))
    = - EIO.
Proof.
  split; [reflexivity|].
  destruct (cq_exec_result icc_rejected (cq_batch cq_zero 4 [Op_read 0x7008 1])
              0%nat eq_refl) as (_ & _ & _ & H).
  apply H. right. left. vm_compute. discriminate.
Defined.

(** C8, counterexample.  A reply that is long enough but reports a nonzero
    status and a reply that is too short yield the same error value: the
    rejection is not a distinct error. *)
Lemma cq_exec_errors_coincide :
  fst (fst (cq_exec icc_short (cq_batch cq_zero 4 [Op_read 0x7008 1]))) = - EIO /\
  fst (fst (cq_exec icc_rejected (cq_batch cq_zero 4 [Op_read 0x7008 1]))) = - EIO /\
  fst (fst (cq_exec icc_rejected (cq_batch cq_zero 4 [Op_read 0x7008 1])))
  = fst (fst (cq_exec icc_short (cq_batch cq_zero 4 [Op_read 0x7008 1]))).
Proof. vm_compute. auto. Qed.

(** The scenario of the specification: one read of TMONREG, the device
    answers with status zero and the data byte 8. *)
Example read_tmonreg :
  fst (fst (cq_exec (fun _ rep => (9, overwrite [0; 0; 0; 0; 1; 0; 0; 0; 8] rep))
                    (cq_batch cq_zero 4 [Op_read 0x7008 1]))) = 9 /\
  load_byte
    (reply (snd (fst (cq_exec
                        (fun _ rep => (9, overwrite [0; 0; 0; 0; 1; 0; 0; 0; 8] rep))
                        (cq_batch cq_zero 4 [Op_read 0x7008 1]))))) 8 = 8.
Proof. vm_compute. auto. Qed.

End CqExec.

(** ** The checksum *)

Section Checksum.

Import Icc.

Lemma to_u16_idem (x : Z) : to_u16 (to_u16 x) = to_u16 x.
Proof. unfold to_u16. apply Z.mod_mod. lia. Qed.

Lemma to_u16_add_l (x y : Z) : to_u16 (to_u16 x + y) = to_u16 (x + y).
Proof. unfold to_u16. apply Zplus_mod_idemp_l. Qed.

Lemma to_u16_add_r (x y : Z) : to_u16 (x + to_u16 y) = to_u16 (x + y).
Proof. unfold to_u16. apply Zplus_mod_idemp_r. Qed.

Lemma to_u16_sub_r (x y : Z) : to_u16 (x - to_u16 y) = to_u16 (x - y).
Proof. unfold to_u16. apply Zminus_mod_idemp_r. Qed.

Lemma to_u16_sub_l (x y : Z) : to_u16 (to_u16 x - y) = to_u16 (x - y).
Proof. unfold to_u16. apply Zminus_mod_idemp_l. Qed.

Lemma to_u16_range (x : Z) : 0 <= to_u16 x < 2 ^ 16.
Proof. unfold to_u16. apply Z.mod_pos_bound. lia. Qed.

Lemma to_u16_small (x : Z) : 0 <= x < 2 ^ 16 -> to_u16 x = x.
Proof. intros H. unfold to_u16. now apply Z.mod_small. Qed.

Lemma sum_bytes_app (p q : list Z) :
  sum_bytes (p ++ q) = sum_bytes p + sum_bytes q.
Proof.
  induction p as [|b p IH]; [reflexivity|].
  change (sum_bytes ((b :: p) ++ q)) with (b + sum_bytes (p ++ q)).
  change (sum_bytes (b :: p)) with (b + sum_bytes p).
  rewrite IH. lia.
Qed.

Lemma sum_bytes_perm (p q : list Z) :
  Permutation p q -> sum_bytes p = sum_bytes q.
Proof.
  induction 1 as [|x l l' _ IH|x y l|l l' l'' _ IH1 _ IH2].
  - reflexivity.
  - change (x + sum_bytes l = x + sum_bytes l'). lia.
  - change (y + (x + sum_bytes l) = x + (y + sum_bytes l)). lia.
  - lia.
Qed.

Lemma sum_bytes_zeros (n : nat) : sum_bytes (repeat 0 n) = 0.
Proof.
  induction n as [|n IH]; [reflexivity|].
  change (0 + sum_bytes (repeat 0 n) = 0). lia.
Qed.

Lemma checksum_loop_sum (p : list Z) :
  forall s, checksum_loop p (to_u16 s) = to_u16 (s + sum_bytes p).
Proof.
  induction p as [|b p IH]; intros s; cbn [checksum_loop].
  - change (sum_bytes []) with 0. now rewrite Z.add_0_r.
  - rewrite to_u16_add_l, IH. f_equal.
    change (sum_bytes (b :: p)) with (b + sum_bytes p). lia.
Qed.

Lemma checksum_sum (p : list Z) : checksum p = to_u16 (sum_bytes p).
Proof.
  unfold checksum. change 0 with (to_u16 0) at 1.
  now rewrite checksum_loop_sum.
Qed.

Lemma checksum_app (p q : list Z) :
  checksum (p ++ q) = to_u16 (checksum p + checksum q).
Proof.
  rewrite !checksum_sum, sum_bytes_app, to_u16_add_l, to_u16_add_r.
  reflexivity.
Qed.

Lemma request_hdr_zeroed (cfg : icc_config) (sc : apcie_dev)
  (major minor length : Z) (payload : list Z) :
  Hdr.set_checksum (request_hdr cfg sc major minor length payload) 0
  = request_hdr0 cfg sc major minor length.
Proof.
  unfold request_hdr, request_hdr0.
  destruct (Hdr.length _ <? ICC_MIN_SIZE cfg); reflexivity.
Qed.

Lemma request_padding_zeros (cfg : icc_config) (length : Z) :
  sum_bytes (request_padding cfg length) = 0.
Proof.
  unfold request_padding. destruct (length <? ICC_MIN_PAYLOAD cfg).
  - apply sum_bytes_zeros.
  - reflexivity.
Qed.

Lemma zero_checksum_field_frame (h : Hdr.t) (rest : list Z) :
  zero_checksum_field (hdr_bytes h ++ rest)
  = hdr_bytes (Hdr.set_checksum h 0) ++ rest.
Proof. reflexivity. Qed.

Lemma le16_lo_hi (x : Z) : 0 <= x < 2 ^ 16 -> le16 (lo8 x) (hi8 x) = x.
Proof.
  intros H. unfold le16, lo8, hi8, to_u8. change (2 ^ 8) with 256.
  rewrite !Z.mod_mod by lia.
  rewrite (Z.mod_small (x / 256)).
  - pose proof (Z.div_mod x 256). lia.
  - split; [apply Z.div_pos; lia | apply Z.div_lt_upper_bound; lia].
Qed.

Lemma hdr_roundtrip (h : Hdr.t) (rest : list Z) :
  Hdr.wf h -> hdr_of_bytes (hdr_bytes h ++ rest) = h.
Proof.
  intros (Hm & Hj & Hn & Hu & Hc & Hl & Hs). destruct h; cbn in *.
  unfold hdr_of_bytes; cbn [nth hdr_bytes app].
  rewrite !le16_lo_hi by assumption.
  unfold to_u8. rewrite !Z.mod_mod by lia. rewrite !Z.mod_small by lia.
  reflexivity.
Qed.

(** C3.  The checksum of a byte sequence is the sum of its bytes modulo
    2^16; it does not depend on the order of the bytes, is additive over
    concatenation, and is unchanged by zero padding.  The checksum field
    of the request that [_apcie_icc_cmd] transmits, computed from the
    header (checksum field zero) and the unpadded payload, is the byte sum
    modulo 2^16 of the transmitted, padded frame with its checksum field
    taken as zero. *)
Theorem checksum_additive (cfg : icc_config) (sc : apcie_dev)
  (major minor length : Z) (payload p p' q : list Z) (n : nat) :
  Permutation p p' ->
  checksum p = to_u16 (sum_bytes p) /\
  checksum p = checksum p' /\
  checksum (p ++ q) = to_u16 (checksum p + checksum q) /\
  checksum (p ++ repeat 0 n) = checksum p /\
  Hdr.checksum (request_hdr cfg sc major minor length payload)
    = to_u16 (sum_bytes (zero_checksum_field
                           (request_frame cfg sc major minor length payload))) /\
  Hdr.checksum (request_hdr cfg sc major minor length payload)
    = checksum (zero_checksum_field
                  (request_frame cfg sc major minor length payload)) /\
  Hdr.checksum (hdr_of_bytes (request_frame cfg sc major minor length payload))
    = Hdr.checksum (request_hdr cfg sc major minor length payload).
Proof.
  intros Hperm.
  assert (Hfield :
    Hdr.checksum (request_hdr cfg sc major minor length payload)
    = to_u16 (sum_bytes (zero_checksum_field
                           (request_frame cfg sc major minor length payload)))).
  { unfold request_frame. rewrite zero_checksum_field_frame.
    rewrite request_hdr_zeroed, !sum_bytes_app, request_padding_zeros.
    unfold request_hdr. cbn [Hdr.set_checksum Hdr.checksum].
    rewrite !checksum_sum, to_u16_add_l, to_u16_add_r. f_equal. lia. }
  repeat split.
  - apply checksum_sum.
  - rewrite !checksum_sum. f_equal. now apply sum_bytes_perm.
  - apply checksum_app.
  - rewrite !checksum_sum, sum_bytes_app, sum_bytes_zeros. f_equal. lia.
  - exact Hfield.
  - rewrite checksum_sum. exact Hfield.
  - unfold request_frame. unfold hdr_of_bytes. cbn [nth hdr_bytes app].
    cbn [Hdr.checksum]. apply le16_lo_hi. rewrite Hfield. apply to_u16_range.
Qed.

Lemma checksum_additive_witness :
  Permutation [1; 2; 255] [255; 1; 2] /\
  checksum [1; 2; 255] = checksum [255; 1; 2].
Proof.
  assert (H : Permutation [1; 2; 255] [255; 1; 2]).
  { apply Permutation_sym. apply (Permutation_cons_app [1; 2] [] 255).
    apply Permutation_refl. }
  split; [exact H|].
  apply (checksum_additive sample_config
           (mk_dev (Hdr.mk 0 0 0 0 0 0 0) (Hdr.mk 0 0 0 0 0 0 0) false None 0 0
                   (mk_slot 1 0 []) (mk_slot 1 0 []) (fun _ => []) [])
           1 0 1 [16] [1; 2; 255] [255; 1; 2] [] 0 H).
Defined.

End Checksum.

(** ** The interrupt side *)

Section Reactor.

Import Icc.

Lemma skipn_app_length (l1 l2 : list Z) (n : nat) :
  skipn (length l1 + n) (l1 ++ l2) = skipn n l2.
Proof. induction l1 as [|x l1 IH]; [reflexivity | exact IH]. Qed.

Lemma firstn_app_le (l1 l2 : list Z) (n : nat) :
  (n <= length l1)%nat -> firstn n (l1 ++ l2) = firstn n l1.
Proof.
  intros H. rewrite firstn_app.
  replace (n - length l1)%nat with 0%nat by lia. cbn. apply app_nil_r.
Qed.

Lemma reply_slot_hdr (h : Hdr.t) (payload rest : list Z) :
  Hdr.wf h ->
  hdr_of_bytes (slot_bytes (reply_slot h payload rest) 0 ICC_HDR_SIZE) = h.
Proof.
  intros H. change (slot_bytes (reply_slot h payload rest) 0 ICC_HDR_SIZE)
    with (hdr_bytes h).
  rewrite <- (app_nil_r (hdr_bytes h)). now apply hdr_roundtrip.
Qed.

Lemma reply_slot_copy (h : Hdr.t) (payload rest : list Z) (n : Z) :
  0 <= n <= Z.of_nat (length payload) ->
  slot_bytes (reply_slot h payload rest) ICC_HDR_SIZE n
  = firstn (Z.to_nat n) payload.
Proof.
  intros H. unfold slot_bytes, reply_slot. cbn [buf_data].
  change (skipn (Z.to_nat ICC_HDR_SIZE) (hdr_bytes h ++ payload ++ rest))
    with (payload ++ rest).
  apply firstn_app_le. lia.
Qed.

Lemma reply_slot_extra (h : Hdr.t) (payload rest : list Z) (n : Z) :
  0 <= n <= Z.of_nat (length payload) ->
  slot_bytes (reply_slot h payload rest) (ICC_HDR_SIZE + n)
             (Z.of_nat (length payload) + ICC_HDR_SIZE - (ICC_HDR_SIZE + n))
  = skipn (Z.to_nat n) payload.
Proof.
  intros H. unfold slot_bytes, reply_slot. cbn [buf_data].
  replace (Z.to_nat (ICC_HDR_SIZE + n))
    with (length (hdr_bytes h) + Z.to_nat n)%nat
    by (change (length (hdr_bytes h)) with 12%nat; unfold ICC_HDR_SIZE; lia).
  rewrite skipn_app_length, skipn_app.
  replace (Z.to_nat n - length payload)%nat with 0%nat by lia.
  change (skipn 0 rest) with rest.
  replace (Z.to_nat (Z.of_nat (length payload) + ICC_HDR_SIZE
                     - (ICC_HDR_SIZE + n)))
    with (length (skipn (Z.to_nat n) payload))
    by (rewrite length_skipn; lia).
  rewrite firstn_app, Nat.sub_diag, firstn_all. cbn. apply app_nil_r.
Qed.

(** What [handle_message] does with the awaited reply. *)
Lemma handle_message_accept (cfg : icc_config) (sc : apcie_dev) (h : Hdr.t)
  (payload rest : list Z) :
  spm_reply sc = reply_slot h payload rest ->
  reply_pending sc = true ->
  0 <= reply_length sc ->
  awaited_reply cfg sc h payload ->
  handle_message cfg sc
  = emit (mk_dev (request sc) h false (reply_buffer sc)
            (Z.min (reply_length sc) (Hdr.length h - ICC_HDR_SIZE))
            (checksum
               (skipn (Z.to_nat (Z.min (reply_length sc)
                                       (Hdr.length h - ICC_HDR_SIZE)))
                      payload))
            (spm_request sc) (spm_reply sc)
            (memcpy_to (mem sc) (reply_buffer sc)
               (firstn (Z.to_nat (Z.min (reply_length sc)
                                        (Hdr.length h - ICC_HDR_SIZE)))
                       payload))
            (trace sc))
         Wake_up.
Proof.
  intros Hslot Hpend Hcap (Hwf & Hev & Hrep & Hmagic & Hcookie & Hlen & Hpay).
  unfold handle_message. rewrite Hslot.
  change (buf_empty (reply_slot h payload rest)) with 0.
  change (buf_full (reply_slot h payload rest)) with 1.
  cbv zeta. rewrite (reply_slot_hdr _ _ _ Hwf).
  change (negb (0 =? 0) || negb (1 =? 1)) with false. cbv iota.
  rewrite Hev. change (negb (0 =? 0)) with false. cbv iota.
  destruct (Z.eqb_spec (Z.land (Hdr.minor h) (ICC_REPLY cfg)) 0) as [E|_];
    [contradiction|]. cbn [negb].
  rewrite Hmagic, Z.eqb_refl, Hpend, Hcookie, Z.eqb_refl. cbn [negb].
  destruct (Z.ltb_spec (Hdr.length h) ICC_HDR_SIZE) as [E|_]; [lia|].
  destruct (Z.gtb_spec (Hdr.length h) (ICC_MAX_SIZE cfg)) as [E|_]; [lia|].
  cbn [orb].
  set (copy := Z.min (reply_length sc) (Hdr.length h - ICC_HDR_SIZE)).
  assert (Hcopy : 0 <= copy <= Z.of_nat (length payload)) by lia.
  rewrite (reply_slot_copy h payload rest copy Hcopy).
  replace (Hdr.length h - (ICC_HDR_SIZE + copy))
    with (Z.of_nat (length payload) + ICC_HDR_SIZE - (ICC_HDR_SIZE + copy))
    by lia.
  rewrite (reply_slot_extra h payload rest copy Hcopy).
  reflexivity.
Qed.

(** A frame whose cookie is not the outstanding request's leaves the
    mailbox as it was, whatever else the frame says, and wakes nobody. *)
Lemma handle_message_bad_cookie (cfg : icc_config) (sc : apcie_dev) :
  Hdr.cookie (inbound sc) <> Hdr.cookie (request sc) ->
  mailbox (handle_message cfg sc) = mailbox sc /\
  exists evs,
    trace (handle_message cfg sc) = trace sc ++ evs /\ ~ In Wake_up evs.
Proof.
  intros Hne. unfold inbound in Hne. unfold handle_message, handle_event.
  cbv zeta.
  destruct (Z.eqb_spec
              (Hdr.cookie (hdr_of_bytes (slot_bytes (spm_reply sc) 0 ICC_HDR_SIZE)))
              (Hdr.cookie (request sc))) as [E|_]; [contradiction|].
  cbn [negb].
  repeat match goal with
         | |- context [if ?c then _ else _] => destruct c
         end;
    (split; [reflexivity|]);
    unfold dump_message, sc_err, emit; cbn [trace];
    rewrite <- ?app_assoc; eexists; (split; [reflexivity|]);
    cbn; intuition discriminate.
Qed.

(** C2.  A frame in the reply half whose cookie differs from the cookie of
    the outstanding request is dropped by [handle_message]: the pending
    flag, the saved reply and the rest of the mailbox are as before and no
    waiter is woken.  The reply with the right cookie that comes next is
    taken: the pending flag is cleared, the reply saved and the waiter
    woken. *)
Theorem bad_cookie_reply_dropped (cfg : icc_config) (sc : apcie_dev)
  (h : Hdr.t) (payload rest : list Z) :
  Hdr.cookie (inbound sc) <> Hdr.cookie (request sc) ->
  reply_pending sc = true ->
  0 <= reply_length sc ->
  awaited_reply cfg sc h payload ->
  mailbox (handle_message cfg sc) = mailbox sc /\
  reply_pending (handle_message cfg sc) = true /\
  (exists evs,
     trace (handle_message cfg sc) = trace sc ++ evs /\ ~ In Wake_up evs) /\
  reply_pending
    (handle_message cfg
       (set_spm_reply (handle_message cfg sc) (reply_slot h payload rest)))
    = false /\
  reply
    (handle_message cfg
       (set_spm_reply (handle_message cfg sc) (reply_slot h payload rest)))
    = h /\
  trace
    (handle_message cfg
       (set_spm_reply (handle_message cfg sc) (reply_slot h payload rest)))
    = trace (handle_message cfg sc) ++ [Wake_up].
Proof.
  intros Hne Hpend Hcap Hgood.
  destruct (handle_message_bad_cookie cfg sc Hne) as [Hbox Hevs].
  set (sc1 := handle_message cfg sc) in *.
  assert (Hreq : request sc1 = request sc)
    by (apply (f_equal (fun m => fst (fst (fst (fst (fst (fst m))))))) in Hbox;
        exact Hbox).
  assert (Hp1 : reply_pending sc1 = reply_pending sc)
    by (apply (f_equal (fun m => snd (fst (fst (fst (fst m)))))) in Hbox;
        exact Hbox).
  assert (Hl1 : reply_length sc1 = reply_length sc)
    by (apply (f_equal (fun m => snd (fst (fst m)))) in Hbox; exact Hbox).
  pose proof (handle_message_accept cfg
                (set_spm_reply sc1 (reply_slot h payload rest))
                h payload rest eq_refl) as Hacc.
  assert (H1 : reply_pending (set_spm_reply sc1 (reply_slot h payload rest))
               = true) by (cbn [set_spm_reply reply_pending]; congruence).
  assert (H2 : 0 <= reply_length (set_spm_reply sc1 (reply_slot h payload rest)))
    by (cbn [set_spm_reply reply_length]; lia).
  assert (H3 : awaited_reply cfg (set_spm_reply sc1 (reply_slot h payload rest))
                             h payload)
    by (unfold awaited_reply in *; cbn [set_spm_reply request];
        rewrite Hreq; exact Hgood).
  specialize (Hacc H1 H2 H3).
  repeat split; try assumption; try congruence; rewrite Hacc; reflexivity.
Qed.

End Reactor.

(** ** Sending a request and receiving its reply *)

Section Transport.

Import Icc.

Lemma submit_ok (cfg : icc_config) (sc : apcie_dev) (major minor : Z)
  (data : option ptr) (length : Z) (reply : option ptr) (cap : Z) :
  can_send cfg sc length ->
  icc_cmd_submit cfg sc (to_u8 major) (to_u16 minor) data (to_u16 length)
                 reply (to_u16 cap)
  = inr (submitted cfg sc major minor data length reply cap) /\
  mailbox (submitted cfg sc major minor data length reply cap)
  = (request_hdr cfg sc (to_u8 major) (to_u16 minor) (to_u16 length)
       (load (mem sc) data (to_u16 length)),
     Icc.reply sc, true, reply, to_u16 cap, reply_extra_checksum sc, mem sc) /\
  trace (submitted cfg sc major minor data length reply cap)
  = trace sc ++ [Iowrite32 APCIE_ICC_SEND APCIE_REG_ICC_DOORBELL].
Proof.
  intros (Hlen & He & Hf). unfold submitted, icc_cmd_submit.
  destruct (Z.gtb_spec (to_u16 length) (ICC_MAX_PAYLOAD cfg)) as [E|_]; [lia|].
  cbv zeta. cbn [spm_request buf_empty buf_full]. rewrite He, Hf.
  change (negb (1 =? 1) || negb (0 =? 0)) with false. cbv iota.
  repeat split.
Qed.

Lemma submit_busy (cfg : icc_config) (sc : apcie_dev) (major minor : Z)
  (data : option ptr) (length : Z) (reply : option ptr) (cap : Z) :
  to_u16 length <= ICC_MAX_PAYLOAD cfg ->
  buf_empty (spm_request sc) <> 1 \/ buf_full (spm_request sc) <> 0 ->
  forall (env : wait_env) (intr : bool),
  fst (_apcie_icc_cmd cfg env sc major minor data length reply cap intr)
  = - EIO.
Proof.
  intros Hlen Hbusy env intr. unfold _apcie_icc_cmd, icc_cmd_submit.
  destruct (Z.gtb_spec (to_u16 length) (ICC_MAX_PAYLOAD cfg)) as [E|_]; [lia|].
  cbv zeta. cbn [spm_request buf_empty buf_full].
  destruct (Z.eqb_spec (buf_empty (spm_request sc)) 1);
    destruct (Z.eqb_spec (buf_full (spm_request sc)) 0);
    try reflexivity.
  destruct Hbusy; contradiction.
Qed.

(** The interrupt for the awaited reply: the mailbox afterwards. *)
Lemma irq_answered (cfg : icc_config) (sc : apcie_dev) (h : Hdr.t)
  (payload rest : list Z) (st : Z) :
  spm_reply sc = reply_slot h payload rest ->
  reply_pending sc = true ->
  0 <= reply_length sc ->
  awaited_reply cfg sc h payload ->
  Z.land st APCIE_ICC_SEND <> 0 ->
  mailbox (hw_step cfg sc (Irq [st; 0]))
  = (request sc, h, false, reply_buffer sc,
     Z.min (reply_length sc) (Hdr.length h - ICC_HDR_SIZE),
     checksum (skipn (Z.to_nat (Z.min (reply_length sc)
                                      (Hdr.length h - ICC_HDR_SIZE))) payload),
     memcpy_to (mem sc) (reply_buffer sc)
       (firstn (Z.to_nat (Z.min (reply_length sc)
                                (Hdr.length h - ICC_HDR_SIZE))) payload)) /\
  spm_request (hw_step cfg sc (Irq [st; 0])) = spm_request sc.
Proof.
  intros Hslot Hpend Hcap Hgood Hsend.
  assert (Hst : st <> 0) by (intros ->; apply Hsend; apply Z.land_0_l).
  cbn [hw_step]. unfold icc_interrupt. cbn [icc_interrupt_loop].
  destruct (Z.eqb_spec st 0) as [E|_]; [contradiction|].
  change (0 =? 0) with true. cbv iota.
  unfold icc_interrupt_body at 1. cbn [Z.land negb Z.eqb]. cbv iota.
  unfold icc_interrupt_body.
  destruct (Z.eqb_spec (Z.land st APCIE_ICC_SEND) 0) as [E|_];
    [contradiction|]. cbn [negb].
  destruct (negb (Z.land st APCIE_ICC_ACK =? 0)).
  - rewrite (handle_message_accept cfg
               (iowrite32 APCIE_ICC_SEND APCIE_REG_ICC_STATUS
                  (iowrite32 APCIE_ICC_ACK APCIE_REG_ICC_STATUS sc))
               h payload rest Hslot Hpend Hcap Hgood).
    split; reflexivity.
  - rewrite (handle_message_accept cfg
               (iowrite32 APCIE_ICC_SEND APCIE_REG_ICC_STATUS sc)
               h payload rest Hslot Hpend Hcap Hgood).
    split; reflexivity.
Qed.

Lemma wait_answered (cfg : icc_config) (sc : apcie_dev) (h : Hdr.t)
  (payload rest : list Z) (st : Z) (sg : bool) (jl : Z) :
  reply_pending sc = true ->
  0 <= reply_length sc ->
  awaited_reply cfg sc h payload ->
  Z.land st APCIE_ICC_SEND <> 0 ->
  mailbox (icc_cmd_wait cfg (answers h payload rest st sg jl) sc)
  = (request sc, h, false, reply_buffer sc,
     Z.min (reply_length sc) (Hdr.length h - ICC_HDR_SIZE),
     checksum (skipn (Z.to_nat (Z.min (reply_length sc)
                                      (Hdr.length h - ICC_HDR_SIZE))) payload),
     memcpy_to (mem sc) (reply_buffer sc)
       (firstn (Z.to_nat (Z.min (reply_length sc)
                                (Hdr.length h - ICC_HDR_SIZE))) payload)).
Proof.
  intros Hpend Hcap Hgood Hsend.
  unfold icc_cmd_wait, answers. cbn [hw fold_left].
  apply (irq_answered cfg
           (hw_step cfg (hw_step cfg sc Remote_drain)
                    (Remote_post (reply_slot h payload rest)))
           h payload rest st eq_refl Hpend Hcap Hgood Hsend).
Qed.

Lemma to_u16_add3 (a b c : Z) :
  to_u16 (to_u16 a + to_u16 b + to_u16 c) = to_u16 (a + (b + c)).
Proof.
  rewrite (to_u16_add_r _ c).
  replace (to_u16 a + to_u16 b + c) with (to_u16 a + (to_u16 b + c)) by lia.
  rewrite (to_u16_add_l a).
  replace (a + (to_u16 b + c)) with (to_u16 b + (a + c)) by lia.
  rewrite (to_u16_add_l b). f_equal. lia.
Qed.

Lemma to_u16_sub_zero (c s : Z) :
  0 <= c < 2 ^ 16 -> (to_u16 (c - s) = 0 <-> c = to_u16 s).
Proof.
  intros Hc. unfold to_u16. split; intros H.
  - replace s with (c - (c - s)) by lia.
    rewrite Zminus_mod, H, Z.sub_0_r, Z.mod_mod by lia.
    symmetry. apply Z.mod_small. exact Hc.
  - rewrite H, Zminus_mod_idemp_l, Z.sub_diag. reflexivity.
Qed.

(** The three subtractions of [_apcie_icc_cmd] leave zero exactly when the
    claimed checksum is the checksum of header, copied bytes and the bytes
    that were only summed. *)
Lemma rep_checksum_zero (c : Z) (hdr copied extra : list Z) :
  0 <= c < 2 ^ 16 ->
  (to_u16 (to_u16 (to_u16 (c - checksum hdr) - checksum copied)
           - checksum extra) = 0
   <-> c = to_u16 (sum_bytes (hdr ++ copied ++ extra))).
Proof.
  intros Hc. rewrite !checksum_sum, !sum_bytes_app.
  set (a := sum_bytes hdr). set (b := sum_bytes copied).
  set (e := sum_bytes extra).
  assert (E : to_u16 (to_u16 (to_u16 (c - to_u16 a) - to_u16 b) - to_u16 e)
              = to_u16 (c - (a + (b + e)))).
  { rewrite (to_u16_sub_r _ e), (to_u16_sub_l _ e).
    replace (to_u16 (c - to_u16 a) - to_u16 b - e)
      with (to_u16 (c - to_u16 a) - e - to_u16 b) by lia.
    rewrite (to_u16_sub_r _ b).
    replace (to_u16 (c - to_u16 a) - e - b)
      with (to_u16 (c - to_u16 a) - (e + b)) by lia.
    rewrite (to_u16_sub_l _ (e + b)).
    replace (c - to_u16 a - (e + b)) with (c - (e + b) - to_u16 a) by lia.
    rewrite (to_u16_sub_r _ a). f_equal. lia. }
  rewrite E. now apply to_u16_sub_zero.
Qed.

Lemma load_memcpy_to (m : heap) (reply : option ptr) (cap n : Z)
  (payload : list Z) (sc : apcie_dev) :
  mem sc = m ->
  buffer_ok sc reply cap ->
  n = Z.min (to_u16 cap) (Z.of_nat (length payload)) ->
  load (memcpy_to m reply (firstn (Z.to_nat n) payload)) reply n
  = firstn (Z.to_nat n) payload.
Proof.
  intros <- Hbuf ->. pose proof (to_u16_range cap) as Hcap.
  destruct reply as [a|]; cbn [buffer_ok] in Hbuf.
  - unfold load, memcpy_to, heap_store, overwrite. rewrite Nat.eqb_refl.
    rewrite firstn_app, length_firstn.
    replace (Z.to_nat (Z.min (to_u16 cap) (Z.of_nat (length payload)))
             - Nat.min (Z.to_nat (Z.min (to_u16 cap)
                                        (Z.of_nat (length payload))))
                       (length payload))%nat with 0%nat by lia.
    cbn [firstn]. rewrite app_nil_r. apply firstn_all2.
    rewrite length_firstn. lia.
  - rewrite Hbuf. replace (Z.min 0 (Z.of_nat (length payload))) with 0 by lia.
    reflexivity.
Qed.

Lemma wait_returns_positive (env : wait_env) (intr : bool) :
  0 < (if intr then wait_event_interruptible_timeout env true
       else wait_event_timeout env true).
Proof.
  unfold wait_event_interruptible_timeout, wait_event_timeout.
  destruct intr; lia.
Qed.

(** [_apcie_icc_cmd] when the request goes out and the awaited reply comes
    in: what is returned and what is left behind. *)
Lemma icc_cmd_answered (cfg : icc_config) (sc : apcie_dev) (major minor : Z)
  (data : option ptr) (length : Z) (reply : option ptr) (cap : Z)
  (intr : bool) (h : Hdr.t) (payload rest : list Z) (st : Z) (sg : bool)
  (jl : Z) :
  can_send cfg sc length ->
  buffer_ok sc reply cap ->
  awaited_reply cfg (submitted cfg sc major minor data length reply cap)
                h payload ->
  Z.land st APCIE_ICC_SEND <> 0 ->
  let r := _apcie_icc_cmd cfg (answers h payload rest st sg jl) sc major minor
                          data length reply cap intr in
  let n := Z.to_nat (Z.min (to_u16 cap) (Hdr.length h - ICC_HDR_SIZE)) in
  mem (snd r) = memcpy_to (mem sc) reply (firstn n payload) /\
  reply_pending (snd r) = false /\
  reply_buffer (snd r) = None /\
  reply_extra_checksum (snd r) = checksum (skipn n payload) /\
  (Hdr.checksum h <> frame_checksum h payload ->
   fst r = - EIO /\
   exists tr, trace (snd r) = tr ++ [Sc_err "icc: checksum mismatch"]) /\
  (Hdr.checksum h = frame_checksum h payload ->
   Hdr.major h = to_u8 major ->
   Hdr.minor h = Z.lor (to_u16 minor) (ICC_REPLY cfg) ->
   fst r = Hdr.length h - ICC_HDR_SIZE).
Proof.
  intros Hsend Hbuf Hgood Hst r n.
  destruct (submit_ok cfg sc major minor data length reply cap Hsend)
    as (Hsub & Hbox1 & _).
  set (sc1 := submitted cfg sc major minor data length reply cap) in *.
  unfold mailbox in Hbox1.
  injection Hbox1 as Hreq1 _ Hpend1 Hrb1 Hlen1 _ Hmem1.
  pose proof (to_u16_range cap) as Hcap.
  assert (Hcap1 : 0 <= reply_length sc1) by lia.
  pose proof (wait_answered cfg sc1 h payload rest st sg jl
                Hpend1 Hcap1 Hgood Hst) as Hbox.
  set (sc2 := icc_cmd_wait cfg (answers h payload rest st sg jl) sc1) in *.
  unfold mailbox in Hbox. rewrite Hrb1, Hlen1, Hmem1 in Hbox. fold n in Hbox.
  injection Hbox as _ Hrep Hpend Hrb Hlen Hextra Hmem.
  destruct Hgood as (Hwf & _ & _ & _ & _ & Hbounds & Hpay).
  assert (Hn : Z.min (to_u16 cap) (Hdr.length h - ICC_HDR_SIZE)
               = Z.min (to_u16 cap) (Z.of_nat (List.length payload)))
    by (rewrite Hpay; reflexivity).
  assert (Hload : load (mem sc2) reply (reply_length sc2)
                  = firstn n payload).
  { rewrite Hmem, Hlen. subst n. rewrite Hn.
    apply (load_memcpy_to (mem sc) reply cap _ payload sc eq_refl Hbuf eq_refl). }
  assert (Hr : r = icc_cmd_finish cfg sc2
                     (if intr
                      then wait_event_interruptible_timeout
                             (answers h payload rest st sg jl) true
                      else wait_event_timeout
                             (answers h payload rest st sg jl) true)
                     (to_u8 major) (to_u16 minor) reply).
  { subst r. unfold _apcie_icc_cmd. rewrite Hsub. cbv zeta. fold sc2.
    rewrite Hpend. reflexivity. }
  pose proof (wait_returns_positive (answers h payload rest st sg jl) intr)
    as Hret.
  set (ret := if intr then _ else _) in *.
  unfold icc_cmd_finish in Hr.
  destruct (Z.ltb_spec ret 0) as [E|_]; [lia|].
  cbn [set_reply_buffer reply_pending orb] in Hr. rewrite Hpend in Hr.
  cbv zeta in Hr.
  cbn [set_reply_buffer mem reply_length reply_extra_checksum Icc.reply
       request reply_buffer spm_request spm_reply trace] in Hr.
  rewrite Hload, Hextra, Hrep in Hr.
  assert (Hck : to_u16
                  (to_u16
                     (to_u16 (Hdr.checksum h
                              - checksum (hdr_bytes (Hdr.set_checksum h 0)))
                      - checksum (firstn n payload))
                   - checksum (skipn n payload)) = 0
                <-> Hdr.checksum h = frame_checksum h payload).
  { unfold frame_checksum. rewrite <- (firstn_skipn n payload) at 3.
    apply rep_checksum_zero. apply Hwf. }
  destruct (Z.eqb_spec
              (to_u16
                 (to_u16
                    (to_u16 (Hdr.checksum h
                             - checksum (hdr_bytes (Hdr.set_checksum h 0)))
                     - checksum (firstn n payload))
                  - checksum (skipn n payload))) 0) as [E0|E0];
    cbn [negb] in Hr.
  - apply Hck in E0.
    cbn [Hdr.set_checksum Hdr.major Hdr.minor Hdr.length] in Hr.
    assert (Hany : mem (snd r) = memcpy_to (mem sc) reply (firstn n payload)
                   /\ reply_pending (snd r) = false
                   /\ reply_buffer (snd r) = None
                   /\ reply_extra_checksum (snd r)
                      = checksum (skipn n payload)).
    { rewrite Hr.
      destruct (negb (Hdr.major h =? to_u8 major));
        [|destruct (negb (Hdr.minor h =? Z.lor (to_u16 minor) (ICC_REPLY cfg)))];
        (split; [exact Hmem | repeat split; reflexivity]). }
    destruct Hany as (H1 & H2 & H3 & H4).
    split; [exact H1|]. split; [exact H2|]. split; [exact H3|].
    split; [exact H4|]. split.
    + intros Hne. contradiction.
    + intros _ Hmaj Hmin. rewrite Hr, Hmaj, Hmin, !Z.eqb_refl. reflexivity.
  - assert (Hne : Hdr.checksum h <> frame_checksum h payload)
      by (intros Heq; apply E0, Hck, Heq).
    rewrite Hr.
    split; [exact Hmem|]. split; [reflexivity|]. split; [reflexivity|].
    split; [reflexivity|]. split.
    + intros _. split; [reflexivity|]. eexists. reflexivity.
    + intros Heq. contradiction.
Qed.

Lemma submitted_cookie (cfg : icc_config) (sc : apcie_dev) (major minor : Z)
  (data : option ptr) (length : Z) (reply : option ptr) (cap : Z) :
  can_send cfg sc length ->
  Hdr.cookie (request (submitted cfg sc major minor data length reply cap))
  = to_u16 (Hdr.cookie (request sc) + 1).
Proof.
  intros Hsend.
  destruct (submit_ok cfg sc major minor data length reply cap Hsend)
    as (_ & Hbox & _).
  unfold mailbox in Hbox. injection Hbox as Hreq _ _ _ _ _ _.
  rewrite Hreq. unfold request_hdr, request_hdr0.
  destruct (Hdr.length _ <? ICC_MIN_SIZE cfg); reflexivity.
Qed.

Lemma expected_awaited (cfg : icc_config) (sc : apcie_dev) (major minor : Z)
  (data : option ptr) (length : Z) (reply : option ptr) (cap : Z)
  (h : Hdr.t) (payload : list Z) :
  can_send cfg sc length ->
  expected_reply cfg sc h payload ->
  awaited_reply cfg (submitted cfg sc major minor data length reply cap)
                h payload.
Proof.
  intros Hsend (H1 & H2 & H3 & H4 & H5 & H6 & H7).
  unfold awaited_reply. rewrite (submitted_cookie _ _ _ _ _ _ _ _ Hsend).
  exact (conj H1 (conj H2 (conj H3 (conj H4 (conj H5 (conj H6 H7)))))).
Qed.

(** C4.  When the request can be sent and the reply to it arrives with a
    correct checksum, [_apcie_icc_cmd] returns the reply's length minus
    the header size, and the caller's buffer holds the first
    min(capacity, payload length) bytes of the payload, the rest of the
    buffer and all other memory being as before. *)
Theorem icc_cmd_round_trip (cfg : icc_config) (sc : apcie_dev)
  (major minor : Z) (data : option ptr) (length : Z) (a : ptr) (cap : Z)
  (intr : bool) (h : Hdr.t) (payload rest : list Z) (st : Z) (sg : bool)
  (jl : Z) :
  can_send cfg sc length ->
  buffer_ok sc (Some a) cap ->
  reply_to cfg sc major minor h payload ->
  Hdr.checksum h = frame_checksum h payload ->
  Z.land st APCIE_ICC_SEND <> 0 ->
  fst (_apcie_icc_cmd cfg (answers h payload rest st sg jl) sc major minor
                      data length (Some a) cap intr)
  = Hdr.length h - ICC_HDR_SIZE /\
  mem (snd (_apcie_icc_cmd cfg (answers h payload rest st sg jl) sc major
                           minor data length (Some a) cap intr)) a
  = firstn (Z.to_nat (Z.min (to_u16 cap) (Hdr.length h - ICC_HDR_SIZE))) payload
    ++ skipn (Z.to_nat (Z.min (to_u16 cap) (Hdr.length h - ICC_HDR_SIZE)))
             (mem sc a) /\
  (forall b, b <> a ->
     mem (snd (_apcie_icc_cmd cfg (answers h payload rest st sg jl) sc major
                              minor data length (Some a) cap intr)) b
     = mem sc b).
Proof.
  intros Hsend Hbuf (Hexp & Hmaj & Hmin) Hsum Hst.
  pose proof (expected_awaited cfg sc major minor data length (Some a) cap
                h payload Hsend Hexp) as Hgood.
  destruct (icc_cmd_answered cfg sc major minor data length (Some a) cap intr
              h payload rest st sg jl Hsend Hbuf Hgood Hst)
    as (Hmem & _ & _ & _ & _ & Hok).
  destruct Hexp as (_ & _ & _ & _ & _ & _ & Hpay).
  split; [exact (Hok Hsum Hmaj Hmin)|].
  rewrite Hmem. unfold memcpy_to, heap_store, overwrite. split.
  - rewrite Nat.eqb_refl, length_firstn. f_equal. f_equal. lia.
  - intros b Hb. destruct (Nat.eqb_spec a b); [congruence | reflexivity].
Qed.

(** C5.  When a reply to the outstanding request has been received,
    [_apcie_icc_cmd] fails with [-EIO], logging a checksum mismatch,
    unless the checksum the frame claims is the checksum of its header
    (checksum field zero) and of its whole payload: the bytes copied to the
    caller and the bytes beyond the caller's capacity, which were summed
    into [reply_extra_checksum].  So it succeeds only if they agree. *)
Theorem reply_checksum_verified (cfg : icc_config) (sc : apcie_dev)
  (major minor : Z) (data : option ptr) (length : Z) (reply : option ptr)
  (cap : Z) (intr : bool) (h : Hdr.t) (payload rest : list Z) (st : Z)
  (sg : bool) (jl : Z) :
  can_send cfg sc length ->
  buffer_ok sc reply cap ->
  expected_reply cfg sc h payload ->
  Z.land st APCIE_ICC_SEND <> 0 ->
  (Hdr.checksum h <> frame_checksum h payload ->
   fst (_apcie_icc_cmd cfg (answers h payload rest st sg jl) sc major minor
                       data length reply cap intr) = - EIO /\
   exists tr,
     trace (snd (_apcie_icc_cmd cfg (answers h payload rest st sg jl) sc major
                                minor data length reply cap intr))
     = tr ++ [Sc_err "icc: checksum mismatch"]) /\
  (0 <= fst (_apcie_icc_cmd cfg (answers h payload rest st sg jl) sc major
                            minor data length reply cap intr) ->
   Hdr.checksum h = frame_checksum h payload) /\
  reply_extra_checksum
    (snd (_apcie_icc_cmd cfg (answers h payload rest st sg jl) sc major minor
                         data length reply cap intr))
  = checksum (skipn (Z.to_nat (Z.min (to_u16 cap)
                                     (Hdr.length h - ICC_HDR_SIZE))) payload) /\
  frame_checksum h payload
  = to_u16 (checksum (hdr_bytes (Hdr.set_checksum h 0))
            + checksum (firstn (Z.to_nat (Z.min (to_u16 cap)
                                  (Hdr.length h - ICC_HDR_SIZE))) payload)
            + checksum (skipn (Z.to_nat (Z.min (to_u16 cap)
                                 (Hdr.length h - ICC_HDR_SIZE))) payload)).
Proof.
  intros Hsend Hbuf Hexp Hst.
  pose proof (expected_awaited cfg sc major minor data length reply cap
                h payload Hsend Hexp) as Hgood.
  destruct (icc_cmd_answered cfg sc major minor data length reply cap intr
              h payload rest st sg jl Hsend Hbuf Hgood Hst)
    as (_ & _ & _ & Hextra & Hbad & _).
  split; [exact Hbad|]. split; [|split; [exact Hextra|]].
  - intros Hret.
    destruct (Z.eq_dec (Hdr.checksum h) (frame_checksum h payload)) as [E|E];
      [exact E|].
    destruct (Hbad E) as [Hio _]. rewrite Hio in Hret. unfold EIO in Hret. lia.
  - unfold frame_checksum.
    set (n := Z.to_nat (Z.min (to_u16 cap) (Hdr.length h - ICC_HDR_SIZE))).
    rewrite <- (firstn_skipn n payload) at 1.
    rewrite !checksum_sum, !sum_bytes_app. symmetry. apply to_u16_add3.
Qed.

(** [_apcie_icc_cmd] when the wait ends with the reply still pending. *)
Lemma icc_cmd_unanswered (cfg : icc_config) (env : wait_env) (sc : apcie_dev)
  (major minor : Z) (data : option ptr) (length : Z) (reply : option ptr)
  (cap : Z) (intr : bool) :
  can_send cfg sc length ->
  reply_pending
    (icc_cmd_wait cfg env (submitted cfg sc major minor data length reply cap))
  = true ->
  _apcie_icc_cmd cfg env sc major minor data length reply cap intr
  = (if intr && signalled env then - EINTR else - ETIMEDOUT,
     sc_err
       (set_reply_pending
          (set_reply_buffer
             (icc_cmd_wait cfg env
                (submitted cfg sc major minor data length reply cap)) None)
          false)
       "icc: interrupted or timeout").
Proof.
  intros Hsend Hpend.
  destruct (submit_ok cfg sc major minor data length reply cap Hsend)
    as (Hsub & _ & _).
  unfold _apcie_icc_cmd. rewrite Hsub. cbv zeta. rewrite Hpend.
  unfold icc_cmd_finish. cbn [set_reply_buffer reply_pending].
  rewrite Hpend, orb_true_r.
  unfold wait_event_interruptible_timeout, wait_event_timeout. cbn [negb].
  destruct intr, (signalled env); reflexivity.
Qed.

(** C6 (as amended).  When the request went out and the wait ends with
    the reply still pending, [_apcie_icc_cmd] returns [-EINTR] if the wait
    was interruptible and a signal arrived and [-ETIMEDOUT] otherwise; the
    pending flag is cleared and the saved pointer to the caller's buffer
    is NULL.  Once the other side has taken the abandoned request out of
    the request half, a further request that is answered correctly
    returns the length of its reply. *)
Theorem icc_cmd_timeout (cfg : icc_config) (env : wait_env) (sc : apcie_dev)
  (major minor : Z) (data : option ptr) (length : Z) (reply : option ptr)
  (cap : Z) (intr : bool) :
  can_send cfg sc length ->
  reply_pending
    (icc_cmd_wait cfg env (submitted cfg sc major minor data length reply cap))
  = true ->
  fst (_apcie_icc_cmd cfg env sc major minor data length reply cap intr)
  = (if intr && signalled env then - EINTR else - ETIMEDOUT) /\
  reply_pending
    (snd (_apcie_icc_cmd cfg env sc major minor data length reply cap intr))
  = false /\
  reply_buffer
    (snd (_apcie_icc_cmd cfg env sc major minor data length reply cap intr))
  = None /\
  forall (major2 minor2 : Z) (data2 : option ptr) (length2 : Z)
         (reply2 : option ptr) (cap2 : Z) (intr2 : bool) (h : Hdr.t)
         (payload rest : list Z) (st : Z) (sg : bool) (jl : Z),
    to_u16 length2 <= ICC_MAX_PAYLOAD cfg ->
    buffer_ok
      (snd (_apcie_icc_cmd cfg env sc major minor data length reply cap intr))
      reply2 cap2 ->
    reply_to cfg
      (snd (_apcie_icc_cmd cfg env sc major minor data length reply cap intr))
      major2 minor2 h payload ->
    Hdr.checksum h = frame_checksum h payload ->
    Z.land st APCIE_ICC_SEND <> 0 ->
    fst (_apcie_icc_cmd cfg (answers h payload rest st sg jl)
           (hw_step cfg
              (snd (_apcie_icc_cmd cfg env sc major minor data length reply
                                   cap intr))
              Remote_drain)
           major2 minor2 data2 length2 reply2 cap2 intr2)
    = Hdr.length h - ICC_HDR_SIZE.
Proof.
  intros Hsend Hpend.
  rewrite (icc_cmd_unanswered cfg env sc major minor data length reply cap
             intr Hsend Hpend).
  cbn [fst snd]. split; [reflexivity|]. split; [reflexivity|].
  split; [reflexivity|].
  intros major2 minor2 data2 length2 reply2 cap2 intr2 h payload rest st sg jl
         Hlen2 Hbuf2 (Hexp & Hmaj & Hmin) Hsum Hst.
  set (sc' := hw_step cfg _ Remote_drain).
  assert (Hsend2 : can_send cfg sc' length2) by (repeat split; assumption).
  pose proof (expected_awaited cfg sc' major2 minor2 data2 length2 reply2 cap2
                h payload Hsend2 Hexp) as Hgood.
  destruct (icc_cmd_answered cfg sc' major2 minor2 data2 length2 reply2 cap2
              intr2 h payload rest st sg jl Hsend2 Hbuf2 Hgood Hst)
    as (_ & _ & _ & _ & _ & Hok).
  exact (Hok Hsum Hmaj Hmin).
Qed.

End Transport.

(** ** Examples of the transport *)

Section TransportExamples.

Import Icc.

Ltac closed :=
  vm_compute; repeat split; try reflexivity; try discriminate;
  try (intro; discriminate).

Lemma bad_cookie_reply_dropped_witness :
  Hdr.cookie (inbound sc_stale) <> Hdr.cookie (request sc_stale) /\
  reply_pending sc_stale = true /\
  0 <= reply_length sc_stale /\
  awaited_reply sample_config sc_stale reply1 payload1 /\
  reply_pending (handle_message sample_config sc_stale) = true /\
  reply_pending
    (handle_message sample_config
       (set_spm_reply (handle_message sample_config sc_stale)
                      (reply_slot reply1 payload1 [])))
  = false.
Proof.
  assert (H1 : Hdr.cookie (inbound sc_stale) <> Hdr.cookie (request sc_stale))
    by closed.
  assert (H2 : reply_pending sc_stale = true) by closed.
  assert (H3 : 0 <= reply_length sc_stale) by closed.
  assert (H4 : awaited_reply sample_config sc_stale reply1 payload1) by closed.
  destruct (bad_cookie_reply_dropped sample_config sc_stale reply1 payload1 []
              H1 H2 H3 H4) as (_ & H5 & _ & H6 & _).
  exact (conj H1 (conj H2 (conj H3 (conj H4 (conj H5 H6))))).
Defined.

Lemma icc_cmd_round_trip_witness :
  can_send sample_config sc0 1 /\
  buffer_ok sc0 (Some 1%nat) 8 /\
  reply_to sample_config sc0 1 0 reply1 payload1 /\
  Hdr.checksum reply1 = frame_checksum reply1 payload1 /\
  Z.land 1 APCIE_ICC_SEND <> 0 /\
  fst (_apcie_icc_cmd sample_config (answers reply1 payload1 [] 1 false 5)
                      sc0 1 0 (Some 0%nat) 1 (Some 1%nat) 8 false)
  = Hdr.length reply1 - ICC_HDR_SIZE.
Proof.
  assert (H1 : can_send sample_config sc0 1) by closed.
  assert (H2 : buffer_ok sc0 (Some 1%nat) 8) by closed.
  assert (H3 : reply_to sample_config sc0 1 0 reply1 payload1) by closed.
  assert (H4 : Hdr.checksum reply1 = frame_checksum reply1 payload1) by closed.
  assert (H5 : Z.land 1 APCIE_ICC_SEND <> 0) by closed.
  destruct (icc_cmd_round_trip sample_config sc0 1 0 (Some 0%nat) 1 1%nat 8
              false reply1 payload1 [] 1 false 5 H1 H2 H3 H4 H5) as (H6 & _).
  exact (conj H1 (conj H2 (conj H3 (conj H4 (conj H5 H6))))).
Defined.

(** The reply of the example: four payload bytes are returned and land in
    the caller's buffer. *)
Example round_trip_example :
  fst (_apcie_icc_cmd sample_config (answers reply1 payload1 [] 1 false 5)
                      sc0 1 0 (Some 0%nat) 1 (Some 1%nat) 8 false) = 4 /\
  mem (snd (_apcie_icc_cmd sample_config (answers reply1 payload1 [] 1 false 5)
                           sc0 1 0 (Some 0%nat) 1 (Some 1%nat) 8 false)) 1%nat
  = [0; 0; 0; 8; 0; 0; 0; 0].
Proof. closed. Qed.

(** A frame altered in a byte beyond the caller's capacity of two bytes is
    rejected all the same. *)
Lemma reply_checksum_verified_witness :
  can_send sample_config sc0 1 /\
  buffer_ok sc0 (Some 1%nat) 2 /\
  expected_reply sample_config sc0 reply1 payload_bad /\
  Z.land 1 APCIE_ICC_SEND <> 0 /\
  Hdr.checksum reply1 <> frame_checksum reply1 payload_bad /\
  fst (_apcie_icc_cmd sample_config (answers reply1 payload_bad [] 1 false 5)
                      sc0 1 0 (Some 0%nat) 1 (Some 1%nat) 2 false)
  = - EIO.
Proof.
  assert (H1 : can_send sample_config sc0 1) by closed.
  assert (H2 : buffer_ok sc0 (Some 1%nat) 2) by closed.
  assert (H3 : expected_reply sample_config sc0 reply1 payload_bad) by closed.
  assert (H4 : Z.land 1 APCIE_ICC_SEND <> 0) by closed.
  assert (H5 : Hdr.checksum reply1 <> frame_checksum reply1 payload_bad)
    by closed.
  destruct (reply_checksum_verified sample_config sc0 1 0 (Some 0%nat) 1
              (Some 1%nat) 2 false reply1 payload_bad [] 1 false 5
              H1 H2 H3 H4) as (H6 & _).
  destruct (H6 H5) as (H7 & _).
  exact (conj H1 (conj H2 (conj H3 (conj H4 (conj H5 H7))))).
Defined.

Lemma icc_cmd_timeout_witness :
  can_send sample_config sc0 1 /\
  reply_pending
    (icc_cmd_wait sample_config (silence false)
       (submitted sample_config sc0 1 0 (Some 0%nat) 1 (Some 1%nat) 8))
  = true /\
  fst (_apcie_icc_cmd sample_config (silence false) sc0 1 0 (Some 0%nat) 1
                      (Some 1%nat) 8 false)
  = - ETIMEDOUT /\
  fst (_apcie_icc_cmd sample_config (answers reply2 payload1 [] 1 false 5)
         (hw_step sample_config
            (snd (_apcie_icc_cmd sample_config (silence false) sc0 1 0
                                 (Some 0%nat) 1 (Some 1%nat) 8 false))
            Remote_drain)
         1 0 (Some 0%nat) 1 (Some 1%nat) 8 false)
  = Hdr.length reply2 - ICC_HDR_SIZE.
Proof.
  assert (H1 : can_send sample_config sc0 1) by closed.
  assert (H2 : reply_pending
                 (icc_cmd_wait sample_config (silence false)
                    (submitted sample_config sc0 1 0 (Some 0%nat) 1
                               (Some 1%nat) 8)) = true) by closed.
  destruct (icc_cmd_timeout sample_config (silence false) sc0 1 0 (Some 0%nat)
              1 (Some 1%nat) 8 false H1 H2) as (H3 & _ & _ & H4).
  refine (conj H1 (conj H2 (conj H3 _))).
  apply H4; closed.
Defined.

(** C6, counterexample.  Nothing happens during the wait: the call times
    out and leaves the request half marked full.  The next call does not
    proceed: it finds the request half busy and fails with [-EIO] before
    sending anything. *)
Lemma send_after_timeout_busy :
  fst (_apcie_icc_cmd sample_config (silence false) sc0 1 0 (Some 0%nat) 1
                      (Some 1%nat) 8 false)
  = - ETIMEDOUT /\
  buf_full (spm_request
              (snd (_apcie_icc_cmd sample_config (silence false) sc0 1 0
                                   (Some 0%nat) 1 (Some 1%nat) 8 false)))
  = 1 /\
  fst (_apcie_icc_cmd sample_config (silence false)
         (snd (_apcie_icc_cmd sample_config (silence false) sc0 1 0
                              (Some 0%nat) 1 (Some 1%nat) 8 false))
         1 0 (Some 0%nat) 1 (Some 1%nat) 8 false)
  = - EIO /\
  request
    (snd (_apcie_icc_cmd sample_config (silence false)
            (snd (_apcie_icc_cmd sample_config (silence false) sc0 1 0
                                 (Some 0%nat) 1 (Some 1%nat) 8 false))
            1 0 (Some 0%nat) 1 (Some 1%nat) 8 false))
  <> hdr_of_bytes
       (buf_data
          (spm_request
             (snd (_apcie_icc_cmd sample_config (silence false)
                     (snd (_apcie_icc_cmd sample_config (silence false) sc0 1 0
                                          (Some 0%nat) 1 (Some 1%nat) 8 false))
                     1 0 (Some 0%nat) 1 (Some 1%nat) 8 false)))).
Proof. closed. Qed.

End TransportExamples.

(** ** The exported entry point and the mutex *)

Section EntryPoint.

Import Icc.

(** When the device is registered and the mutex free, [apcie_icc_cmd]
    returns with the mutex released, whatever [_apcie_icc_cmd] returns. *)
Lemma apcie_icc_cmd_releases (cfg : icc_config) (bpcie : bpcie_transport)
  (env : wait_env) (g : icc_global) (major minor : Z) (data : option ptr)
  (length : Z) (reply : option ptr) (cap : Z) :
  bpcie_initialized g = false ->
  icc_mutex g = false ->
  icc_sc g = true ->
  exists ret g',
    apcie_icc_cmd cfg bpcie env g major minor data length reply cap
    = Returns ret g' /\
    ret = fst (_apcie_icc_cmd cfg env (dev g) major minor data length reply
                              cap false) /\
    icc_mutex g' = false.
Proof.
  intros Hb Hm Hsc. unfold apcie_icc_cmd. rewrite Hb, Hm.
  cbn [set_mutex icc_sc]. rewrite Hsc. cbn [negb dev set_mutex].
  destruct (_apcie_icc_cmd cfg env (dev g) major minor data length reply cap
                           false) as [ret d].
  exists ret. eexists. split; [reflexivity|]. split; reflexivity.
Qed.

(** C1, at the failing input.  With no device registered ([icc_sc] NULL),
    [apcie_icc_cmd] takes the mutex, logs, and returns [-EAGAIN] with the
    mutex still held; the next call never gets past [mutex_lock]. *)
Theorem apcie_icc_cmd_not_ready_keeps_mutex (cfg : icc_config)
  (bpcie : bpcie_transport) (env env' : wait_env) (d : apcie_dev)
  (buf : option ptr) (major minor : Z) (data : option ptr) (length : Z)
  (reply : option ptr) (cap : Z) (major' minor' : Z) (data' : option ptr)
  (length' : Z) (reply' : option ptr) (cap' : Z) :
  apcie_icc_cmd cfg bpcie env (mk_global false false false d buf)
                major minor data length reply cap
  = Returns (- EAGAIN)
            (mk_global false true false
                       (emit d (Sc_err "icc: not ready")) buf) /\
  apcie_icc_cmd cfg bpcie env'
                (mk_global false true false
                           (emit d (Sc_err "icc: not ready")) buf)
                major' minor' data' length' reply' cap'
  = Blocks.
Proof. split; reflexivity. Qed.

Example not_ready_example :
  apcie_icc_cmd sample_config no_bpcie (silence false) g_not_ready
                1 0 (Some 0%nat) 1 (Some 1%nat) 8
  = Returns (- EAGAIN)
            (mk_global false true false
                       (emit sc0 (Sc_err "icc: not ready")) (Some 2%nat)).
Proof. reflexivity. Qed.

(** With the device registered the same call sends the request, gets its
    reply and returns with the mutex free. *)
Example ready_example :
  match apcie_icc_cmd sample_config no_bpcie
          (answers reply1 payload1 [] 1 false 5) g_ready
          1 0 (Some 0%nat) 1 (Some 1%nat) 8 with
  | Returns ret g => ret = 4 /\ icc_mutex g = false
  | Blocks => False
  end.
Proof. vm_compute. auto. Qed.

End EntryPoint.

(** ** The ioctl *)

Section Ioctl.

Import Icc.

Lemma to_u8_range (x : Z) : 0 <= to_u8 x < 256.
Proof. unfold to_u8. change (2 ^ 8) with 256. apply Z.mod_pos_bound. lia. Qed.






End Ioctl.

(** * Further properties of the transport *)

(** ** What the interrupt handler does with a frame *)

Section ReactorCases.

Import Icc IccFacts.

Lemma handle_message_taken (cfg : icc_config) (sc : apcie_dev) :
  accepts cfg sc ->
  handle_message cfg sc
  = emit (mk_dev (request sc) (inbound sc) false (reply_buffer sc)
            (Z.min (reply_length sc) (Hdr.length (inbound sc) - ICC_HDR_SIZE))
            (checksum_loop
               (slot_bytes (spm_reply sc)
                  (ICC_HDR_SIZE
                   + Z.min (reply_length sc)
                           (Hdr.length (inbound sc) - ICC_HDR_SIZE))
                  (Hdr.length (inbound sc)
                   - (ICC_HDR_SIZE
                      + Z.min (reply_length sc)
                              (Hdr.length (inbound sc) - ICC_HDR_SIZE)))) 0)
            (spm_request sc) (spm_reply sc)
            (memcpy_to (mem sc) (reply_buffer sc)
               (slot_bytes (spm_reply sc) ICC_HDR_SIZE
                  (Z.min (reply_length sc)
                         (Hdr.length (inbound sc) - ICC_HDR_SIZE))))
            (trace sc))
         Wake_up.
Proof.
  intros (He & Hf & Hev & Hrep & Hmagic & Hpend & Hcookie & Hlen).
  unfold handle_message. cbv zeta.
  change (hdr_of_bytes (slot_bytes (spm_reply sc) 0 ICC_HDR_SIZE))
    with (inbound sc).
  rewrite He, Hf.
  change (negb (0 =? 0) || negb (1 =? 1)) with false. cbv iota.
  rewrite Hev. change (negb (0 =? 0)) with false. cbv iota.
  destruct (Z.eqb_spec (Z.land (Hdr.minor (inbound sc)) (ICC_REPLY cfg)) 0)
    as [E|_]; [contradiction|]. cbn [negb].
  rewrite Hmagic, Z.eqb_refl, Hpend, Hcookie, Z.eqb_refl. cbn [negb].
  destruct (Z.ltb_spec (Hdr.length (inbound sc)) ICC_HDR_SIZE) as [E|_]; [lia|].
  destruct (Z.gtb_spec (Hdr.length (inbound sc)) (ICC_MAX_SIZE cfg)) as [E|_];
    [lia|].
  reflexivity.
Qed.

Ltac dropped :=
  unfold handle_event;
  repeat match goal with
         | |- context [if ?c then _ else _] => destruct c
         end;
  (split; [reflexivity|]);
  unfold dump_message, sc_err, emit; cbn [trace];
  rewrite <- ?app_assoc; eexists; (split; [reflexivity|]);
  cbn; intuition discriminate.

Lemma handle_message_dropped (cfg : icc_config) (sc : apcie_dev) :
  ~ accepts cfg sc ->
  mailbox (handle_message cfg sc) = mailbox sc /\
  exists evs,
    trace (handle_message cfg sc) = trace sc ++ evs /\ ~ In Wake_up evs.
Proof.
  intros Hno. unfold handle_message. cbv zeta.
  change (hdr_of_bytes (slot_bytes (spm_reply sc) 0 ICC_HDR_SIZE))
    with (inbound sc).
  destruct (Z.eqb_spec (buf_empty (spm_reply sc)) 0) as [He|He];
    [|cbn [negb orb]; dropped].
  destruct (Z.eqb_spec (buf_full (spm_reply sc)) 1) as [Hf|Hf];
    [|cbn [negb orb]; dropped].
  cbn [negb orb].
  destruct (Z.eqb_spec (Z.land (Hdr.minor (inbound sc)) (ICC_EVENT cfg)) 0)
    as [Hev|Hev]; [|cbn [negb]; dropped].
  cbn [negb].
  destruct (Z.eqb_spec (Z.land (Hdr.minor (inbound sc)) (ICC_REPLY cfg)) 0)
    as [Hrep|Hrep]; [cbn [negb]; dropped|].
  cbn [negb].
  destruct (Z.eqb_spec (Hdr.magic (inbound sc)) (ICC_MAGIC cfg))
    as [Hmagic|Hmagic]; [|cbn [negb]; dropped].
  cbn [negb].
  destruct (reply_pending sc) eqn:Hpend; [|cbn [negb]; dropped].
  cbn [negb].
  destruct (Z.eqb_spec (Hdr.cookie (inbound sc)) (Hdr.cookie (request sc)))
    as [Hcookie|Hcookie]; [|cbn [negb]; dropped].
  cbn [negb].
  destruct (Z.ltb_spec (Hdr.length (inbound sc)) ICC_HDR_SIZE) as [Hlo|Hlo];
    [cbn [orb]; dropped|].
  destruct (Z.gtb_spec (Hdr.length (inbound sc)) (ICC_MAX_SIZE cfg)) as [Hhi|Hhi];
    [cbn [orb]; dropped|].
  exfalso. apply Hno. unfold accepts. repeat split; try assumption; lia.
Qed.

Lemma accepts_dec (cfg : icc_config) (sc : apcie_dev) :
  accepts cfg sc \/ ~ accepts cfg sc.
Proof.
  unfold accepts.
  destruct (Z.eq_dec (buf_empty (spm_reply sc)) 0); [|tauto].
  destruct (Z.eq_dec (buf_full (spm_reply sc)) 1); [|tauto].
  destruct (Z.eq_dec (Z.land (Hdr.minor (inbound sc)) (ICC_EVENT cfg)) 0);
    [|tauto].
  destruct (Z.eq_dec (Z.land (Hdr.minor (inbound sc)) (ICC_REPLY cfg)) 0);
    [tauto|].
  destruct (Z.eq_dec (Hdr.magic (inbound sc)) (ICC_MAGIC cfg)); [|tauto].
  destruct (reply_pending sc); [|right; intros H; decompose [and] H; discriminate].
  destruct (Z.eq_dec (Hdr.cookie (inbound sc)) (Hdr.cookie (request sc)));
    [|tauto].
  destruct (Z_le_dec ICC_HDR_SIZE (Hdr.length (inbound sc))); [|tauto].
  destruct (Z_le_dec (Hdr.length (inbound sc)) (ICC_MAX_SIZE cfg)); [|tauto].
  left. tauto.
Qed.

(** X1.  [handle_message] takes the frame in the reply half exactly when
    the slot is full, the frame is a reply and not an event, carries the
    reply magic and the cookie of the outstanding request, a reply is
    pending and the length is within bounds: then it saves the header,
    clears the pending flag and wakes the waiter.  In every other case the
    mailbox and the callers' memory stay as they are and nobody is woken.
    It never sets the pending flag. *)
Theorem handle_message_cases (cfg : icc_config) (sc : apcie_dev) :
  (accepts cfg sc ->
   reply_pending (handle_message cfg sc) = false /\
   reply (handle_message cfg sc) = inbound sc /\
   request (handle_message cfg sc) = request sc /\
   reply_length (handle_message cfg sc)
   = Z.min (reply_length sc) (Hdr.length (inbound sc) - ICC_HDR_SIZE) /\
   trace (handle_message cfg sc) = trace sc ++ [Wake_up]) /\
  (~ accepts cfg sc ->
   mailbox (handle_message cfg sc) = mailbox sc /\
   exists evs,
     trace (handle_message cfg sc) = trace sc ++ evs /\ ~ In Wake_up evs) /\
  (reply_pending (handle_message cfg sc) = true -> reply_pending sc = true).
Proof.
  split; [|split].
  - intros H. rewrite (handle_message_taken cfg sc H). repeat split.
  - apply handle_message_dropped.
  - intros Hp. destruct (accepts_dec cfg sc) as [H|H].
    + rewrite (handle_message_taken cfg sc H) in Hp. discriminate.
    + destruct (handle_message_dropped cfg sc H) as [Hbox _].
      apply (f_equal (fun m => snd (fst (fst (fst (fst m)))))) in Hbox.
      cbn in Hbox. congruence.
Qed.

End ReactorCases.

(** ** Events, and what the handler writes *)

Section ReactorEvents.

Import Icc IccFacts.

Lemma land_shifted_low (a b : Z) :
  0 <= b < 2 ^ 16 -> Z.land (a * 2 ^ 16) b = 0.
Proof.
  intros Hb. apply Z.bits_inj'. intros n Hn.
  rewrite Z.land_spec, Z.bits_0.
  destruct (Z.lt_ge_cases n 16) as [Hlt|Hge].
  - rewrite Z.mul_pow2_bits_low by lia. reflexivity.
  - destruct (Z.eq_dec b 0) as [->|Hnz].
    + rewrite Z.bits_0. apply andb_false_r.
    + rewrite (Z.bits_above_log2 b n); [apply andb_false_r | lia |].
      assert (Z.log2 b < 16) by (apply Z.log2_lt_pow2; lia). lia.
Qed.

Lemma lor_shiftl_16 (a b : Z) :
  0 <= a -> 0 <= b < 2 ^ 16 -> Z.lor (Z.shiftl a 16) b = a * 2 ^ 16 + b.
Proof.
  intros Ha Hb. rewrite Z.shiftl_mul_pow2 by lia.
  pose proof (land_shifted_low a b Hb) as H0.
  rewrite <- (Z.lxor_lor _ _ H0). symmetry.
  apply Z.add_nocarry_lxor. exact H0.
Qed.

Lemma le16_range (b0 b1 : Z) : 0 <= le16 b0 b1 < 2 ^ 16.
Proof.
  unfold le16. pose proof (to_u8_range b0). pose proof (to_u8_range b1). lia.
Qed.

Lemma inbound_wf (sc : apcie_dev) : Hdr.wf (inbound sc).
Proof.
  unfold inbound, hdr_of_bytes, Hdr.wf. cbn [Hdr.magic Hdr.major Hdr.minor
    Hdr.unknown Hdr.cookie Hdr.length Hdr.checksum].
  change (2 ^ 8) with 256.
  repeat split; try apply to_u8_range; apply le16_range.
Qed.

(** X2.  An event frame (event flag set in [minor], whatever its other
    flags and its cookie) with the event magic is dispatched by its key:
    major 8 with minor 0x8010 reports the power button pressed, major 8
    with minor 0x8011 reports it released, any other event is logged.
    With another magic it is logged and dropped.  In no case does an event
    change the mailbox, even while a reply is pending. *)
Theorem event_dispatch (cfg : icc_config) (sc : apcie_dev) :
  buf_empty (spm_reply sc) = 0 ->
  buf_full (spm_reply sc) = 1 ->
  Z.land (Hdr.minor (inbound sc)) (ICC_EVENT cfg) <> 0 ->
  mailbox (handle_message cfg sc) = mailbox sc /\
  (Hdr.magic (inbound sc) = ICC_EVENT_MAGIC cfg ->
   trace (handle_message cfg sc)
   = trace sc ++
     (if (Hdr.major (inbound sc) =? 8) && (Hdr.minor (inbound sc) =? 0x8010)
      then [Pwrbutton_trigger 1]
      else if (Hdr.major (inbound sc) =? 8)
              && (Hdr.minor (inbound sc) =? 0x8011)
           then [Pwrbutton_trigger 0]
           else [Sc_err "icc: event arrived, not yet supported.";
                 Dump_message])) /\
  (Hdr.magic (inbound sc) <> ICC_EVENT_MAGIC cfg ->
   trace (handle_message cfg sc)
   = trace sc ++ [Sc_err "icc: event has bad magic"; Dump_message]).
Proof.
  intros He Hf Hev.
  assert (Hno : ~ accepts cfg sc)
    by (intros (_ & _ & H & _); contradiction).
  split; [apply (handle_message_dropped cfg sc Hno)|].
  unfold handle_message. cbv zeta.
  change (hdr_of_bytes (slot_bytes (spm_reply sc) 0 ICC_HDR_SIZE))
    with (inbound sc).
  rewrite He, Hf.
  change (negb (0 =? 0) || negb (1 =? 1)) with false. cbv iota.
  destruct (Z.eqb_spec (Z.land (Hdr.minor (inbound sc)) (ICC_EVENT cfg)) 0)
    as [E|_]; [contradiction|]. cbn [negb].
  destruct (inbound_wf sc) as (_ & Hmaj & Hmin & _).
  split; intros Hmagic.
  - rewrite Hmagic, Z.eqb_refl. cbn [negb]. unfold handle_event.
    rewrite lor_shiftl_16 by lia.
    destruct (Z.eqb_spec (Hdr.major (inbound sc)) 8) as [H8|H8];
      destruct (Z.eqb_spec (Hdr.minor (inbound sc)) 0x8010) as [Hp|Hp];
      destruct (Z.eqb_spec (Hdr.minor (inbound sc)) 0x8011) as [Hr|Hr];
      cbn [andb];
      destruct (Z.eqb_spec (Hdr.major (inbound sc) * 2 ^ 16
                            + Hdr.minor (inbound sc)) 0x088010) as [K1|K1];
      destruct (Z.eqb_spec (Hdr.major (inbound sc) * 2 ^ 16
                            + Hdr.minor (inbound sc)) 0x088011) as [K2|K2];
      try lia; unfold dump_message, sc_err, emit; cbn [trace];
      rewrite <- ?app_assoc; reflexivity.
  - destruct (Z.eqb_spec (Hdr.magic (inbound sc)) (ICC_EVENT_MAGIC cfg))
      as [E|_]; [contradiction|]. cbn [negb].
    unfold dump_message, sc_err, emit; cbn [trace].
    rewrite <- app_assoc. reflexivity.
Qed.

Lemma length_overwrite (src buf : list Z) :
  (length src <= length buf)%nat -> length (overwrite src buf) = length buf.
Proof.
  intros H. unfold overwrite. rewrite length_app, length_skipn. lia.
Qed.

Lemma slot_bytes_length (s : icc_slot) (off n : Z) :
  (length (slot_bytes s off n) <= Z.to_nat n)%nat.
Proof.
  unfold slot_bytes. rewrite length_firstn. lia.
Qed.

(** X3.  Whatever frame is in the reply half, [handle_message] writes to
    memory only through the saved reply pointer and only while a reply is
    pending; and when the saved capacity does not exceed the size of the
    buffer it points to, the buffer keeps its size: the copy stays within
    the caller's buffer however long the frame claims to be. *)
Theorem handle_message_writes_in_bounds (cfg : icc_config) (sc : apcie_dev) :
  (forall b, reply_buffer sc <> Some b ->
             mem (handle_message cfg sc) b = mem sc b) /\
  (forall a, reply_buffer sc = Some a ->
             0 <= reply_length sc <= Z.of_nat (length (mem sc a)) ->
             length (mem (handle_message cfg sc) a) = length (mem sc a)) /\
  (reply_pending sc = false -> mem (handle_message cfg sc) = mem sc).
Proof.
  destruct (accepts_dec cfg sc) as [H|H].
  - rewrite (handle_message_taken cfg sc H). cbn [emit mem].
    destruct H as (_ & _ & _ & _ & _ & Hpend & _ & Hlen).
    split; [|split].
    + intros b Hb. unfold memcpy_to, heap_store.
      destruct (reply_buffer sc) as [a|]; [|reflexivity].
      destruct (Nat.eqb_spec a b); [congruence | reflexivity].
    + intros a Ha Hcap. rewrite Ha. unfold memcpy_to, heap_store.
      rewrite Nat.eqb_refl. apply length_overwrite.
      pose proof (slot_bytes_length (spm_reply sc) ICC_HDR_SIZE
                    (Z.min (reply_length sc)
                           (Hdr.length (inbound sc) - ICC_HDR_SIZE))).
      lia.
    + congruence.
  - destruct (handle_message_dropped cfg sc H) as [Hbox _].
    apply (f_equal snd) in Hbox. cbn [mailbox snd] in Hbox.
    rewrite Hbox. repeat split; reflexivity.
Qed.

End ReactorEvents.

(** ** The interrupt handler *)

Section Interrupt.

Import Icc IccFacts.

Lemma handle_message_keeps_slots (cfg : icc_config) (sc : apcie_dev) :
  spm_reply (handle_message cfg sc) = spm_reply sc /\
  spm_request (handle_message cfg sc) = spm_request sc /\
  doorbell_acks (trace (handle_message cfg sc)) = doorbell_acks (trace sc).
Proof.
  unfold handle_message, handle_event. cbv zeta.
  repeat match goal with
         | |- context [if ?c then _ else _] => destruct c
         end;
    unfold dump_message, sc_err, emit, doorbell_acks;
    cbn [spm_reply spm_request trace];
    rewrite ?filter_app; cbn [filter is_doorbell_ack];
    rewrite ?app_nil_r; repeat split; reflexivity.
Qed.

Lemma doorbell_acks_emit (sc : apcie_dev) (e : event) :
  doorbell_acks (trace (emit sc e))
  = (doorbell_acks (trace sc) + if is_doorbell_ack e then 1 else 0)%nat.
Proof.
  unfold doorbell_acks, emit. cbn [trace]. rewrite filter_app, length_app.
  cbn [filter]. destruct (is_doorbell_ack e); reflexivity.
Qed.

(** One pass of the loop. *)
Lemma icc_interrupt_body_spec (cfg : icc_config) (st : Z) (sc : apcie_dev)
  (ret : Z) :
  snd (icc_interrupt_body cfg st (sc, ret))
  = (if has_bit st APCIE_ICC_ACK || has_bit st APCIE_ICC_SEND
     then IRQ_HANDLED else ret) /\
  doorbell_acks (trace (fst (icc_interrupt_body cfg st (sc, ret))))
  = (doorbell_acks (trace sc)
     + if has_bit st APCIE_ICC_SEND then 1 else 0)%nat /\
  spm_request (fst (icc_interrupt_body cfg st (sc, ret))) = spm_request sc /\
  buf_data (spm_reply (fst (icc_interrupt_body cfg st (sc, ret))))
  = buf_data (spm_reply sc) /\
  (if has_bit st APCIE_ICC_SEND
   then buf_empty (spm_reply (fst (icc_interrupt_body cfg st (sc, ret)))) = 1
        /\ buf_full (spm_reply (fst (icc_interrupt_body cfg st (sc, ret)))) = 0
   else spm_reply (fst (icc_interrupt_body cfg st (sc, ret))) = spm_reply sc) /\
  (has_bit st APCIE_ICC_ACK || has_bit st APCIE_ICC_SEND = false ->
   fst (icc_interrupt_body cfg st (sc, ret)) = sc).
Proof.
  unfold icc_interrupt_body, has_bit.
  destruct (negb (Z.land st APCIE_ICC_ACK =? 0));
    destruct (negb (Z.land st APCIE_ICC_SEND =? 0)); cbn [orb fst snd];
    repeat match goal with
           | |- context [handle_message cfg ?s] =>
               let H := fresh in
               pose proof (handle_message_keeps_slots cfg s) as H;
               destruct H as (? & ? & ?);
               generalize dependent (handle_message cfg s); intros
           end;
    unfold iowrite32 in *;
    cbn [set_spm_reply spm_reply spm_request buf_data buf_empty buf_full
         trace emit] in *;
    unfold doorbell_acks in *;
    rewrite ?filter_app, ?length_app in *;
    cbn [filter is_doorbell_ack length] in *;
    repeat split; try reflexivity; try congruence; try discriminate;
    try (vm_compute Z.eqb in *; cbn [andb filter length] in *; lia).
Qed.

Lemma has_bit_zero (bit : Z) : has_bit 0 bit = false.
Proof. reflexivity. Qed.

Lemma icc_interrupt_loop_spec (cfg : icc_config) (statuses : list Z) :
  forall (sc : apcie_dev) (ret : Z),
  snd (icc_interrupt_loop cfg statuses (sc, ret))
  = (if existsb (fun st => has_bit st APCIE_ICC_ACK
                           || has_bit st APCIE_ICC_SEND)
                (processed statuses)
     then IRQ_HANDLED else ret) /\
  doorbell_acks (trace (fst (icc_interrupt_loop cfg statuses (sc, ret))))
  = (doorbell_acks (trace sc)
     + length (filter (fun st => has_bit st APCIE_ICC_SEND)
                      (processed statuses)))%nat /\
  spm_request (fst (icc_interrupt_loop cfg statuses (sc, ret)))
  = spm_request sc /\
  buf_data (spm_reply (fst (icc_interrupt_loop cfg statuses (sc, ret))))
  = buf_data (spm_reply sc) /\
  (if existsb (fun st => has_bit st APCIE_ICC_SEND) (processed statuses)
   then buf_empty (spm_reply (fst (icc_interrupt_loop cfg statuses (sc, ret))))
        = 1
        /\ buf_full (spm_reply (fst (icc_interrupt_loop cfg statuses (sc, ret))))
           = 0
   else spm_reply (fst (icc_interrupt_loop cfg statuses (sc, ret)))
        = spm_reply sc) /\
  (existsb (fun st => has_bit st APCIE_ICC_ACK || has_bit st APCIE_ICC_SEND)
           (processed statuses) = false ->
   fst (icc_interrupt_loop cfg statuses (sc, ret)) = sc).
Proof.
  induction statuses as [|st rest IH]; intros sc ret.
  - cbn. repeat split; try reflexivity; lia.
  - cbn [icc_interrupt_loop processed].
    destruct (icc_interrupt_body_spec cfg st sc ret)
      as (Hret & Hack & Hreq & Hdata & Hslot & Hsame).
    destruct (icc_interrupt_body cfg st (sc, ret)) as [sc1 ret1] eqn:Hbody.
    cbn [fst snd] in *.
    destruct (Z.eqb_spec st 0) as [->|Hnz].
    + cbn [existsb filter fst snd] in *. rewrite !has_bit_zero in *.
      cbn [orb length] in *.
      split; [exact Hret|]. split; [rewrite Hack; lia|].
      split; [exact Hreq|]. split; [exact Hdata|]. split; [exact Hslot|].
      intros _. apply Hsame. reflexivity.
    + specialize (IH sc1 ret1).
      destruct IH as (IHret & IHack & IHreq & IHdata & IHslot & IHsame).
      cbn [existsb filter].
      split; [|split; [|split; [|split; [|split]]]].
      * rewrite IHret, Hret.
        destruct (has_bit st APCIE_ICC_ACK || has_bit st APCIE_ICC_SEND);
          cbn [orb]; [|reflexivity].
        destruct (existsb (fun st0 => has_bit st0 APCIE_ICC_ACK
                                      || has_bit st0 APCIE_ICC_SEND)
                          (processed rest)); reflexivity.
      * rewrite IHack, Hack.
        destruct (has_bit st APCIE_ICC_SEND); cbn [length]; lia.
      * congruence.
      * congruence.
      * destruct (has_bit st APCIE_ICC_SEND); cbn [orb].
        -- destruct (existsb (fun st0 => has_bit st0 APCIE_ICC_SEND)
                             (processed rest)); [exact IHslot|].
           rewrite IHslot. exact Hslot.
        -- destruct (existsb (fun st0 => has_bit st0 APCIE_ICC_SEND)
                             (processed rest)); [exact IHslot|]. congruence.
      * intros Hnone. apply orb_false_iff in Hnone. destruct Hnone as [H1 H2].
        rewrite (IHsame H2). apply Hsame. exact H1.
Qed.

(** X4.  [icc_interrupt] reports the interrupt as handled exactly when one
    of the status words it read had the ACK or the SEND bit set; when none
    had, it leaves the device untouched and returns [IRQ_NONE], as a
    handler on a shared line must. *)
Theorem icc_interrupt_return (cfg : icc_config) (statuses : list Z)
  (sc : apcie_dev) :
  snd (icc_interrupt cfg statuses sc)
  = (if existsb (fun st => has_bit st APCIE_ICC_ACK
                           || has_bit st APCIE_ICC_SEND)
                (processed statuses)
     then IRQ_HANDLED else IRQ_NONE) /\
  (existsb (fun st => has_bit st APCIE_ICC_ACK || has_bit st APCIE_ICC_SEND)
           (processed statuses) = false ->
   fst (icc_interrupt cfg statuses sc) = sc).
Proof.
  unfold icc_interrupt.
  destruct (icc_interrupt_loop_spec cfg statuses sc IRQ_NONE)
    as (H1 & _ & _ & _ & _ & H2).
  split; assumption.
Qed.

(** X5.  For every status word with the SEND bit that [icc_interrupt]
    reads, it acknowledges one frame on the doorbell, whether or not the
    frame was valid; if there was one, the reply half is left marked empty
    and not full.  The handler never changes the bytes of the reply half
    nor the request half. *)
Theorem icc_interrupt_returns_slot (cfg : icc_config) (statuses : list Z)
  (sc : apcie_dev) :
  doorbell_acks (trace (fst (icc_interrupt cfg statuses sc)))
  = (doorbell_acks (trace sc)
     + length (filter (fun st => has_bit st APCIE_ICC_SEND)
                      (processed statuses)))%nat /\
  (existsb (fun st => has_bit st APCIE_ICC_SEND) (processed statuses) = true ->
   buf_empty (spm_reply (fst (icc_interrupt cfg statuses sc))) = 1 /\
   buf_full (spm_reply (fst (icc_interrupt cfg statuses sc))) = 0) /\
  buf_data (spm_reply (fst (icc_interrupt cfg statuses sc)))
  = buf_data (spm_reply sc) /\
  spm_request (fst (icc_interrupt cfg statuses sc)) = spm_request sc.
Proof.
  unfold icc_interrupt.
  destruct (icc_interrupt_loop_spec cfg statuses sc IRQ_NONE)
    as (_ & H1 & H2 & H3 & H4 & _).
  split; [exact H1|]. split; [|split; assumption].
  intros Hsend. rewrite Hsend in H4. exact H4.
Qed.

End Interrupt.

(** ** The request path *)

Section RequestPath.

Import Icc IccFacts.

(** X6.  A payload longer than [ICC_MAX_PAYLOAD] is refused with [-E2BIG]
    before anything is touched: the device state, cookie included, is as
    before, and nothing is written or rung. *)
Theorem icc_cmd_too_big (cfg : icc_config) (env : wait_env) (sc : apcie_dev)
  (major minor : Z) (data : option ptr) (length : Z) (reply : option ptr)
  (cap : Z) (intr : bool) :
  ICC_MAX_PAYLOAD cfg < to_u16 length ->
  _apcie_icc_cmd cfg env sc major minor data length reply cap intr
  = (- E2BIG, sc).
Proof.
  intros H. unfold _apcie_icc_cmd, icc_cmd_submit.
  destruct (Z.gtb_spec (to_u16 length) (ICC_MAX_PAYLOAD cfg)) as [_|E]; [|lia].
  reflexivity.
Qed.

(** X7.  When the request half is not idle the call fails with [-EIO]
    without waiting: the request half, the pending flag and memory are
    untouched and the doorbell is not rung, only the busy line is logged.
    The request header has been rebuilt all the same, so the refused call
    has used up a cookie, and the caller's reply pointer stays saved. *)
Theorem icc_cmd_busy (cfg : icc_config) (env : wait_env) (sc : apcie_dev)
  (major minor : Z) (data : option ptr) (length : Z) (reply : option ptr)
  (cap : Z) (intr : bool) :
  to_u16 length <= ICC_MAX_PAYLOAD cfg ->
  buf_empty (spm_request sc) <> 1 \/ buf_full (spm_request sc) <> 0 ->
  fst (_apcie_icc_cmd cfg env sc major minor data length reply cap intr)
  = - EIO /\
  spm_request (snd (_apcie_icc_cmd cfg env sc major minor data length reply
                                   cap intr)) = spm_request sc /\
  reply_pending (snd (_apcie_icc_cmd cfg env sc major minor data length reply
                                     cap intr)) = reply_pending sc /\
  mem (snd (_apcie_icc_cmd cfg env sc major minor data length reply cap intr))
  = mem sc /\
  trace (snd (_apcie_icc_cmd cfg env sc major minor data length reply cap
                             intr))
  = trace sc ++ [Sc_err "icc: request buffer is busy"] /\
  Hdr.cookie (request (snd (_apcie_icc_cmd cfg env sc major minor data length
                                           reply cap intr)))
  = to_u16 (Hdr.cookie (request sc) + 1) /\
  reply_buffer (snd (_apcie_icc_cmd cfg env sc major minor data length reply
                                    cap intr)) = reply.
Proof.
  intros Hlen Hbusy. unfold _apcie_icc_cmd, icc_cmd_submit.
  destruct (Z.gtb_spec (to_u16 length) (ICC_MAX_PAYLOAD cfg)) as [E|_]; [lia|].
  cbv zeta. cbn [spm_request buf_empty buf_full].
  assert (Hb : negb (buf_empty (spm_request sc) =? 1)
               || negb (buf_full (spm_request sc) =? 0) = true).
  { destruct (Z.eqb_spec (buf_empty (spm_request sc)) 1);
      destruct (Z.eqb_spec (buf_full (spm_request sc)) 0);
      try reflexivity. destruct Hbusy; contradiction. }
  rewrite Hb. cbn [fst snd]. unfold sc_err, emit.
  cbn [spm_request reply_pending mem trace request reply_buffer].
  repeat split. unfold request_hdr, request_hdr0.
  destruct (Hdr.length _ <? ICC_MIN_SIZE cfg); reflexivity.
Qed.

Lemma request_hdr_wf (cfg : icc_config) (sc : apcie_dev) (major minor length : Z)
  (payload : list Z) :
  0 <= Hdr.unknown (request sc) < 2 ^ 16 ->
  Hdr.wf (request_hdr cfg sc (to_u8 major) (to_u16 minor) length payload).
Proof.
  intros Hu. unfold request_hdr, request_hdr0, Hdr.wf.
  destruct (Hdr.length _ <? ICC_MIN_SIZE cfg);
    cbn [Hdr.set_checksum Hdr.set_length Hdr.magic Hdr.major Hdr.minor
         Hdr.unknown Hdr.cookie Hdr.length Hdr.checksum];
    change (2 ^ 8) with 256;
    repeat split; try apply to_u8_range; try apply to_u16_range;
    try apply Hu.
Qed.

Lemma load_length (m : heap) (sc : apcie_dev) (data : option ptr) (length : Z) :
  mem sc = m ->
  data_ok sc data length ->
  List.length (load m data (to_u16 length)) = Z.to_nat (to_u16 length).
Proof.
  intros <- H. unfold load, data_ok in *. destruct data as [a|].
  - rewrite length_firstn. lia.
  - rewrite H. reflexivity.
Qed.

(** X8.  When the request goes out, the request half is marked not empty
    and full and holds the frame: decoding its first twelve bytes gives
    back the saved request header, whose cookie is the previous cookie
    plus one modulo 2^16 and whose major and minor are the caller's, and
    the bytes after the header are the caller's payload.  The doorbell is
    rung exactly once, with SEND: that write is all the call adds to the
    trace up to the wait. *)
Theorem request_frame_round_trip (cfg : icc_config) (sc : apcie_dev)
  (major minor : Z) (data : option ptr) (length : Z) (reply : option ptr)
  (cap : Z) :
  can_send cfg sc length ->
  data_ok sc data length ->
  0 <= Hdr.unknown (request sc) < 2 ^ 16 ->
  buf_empty (spm_request (submitted cfg sc major minor data length reply cap))
  = 0 /\
  buf_full (spm_request (submitted cfg sc major minor data length reply cap))
  = 1 /\
  hdr_of_bytes
    (buf_data (spm_request (submitted cfg sc major minor data length reply
                                      cap)))
  = request (submitted cfg sc major minor data length reply cap) /\
  Hdr.cookie (request (submitted cfg sc major minor data length reply cap))
  = to_u16 (Hdr.cookie (request sc) + 1) /\
  Hdr.major (request (submitted cfg sc major minor data length reply cap))
  = to_u8 major /\
  Hdr.minor (request (submitted cfg sc major minor data length reply cap))
  = to_u16 minor /\
  slot_bytes (spm_request (submitted cfg sc major minor data length reply cap))
             ICC_HDR_SIZE (to_u16 length)
  = load (mem sc) data (to_u16 length) /\
  trace (submitted cfg sc major minor data length reply cap)
  = trace sc ++ [Iowrite32 APCIE_ICC_SEND APCIE_REG_ICC_DOORBELL].
Proof.
  intros Hsend Hdata Hu.
  destruct (submit_ok cfg sc major minor data length reply cap Hsend)
    as (_ & Hbox & Htrace).
  pose proof (load_length (mem sc) sc data length eq_refl Hdata) as Hload.
  pose proof (request_hdr_wf cfg sc major minor (to_u16 length)
                (load (mem sc) data (to_u16 length)) Hu) as Hwf.
  destruct Hsend as (Hlen & He & Hf).
  assert (Hslot :
    spm_request (submitted cfg sc major minor data length reply cap)
    = mk_slot 0 1
        (overwrite
           (request_frame cfg sc (to_u8 major) (to_u16 minor) (to_u16 length)
              (load (mem sc) data (to_u16 length)))
           (buf_data (spm_request sc)))).
  { unfold submitted, icc_cmd_submit.
    destruct (Z.gtb_spec (to_u16 length) (ICC_MAX_PAYLOAD cfg)) as [E|_];
      [lia|].
    cbv zeta. cbn [spm_request buf_empty buf_full]. rewrite He, Hf.
    change (negb (1 =? 1) || negb (0 =? 0)) with false. cbv iota.
    reflexivity. }
  unfold mailbox in Hbox. injection Hbox as Hreq _ _ _ _ _ _.
  rewrite Hslot, Hreq. cbn [buf_empty buf_full buf_data].
  split; [reflexivity|]. split; [reflexivity|]. split.
  { unfold overwrite, request_frame. rewrite <- !app_assoc.
    apply hdr_roundtrip. exact Hwf. }
  split.
  { unfold request_hdr, request_hdr0.
    destruct (Hdr.length _ <? ICC_MIN_SIZE cfg); reflexivity. }
  split.
  { unfold request_hdr, request_hdr0.
    destruct (Hdr.length _ <? ICC_MIN_SIZE cfg); reflexivity. }
  split.
  { unfold request_hdr, request_hdr0.
    destruct (Hdr.length _ <? ICC_MIN_SIZE cfg); reflexivity. }
  split; [|exact Htrace].
  unfold slot_bytes, overwrite, request_frame. cbn [buf_data].
  rewrite <- !app_assoc.
  change (Z.to_nat ICC_HDR_SIZE)
    with (List.length (hdr_bytes
            (request_hdr cfg sc (to_u8 major) (to_u16 minor) (to_u16 length)
               (load (mem sc) data (to_u16 length)))) + 0)%nat.
  rewrite skipn_app_length. cbn [skipn].
  rewrite <- Hload. apply firstn_length_app.
Qed.

(** X9.  With consistent constants (the minimum payload is the minimum
    frame less the header, and lengths fit 16 bits), the length field of a
    transmitted request is the larger of header plus payload and the
    minimum frame size, and exactly that many bytes are written to the
    request half: the zero padding fills a short frame up to the length it
    announces. *)
Theorem request_frame_length (cfg : icc_config) (sc : apcie_dev)
  (major minor : Z) (data : option ptr) (length : Z) :
  config_ok cfg ->
  to_u16 length <= ICC_MAX_PAYLOAD cfg ->
  data_ok sc data length ->
  Hdr.length (request_hdr cfg sc (to_u8 major) (to_u16 minor) (to_u16 length)
                (load (mem sc) data (to_u16 length)))
  = Z.max (ICC_HDR_SIZE + to_u16 length) (ICC_MIN_SIZE cfg) /\
  Z.of_nat (List.length
              (request_frame cfg sc (to_u8 major) (to_u16 minor)
                 (to_u16 length) (load (mem sc) data (to_u16 length))))
  = Hdr.length (request_hdr cfg sc (to_u8 major) (to_u16 minor)
                  (to_u16 length) (load (mem sc) data (to_u16 length))).
Proof.
  intros (Hmin & Hsize & Hmax) Hlen Hdata.
  pose proof (load_length (mem sc) sc data length eq_refl Hdata) as Hload.
  pose proof (to_u16_range length) as Hr.
  assert (Hfield :
    Hdr.length (request_hdr cfg sc (to_u8 major) (to_u16 minor) (to_u16 length)
                  (load (mem sc) data (to_u16 length)))
    = Z.max (ICC_HDR_SIZE + to_u16 length) (ICC_MIN_SIZE cfg)).
  { unfold request_hdr, request_hdr0.
    cbn [Hdr.length Hdr.set_checksum].
    unfold ICC_HDR_SIZE in *.
    rewrite (to_u16_small (12 + to_u16 length)) by lia.
    destruct (Z.ltb_spec (12 + to_u16 length) (ICC_MIN_SIZE cfg));
      cbn [Hdr.length Hdr.set_length Hdr.set_checksum].
    - rewrite to_u16_small by lia. lia.
    - lia. }
  split; [exact Hfield|]. rewrite Hfield.
  unfold request_frame, request_padding. rewrite !length_app, Hload.
  change (List.length (hdr_bytes _)) with 12%nat.
  unfold ICC_HDR_SIZE in *.
  destruct (Z.ltb_spec (to_u16 length) (ICC_MIN_PAYLOAD cfg)).
  - rewrite repeat_length. lia.
  - cbn [List.length]. lia.
Qed.

End RequestPath.

(** ** Outcomes of a request *)

Section Outcomes.

Import Icc IccFacts.

(** [icc_cmd_finish] always leaves the mailbox at rest. *)
Lemma icc_cmd_finish_rest (cfg : icc_config) (sc : apcie_dev) (ret : Z)
  (major minor : Z) (reply : option ptr) :
  reply_pending (snd (icc_cmd_finish cfg sc ret major minor reply)) = false /\
  reply_buffer (snd (icc_cmd_finish cfg sc ret major minor reply)) = None.
Proof.
  unfold icc_cmd_finish. cbn [set_reply_buffer reply_pending].
  destruct (ret <? 0); cbn [orb].
  - split; reflexivity.
  - destruct (reply_pending sc) eqn:Hp.
    + split; reflexivity.
    + cbv zeta.
      repeat match goal with
             | |- context [if ?c then _ else _] => destruct c
             end; split; try reflexivity; exact Hp.
Qed.

(** X10.  However a request that went out ends (reply taken, checksum
    mismatch, wrong major or minor, timeout, signal), on return the
    pending flag is clear and the saved pointer to the caller's buffer is
    NULL: nothing that arrives afterwards can be written through it. *)
Theorem icc_cmd_leaves_mailbox_at_rest (cfg : icc_config) (env : wait_env)
  (sc : apcie_dev) (major minor : Z) (data : option ptr) (length : Z)
  (reply : option ptr) (cap : Z) (intr : bool) :
  can_send cfg sc length ->
  reply_pending (snd (_apcie_icc_cmd cfg env sc major minor data length reply
                                     cap intr)) = false /\
  reply_buffer (snd (_apcie_icc_cmd cfg env sc major minor data length reply
                                    cap intr)) = None.
Proof.
  intros Hsend.
  destruct (submit_ok cfg sc major minor data length reply cap Hsend)
    as (Hsub & _ & _).
  unfold _apcie_icc_cmd. rewrite Hsub. apply icc_cmd_finish_rest.
Qed.

Lemma settled_mailbox (cfg : icc_config) (s s' : apcie_dev) :
  mailbox s' = mailbox s -> settled cfg s -> settled cfg s'.
Proof.
  unfold mailbox, settled. intros H. injection H as _ Hrep Hpend _ _ _ _.
  rewrite Hrep, Hpend. tauto.
Qed.

Lemma settled_handle_message (cfg : icc_config) (sc : apcie_dev) :
  settled cfg sc -> settled cfg (handle_message cfg sc).
Proof.
  intros H. destruct (accepts_dec cfg sc) as [Ha|Ha].
  - rewrite (handle_message_taken cfg sc Ha). right. cbn [emit reply].
    apply Ha.
  - destruct (handle_message_dropped cfg sc Ha) as [Hbox _].
    exact (settled_mailbox cfg sc _ Hbox H).
Qed.

Lemma settled_body (cfg : icc_config) (st : Z) (sc : apcie_dev) (ret : Z) :
  settled cfg sc -> settled cfg (fst (icc_interrupt_body cfg st (sc, ret))).
Proof.
  intros H. unfold icc_interrupt_body.
  destruct (negb (Z.land st APCIE_ICC_ACK =? 0));
    destruct (negb (Z.land st APCIE_ICC_SEND =? 0)); cbn [fst];
    try exact H;
    try (apply (settled_mailbox cfg sc); [reflexivity | exact H]).
  - apply (settled_mailbox cfg
             (handle_message cfg
                (iowrite32 APCIE_ICC_SEND APCIE_REG_ICC_STATUS
                   (iowrite32 APCIE_ICC_ACK APCIE_REG_ICC_STATUS sc))));
      [reflexivity|].
    apply settled_handle_message.
    apply (settled_mailbox cfg sc); [reflexivity | exact H].
  - apply (settled_mailbox cfg
             (handle_message cfg
                (iowrite32 APCIE_ICC_SEND APCIE_REG_ICC_STATUS sc)));
      [reflexivity|].
    apply settled_handle_message.
    apply (settled_mailbox cfg sc); [reflexivity | exact H].
Qed.

Lemma settled_loop (cfg : icc_config) (statuses : list Z) :
  forall sc ret,
  settled cfg sc ->
  settled cfg (fst (icc_interrupt_loop cfg statuses (sc, ret))).
Proof.
  induction statuses as [|st rest IH]; intros sc ret H; [exact H|].
  cbn [icc_interrupt_loop].
  pose proof (settled_body cfg st sc ret H) as Hb.
  destruct (icc_interrupt_body cfg st (sc, ret)) as [sc1 ret1].
  destruct (st =? 0); [exact Hb | apply IH, Hb].
Qed.

Lemma settled_hw_step (cfg : icc_config) (sc : apcie_dev) (e : hw_event) :
  settled cfg sc -> settled cfg (hw_step cfg sc e).
Proof.
  intros H. destruct e as [|slot|statuses]; cbn [hw_step].
  - apply (settled_mailbox cfg sc); [reflexivity | exact H].
  - apply (settled_mailbox cfg sc); [reflexivity | exact H].
  - apply settled_loop, H.
Qed.

Lemma settled_wait (cfg : icc_config) (evs : list hw_event) :
  forall sc, settled cfg sc -> settled cfg (fold_left (hw_step cfg) evs sc).
Proof.
  induction evs as [|e evs IH]; intros sc H; [exact H|].
  cbn [fold_left]. apply IH, settled_hw_step, H.
Qed.

Lemma submit_cases (cfg : icc_config) (sc : apcie_dev) (major minor : Z)
  (data : option ptr) (length : Z) (reply : option ptr) (cap : Z) :
  match icc_cmd_submit cfg sc major minor data length reply cap with
  | inl (ret, _) => ret = - E2BIG \/ ret = - EIO
  | inr sc1 => reply_pending sc1 = true
  end.
Proof.
  unfold icc_cmd_submit.
  destruct (length >? ICC_MAX_PAYLOAD cfg); [left; reflexivity|].
  cbv zeta.
  destruct (negb _ || negb _); [right; reflexivity | reflexivity].
Qed.

Lemma icc_cmd_range_aux (cfg : icc_config) (env : wait_env)
  (sc : apcie_dev) (major minor : Z) (data : option ptr) (length : Z)
  (reply : option ptr) (cap : Z) (intr : bool) :
  fst (_apcie_icc_cmd cfg env sc major minor data length reply cap intr)
  = - E2BIG \/
  fst (_apcie_icc_cmd cfg env sc major minor data length reply cap intr)
  = - EIO \/
  fst (_apcie_icc_cmd cfg env sc major minor data length reply cap intr)
  = - ETIMEDOUT \/
  (fst (_apcie_icc_cmd cfg env sc major minor data length reply cap intr)
   = - EINTR /\ intr = true) \/
  0 <= fst (_apcie_icc_cmd cfg env sc major minor data length reply cap intr)
    <= ICC_MAX_SIZE cfg - ICC_HDR_SIZE.
Proof.
  unfold _apcie_icc_cmd.
  pose proof (submit_cases cfg sc (to_u8 major) (to_u16 minor) data
                (to_u16 length) reply (to_u16 cap)) as Hsub.
  destruct (icc_cmd_submit cfg sc (to_u8 major) (to_u16 minor) data
              (to_u16 length) reply (to_u16 cap)) as [[ret s]|sc1].
  - cbn [fst]. tauto.
  - cbv zeta.
    assert (Hset : settled cfg (icc_cmd_wait cfg env sc1))
      by (apply settled_wait; left; exact Hsub).
    set (sc2 := icc_cmd_wait cfg env sc1) in *.
    assert (Hret : intr = false ->
                   0 <= (if intr
                         then wait_event_interruptible_timeout env
                                (negb (reply_pending sc2))
                         else wait_event_timeout env
                                (negb (reply_pending sc2)))).
    { intros ->. unfold wait_event_timeout.
      destruct (negb (reply_pending sc2)); lia. }
    set (ret := if intr then _ else _) in *.
    unfold icc_cmd_finish. cbn [set_reply_buffer reply_pending].
    destruct (Z.ltb_spec ret 0) as [Hneg|Hpos]; cbn [orb fst].
    + right. right. right. left. split; [reflexivity|].
      destruct intr; [reflexivity|]. specialize (Hret eq_refl). lia.
    + destruct (reply_pending sc2) eqn:Hp.
      * cbn [fst]. destruct (Z.ltb_spec ret 0); [lia|]. tauto.
      * cbv zeta.
        destruct Hset as [Hset|Hset]; [congruence|].
        repeat match goal with
               | |- context [if ?c then _ else _] => destruct c
               end; cbn [fst]; try tauto.
        right. right. right. right.
        cbn [Hdr.length Hdr.set_checksum Icc.reply set_reply_buffer].
        lia.
Qed.

(** X11.  Whatever happens during the wait, [_apcie_icc_cmd] returns
    [-E2BIG], [-EIO], [-ETIMEDOUT], [-EINTR] (the last only from an
    interruptible wait) or a payload length between 0 and
    [ICC_MAX_SIZE - ICC_HDR_SIZE]: a successful call never returns a
    negative or oversized length. *)
Theorem icc_cmd_return_range (cfg : icc_config) (env : wait_env)
  (sc : apcie_dev) (major minor : Z) (data : option ptr) (length : Z)
  (reply : option ptr) (cap : Z) (intr : bool) :
  fst (_apcie_icc_cmd cfg env sc major minor data length reply cap intr)
  = - E2BIG \/
  fst (_apcie_icc_cmd cfg env sc major minor data length reply cap intr)
  = - EIO \/
  fst (_apcie_icc_cmd cfg env sc major minor data length reply cap intr)
  = - ETIMEDOUT \/
  (fst (_apcie_icc_cmd cfg env sc major minor data length reply cap intr)
   = - EINTR /\ intr = true) \/
  0 <= fst (_apcie_icc_cmd cfg env sc major minor data length reply cap intr)
    <= ICC_MAX_SIZE cfg - ICC_HDR_SIZE.
Proof. apply icc_cmd_range_aux. Qed.

Lemma frozen_handle_message (cfg : icc_config) (sc : apcie_dev) :
  reply_pending sc = false ->
  mailbox (handle_message cfg sc) = mailbox sc.
Proof.
  intros Hp. apply handle_message_dropped.
  intros (_ & _ & _ & _ & _ & H & _). congruence.
Qed.

Lemma mailbox_pending (s s' : apcie_dev) :
  mailbox s' = mailbox s -> reply_pending s' = reply_pending s.
Proof.
  unfold mailbox. intros H. injection H as _ _ Hpend _ _ _ _. exact Hpend.
Qed.

Lemma frozen_body (cfg : icc_config) (st : Z) (sc : apcie_dev) (ret : Z) :
  reply_pending sc = false ->
  mailbox (fst (icc_interrupt_body cfg st (sc, ret))) = mailbox sc.
Proof.
  intros Hp. unfold icc_interrupt_body.
  destruct (negb (Z.land st APCIE_ICC_ACK =? 0));
    destruct (negb (Z.land st APCIE_ICC_SEND =? 0)); cbn [fst];
    try reflexivity.
  - change (mailbox (handle_message cfg
                       (iowrite32 APCIE_ICC_SEND APCIE_REG_ICC_STATUS
                          (iowrite32 APCIE_ICC_ACK APCIE_REG_ICC_STATUS sc)))
            = mailbox sc).
    rewrite frozen_handle_message; [reflexivity | exact Hp].
  - change (mailbox (handle_message cfg
                       (iowrite32 APCIE_ICC_SEND APCIE_REG_ICC_STATUS sc))
            = mailbox sc).
    rewrite frozen_handle_message; [reflexivity | exact Hp].
Qed.

Lemma frozen_loop (cfg : icc_config) (statuses : list Z) :
  forall sc ret,
  reply_pending sc = false ->
  mailbox (fst (icc_interrupt_loop cfg statuses (sc, ret))) = mailbox sc.
Proof.
  induction statuses as [|st rest IH]; intros sc ret Hp; [reflexivity|].
  cbn [icc_interrupt_loop].
  pose proof (frozen_body cfg st sc ret Hp) as Hb.
  destruct (icc_interrupt_body cfg st (sc, ret)) as [sc1 ret1].
  cbn [fst] in Hb.
  destruct (st =? 0); [exact Hb|].
  rewrite IH; [exact Hb|]. rewrite (mailbox_pending _ _ Hb). exact Hp.
Qed.

Lemma frozen_wait (cfg : icc_config) (evs : list hw_event) :
  forall sc,
  reply_pending sc = false ->
  mailbox (fold_left (hw_step cfg) evs sc) = mailbox sc.
Proof.
  induction evs as [|e evs IH]; intros sc Hp; [reflexivity|].
  cbn [fold_left].
  assert (Hs : mailbox (hw_step cfg sc e) = mailbox sc).
  { destruct e as [|slot|statuses]; cbn [hw_step]; try reflexivity.
    apply frozen_loop, Hp. }
  rewrite IH; [exact Hs|]. rewrite (mailbox_pending _ _ Hs). exact Hp.
Qed.

(** X12.  While no reply is pending, nothing the other side does (frames
    placed in the reply half, interrupts with any status words, draining
    the request half) changes the mailbox or the callers' memory: replies
    nobody waits for are dropped. *)
Theorem idle_mailbox_frozen (cfg : icc_config) (evs : list hw_event)
  (sc : apcie_dev) :
  reply_pending sc = false ->
  mailbox (fold_left (hw_step cfg) evs sc) = mailbox sc.
Proof. apply frozen_wait. Qed.

(** X13.  After a call has timed out, the reply to it that arrives late,
    valid though it is, is logged as unexpected and dropped: the mailbox
    and the memory of the caller that gave up are not touched. *)
Theorem late_reply_dropped (cfg : icc_config) (env : wait_env)
  (sc : apcie_dev) (major minor : Z) (data : option ptr) (length : Z)
  (reply : option ptr) (cap : Z) (intr : bool) (h : Hdr.t)
  (payload rest : list Z) :
  can_send cfg sc length ->
  reply_pending
    (icc_cmd_wait cfg env (submitted cfg sc major minor data length reply cap))
  = true ->
  expected_reply cfg sc h payload ->
  mailbox
    (handle_message cfg
       (set_spm_reply
          (snd (_apcie_icc_cmd cfg env sc major minor data length reply cap
                               intr))
          (reply_slot h payload rest)))
  = mailbox (snd (_apcie_icc_cmd cfg env sc major minor data length reply cap
                                 intr)) /\
  trace
    (handle_message cfg
       (set_spm_reply
          (snd (_apcie_icc_cmd cfg env sc major minor data length reply cap
                               intr))
          (reply_slot h payload rest)))
  = trace (snd (_apcie_icc_cmd cfg env sc major minor data length reply cap
                               intr))
    ++ [Sc_err "icc: unexpected reply"; Dump_message].
Proof.
  intros Hsend Hpend (Hwf & Hev & Hrep & Hmagic & _).
  rewrite (icc_cmd_unanswered cfg env sc major minor data length reply cap
             intr Hsend Hpend).
  cbn [snd]. set (s := sc_err _ _).
  split; [rewrite frozen_handle_message; reflexivity|].
  unfold handle_message. cbv zeta. cbn [set_spm_reply spm_reply].
  change (buf_empty (reply_slot h payload rest)) with 0.
  change (buf_full (reply_slot h payload rest)) with 1.
  rewrite (reply_slot_hdr _ _ _ Hwf).
  change (negb (0 =? 0) || negb (1 =? 1)) with false. cbv iota.
  rewrite Hev. change (negb (0 =? 0)) with false. cbv iota.
  destruct (Z.eqb_spec (Z.land (Hdr.minor h) (ICC_REPLY cfg)) 0) as [E|_];
    [contradiction|]. cbn [negb].
  rewrite Hmagic, Z.eqb_refl. cbn [negb reply_pending].
  unfold dump_message, sc_err, emit. cbn [trace].
  rewrite <- app_assoc. reflexivity.
Qed.

(** X14.  A request with a NULL reply buffer and capacity zero (as the
    shutdown and reboot commands are sent) whose reply arrives with a
    correct checksum returns the reply's payload length, having verified
    the checksum over the whole payload, and writes nothing to memory. *)
Theorem icc_cmd_null_reply (cfg : icc_config) (sc : apcie_dev)
  (major minor : Z) (data : option ptr) (length : Z) (cap : Z) (intr : bool)
  (h : Hdr.t) (payload rest : list Z) (st : Z) (sg : bool) (jl : Z) :
  can_send cfg sc length ->
  to_u16 cap = 0 ->
  reply_to cfg sc major minor h payload ->
  Hdr.checksum h = frame_checksum h payload ->
  Z.land st APCIE_ICC_SEND <> 0 ->
  fst (_apcie_icc_cmd cfg (answers h payload rest st sg jl) sc major minor
                      data length None cap intr)
  = Hdr.length h - ICC_HDR_SIZE /\
  mem (snd (_apcie_icc_cmd cfg (answers h payload rest st sg jl) sc major
                           minor data length None cap intr))
  = mem sc /\
  reply_extra_checksum
    (snd (_apcie_icc_cmd cfg (answers h payload rest st sg jl) sc major minor
                         data length None cap intr))
  = checksum payload.
Proof.
  intros Hsend Hcap (Hexp & Hmaj & Hmin) Hsum Hst.
  pose proof (expected_awaited cfg sc major minor data length None cap
                h payload Hsend Hexp) as Hgood.
  destruct (icc_cmd_answered cfg sc major minor data length None cap intr
              h payload rest st sg jl Hsend Hcap Hgood Hst)
    as (Hmem & _ & _ & Hextra & _ & Hok).
  split; [exact (Hok Hsum Hmaj Hmin)|]. split; [exact Hmem|].
  rewrite Hextra, Hcap.
  destruct Hexp as (_ & _ & _ & _ & _ & Hb & _).
  replace (Z.to_nat (Z.min 0 (Hdr.length h - ICC_HDR_SIZE))) with 0%nat by lia.
  reflexivity.
Qed.

End Outcomes.

(** ** A reply that does not answer the request *)

Section Mismatch.

Import Icc IccFacts.

(** The state in which [icc_cmd_finish] runs once the awaited reply has
    been taken. *)
Lemma icc_cmd_answered_state (cfg : icc_config) (sc : apcie_dev)
  (major minor : Z) (data : option ptr) (length : Z) (reply : option ptr)
  (cap : Z) (intr : bool) (h : Hdr.t) (payload rest : list Z) (st : Z)
  (sg : bool) (jl : Z) :
  can_send cfg sc length ->
  buffer_ok sc reply cap ->
  expected_reply cfg sc h payload ->
  Z.land st APCIE_ICC_SEND <> 0 ->
  exists sc2 ret,
    _apcie_icc_cmd cfg (answers h payload rest st sg jl) sc major minor
                   data length reply cap intr
    = icc_cmd_finish cfg sc2 ret (to_u8 major) (to_u16 minor) reply /\
    0 < ret /\
    Icc.reply sc2 = h /\
    reply_pending sc2 = false /\
    reply_extra_checksum sc2
    = checksum (skipn (Z.to_nat (Z.min (to_u16 cap)
                                       (Hdr.length h - ICC_HDR_SIZE))) payload) /\
    load (mem sc2) reply (reply_length sc2)
    = firstn (Z.to_nat (Z.min (to_u16 cap) (Hdr.length h - ICC_HDR_SIZE)))
             payload /\
    mem sc2
    = memcpy_to (mem sc) reply
        (firstn (Z.to_nat (Z.min (to_u16 cap) (Hdr.length h - ICC_HDR_SIZE)))
                payload).
Proof.
  intros Hsend Hbuf Hexp Hst.
  pose proof (expected_awaited cfg sc major minor data length reply cap
                h payload Hsend Hexp) as Hgood.
  destruct (submit_ok cfg sc major minor data length reply cap Hsend)
    as (Hsub & Hbox1 & _).
  set (sc1 := submitted cfg sc major minor data length reply cap) in *.
  unfold mailbox in Hbox1.
  injection Hbox1 as Hreq1 _ Hpend1 Hrb1 Hlen1 _ Hmem1.
  pose proof (to_u16_range cap) as Hcap.
  assert (Hcap1 : 0 <= reply_length sc1) by lia.
  pose proof (wait_answered cfg sc1 h payload rest st sg jl
                Hpend1 Hcap1 Hgood Hst) as Hbox.
  set (sc2 := icc_cmd_wait cfg (answers h payload rest st sg jl) sc1) in *.
  unfold mailbox in Hbox. rewrite Hrb1, Hlen1, Hmem1 in Hbox.
  injection Hbox as _ Hrep Hpend Hrb Hlen Hextra Hmem.
  destruct Hexp as (_ & _ & _ & _ & _ & _ & Hpay).
  exists sc2.
  exists (if intr
          then wait_event_interruptible_timeout
                 (answers h payload rest st sg jl) true
          else wait_event_timeout (answers h payload rest st sg jl) true).
  split.
  { unfold _apcie_icc_cmd. rewrite Hsub. cbv zeta. fold sc2.
    rewrite Hpend. reflexivity. }
  split; [apply wait_returns_positive|].
  split; [exact Hrep|]. split; [exact Hpend|]. split; [exact Hextra|].
  split; [|exact Hmem].
  rewrite Hmem, Hlen.
  replace (Z.min (to_u16 cap) (Hdr.length h - ICC_HDR_SIZE))
    with (Z.min (to_u16 cap) (Z.of_nat (List.length payload)))
    by (rewrite Hpay; reflexivity).
  apply (load_memcpy_to (mem sc) reply cap _ payload sc eq_refl Hbuf eq_refl).
Qed.

(** X15.  A reply with the request's cookie and a correct checksum whose
    major is not the request's, or whose minor is not the request's minor
    with the reply flag, makes [_apcie_icc_cmd] fail with [-EIO] and the
    matching log line; the payload has by then been copied into the
    caller's buffer. *)
Theorem icc_cmd_reply_mismatch (cfg : icc_config) (sc : apcie_dev)
  (major minor : Z) (data : option ptr) (length : Z) (reply : option ptr)
  (cap : Z) (intr : bool) (h : Hdr.t) (payload rest : list Z) (st : Z)
  (sg : bool) (jl : Z) :
  can_send cfg sc length ->
  buffer_ok sc reply cap ->
  expected_reply cfg sc h payload ->
  Hdr.checksum h = frame_checksum h payload ->
  Z.land st APCIE_ICC_SEND <> 0 ->
  Hdr.major h <> to_u8 major \/
  Hdr.minor h <> Z.lor (to_u16 minor) (ICC_REPLY cfg) ->
  fst (_apcie_icc_cmd cfg (answers h payload rest st sg jl) sc major minor
                      data length reply cap intr) = - EIO /\
  (exists tr,
     trace (snd (_apcie_icc_cmd cfg (answers h payload rest st sg jl) sc major
                                minor data length reply cap intr))
     = tr ++ [Sc_err (if Hdr.major h =? to_u8 major
                      then "icc: minor mismatch"
                      else "icc: major mismatch")]) /\
  mem (snd (_apcie_icc_cmd cfg (answers h payload rest st sg jl) sc major
                           minor data length reply cap intr))
  = memcpy_to (mem sc) reply
      (firstn (Z.to_nat (Z.min (to_u16 cap) (Hdr.length h - ICC_HDR_SIZE)))
              payload).
Proof.
  intros Hsend Hbuf Hexp Hsum Hst Hmis.
  destruct (icc_cmd_answered_state cfg sc major minor data length reply cap
              intr h payload rest st sg jl Hsend Hbuf Hexp Hst)
    as (sc2 & ret & Hr & Hret & Hrep & Hpend & Hextra & Hload & Hmem).
  rewrite Hr. unfold icc_cmd_finish.
  destruct (Z.ltb_spec ret 0) as [E|_]; [lia|].
  cbn [set_reply_buffer reply_pending orb]. rewrite Hpend. cbv zeta.
  cbn [set_reply_buffer mem reply_length reply_extra_checksum Icc.reply
       request reply_buffer spm_request spm_reply trace].
  rewrite Hload, Hextra, Hrep.
  set (n := Z.to_nat (Z.min (to_u16 cap) (Hdr.length h - ICC_HDR_SIZE))) in *.
  assert (Hck : to_u16
                  (to_u16
                     (to_u16 (Hdr.checksum h
                              - checksum (hdr_bytes (Hdr.set_checksum h 0)))
                      - checksum (firstn n payload))
                   - checksum (skipn n payload)) = 0).
  { apply (rep_checksum_zero (Hdr.checksum h)
             (hdr_bytes (Hdr.set_checksum h 0)) (firstn n payload)
             (skipn n payload)).
    - apply Hexp.
    - rewrite firstn_skipn. exact Hsum. }
  rewrite Hck. change (negb (0 =? 0)) with false. cbv iota.
  cbn [Hdr.set_checksum Hdr.major Hdr.minor].
  destruct (Z.eqb_spec (Hdr.major h) (to_u8 major)) as [Hmaj|Hmaj];
    cbn [negb].
  - destruct (Z.eqb_spec (Hdr.minor h) (Z.lor (to_u16 minor) (ICC_REPLY cfg)))
      as [Hmin|Hmin]; cbn [negb].
    + destruct Hmis; contradiction.
    + cbn [fst snd]. split; [reflexivity|]. split; [|exact Hmem].
      eexists. reflexivity.
  - cbn [fst snd]. split; [reflexivity|]. split; [|exact Hmem].
    eexists. reflexivity.
Qed.

End Mismatch.

(** ** The exported entry point and the ioctl, as callers see them *)

Section Callers.

Import Icc IccFacts.

Lemma apcie_icc_cmd_cases (cfg : icc_config) (bpcie : bpcie_transport)
  (env : wait_env) (g : icc_global) (major minor : Z) (data : option ptr)
  (length : Z) (reply : option ptr) (cap : Z) :
  bpcie_initialized g = false ->
  match apcie_icc_cmd cfg bpcie env g major minor data length reply cap with
  | Blocks => icc_mutex g = true
  | Returns ret g' =>
      icc_mutex g = false /\
      ((icc_sc g = false /\ ret = - EAGAIN /\ icc_mutex g' = true) \/
       (icc_sc g = true /\ icc_mutex g' = false /\
        ret = fst (_apcie_icc_cmd cfg env (dev g) major minor data length
                                  reply cap false) /\
        dev g' = snd (_apcie_icc_cmd cfg env (dev g) major minor data length
                                     reply cap false)))
  end.
Proof.
  intros Hb. unfold apcie_icc_cmd. rewrite Hb.
  destruct (icc_mutex g); [reflexivity|].
  cbn [set_mutex icc_sc]. destruct (icc_sc g); cbn [negb dev set_mutex].
  - destruct (_apcie_icc_cmd cfg env (dev g) major minor data length reply
                             cap false) as [ret d].
    split; [reflexivity|]. right. repeat split.
  - split; [reflexivity|]. left. repeat split.
Qed.

(** X16.  With the device registered and the mutex free, the exported
    [apcie_icc_cmd] returns what [_apcie_icc_cmd] returns for a wait that
    signals cannot interrupt, and the mutex is free again afterwards,
    whatever the outcome.  The value is [-E2BIG], [-EIO], [-ETIMEDOUT] or
    a payload length in range; [-EINTR] and [-EAGAIN] do not occur. *)
Theorem apcie_icc_cmd_registered (cfg : icc_config) (bpcie : bpcie_transport)
  (env : wait_env) (g : icc_global) (major minor : Z) (data : option ptr)
  (length : Z) (reply : option ptr) (cap : Z) :
  bpcie_initialized g = false ->
  icc_mutex g = false ->
  icc_sc g = true ->
  exists ret g',
    apcie_icc_cmd cfg bpcie env g major minor data length reply cap
    = Returns ret g' /\
    icc_mutex g' = false /\ icc_sc g' = true /\
    ret = fst (_apcie_icc_cmd cfg env (dev g) major minor data length reply
                              cap false) /\
    (ret = - E2BIG \/ ret = - EIO \/ ret = - ETIMEDOUT \/
     0 <= ret <= ICC_MAX_SIZE cfg - ICC_HDR_SIZE).
Proof.
  intros Hb Hm Hsc. unfold apcie_icc_cmd. rewrite Hb, Hm.
  cbn [set_mutex icc_sc]. rewrite Hsc. cbn [negb dev set_mutex].
  pose proof (icc_cmd_range_aux cfg env (dev g) major minor data length reply
                cap false) as Hrange.
  destruct (_apcie_icc_cmd cfg env (dev g) major minor data length reply cap
                           false) as [ret d].
  cbn [fst] in Hrange.
  exists ret. eexists. split; [reflexivity|].
  cbn [set_mutex set_dev icc_mutex icc_sc fst].
  split; [reflexivity|]. split; [exact Hsc|]. split; [reflexivity|].
  destruct Hrange as [H|[H|[H|[[_ H]|H]]]]; try tauto. discriminate.
Qed.

(** X17.  The ioctl, when the other transport is not in use: it blocks
    only if the mutex is held; otherwise it returns [-ENOENT] (unknown
    command), [-EFAULT] (a user access faulted), [-EAGAIN] (no device), a
    transport error [-E2BIG], [-EIO] or [-ETIMEDOUT], or the reply's
    payload length.  An unknown command and a fault while reading the
    request leave the driver's state untouched, and reply bytes are copied
    out to the user only when the transport returned a length. *)
Theorem icc_ioctl_outcomes (cfg : icc_config) (bpcie : bpcie_transport)
  (env : wait_env) (u : user_space) (g : icc_global) (cmd arg : Z) :
  bpcie_initialized g = false ->
  match snd (icc_ioctl cfg bpcie env u g cmd arg) with
  | Blocks => icc_mutex g = true
  | Returns ret g' =>
      ret = - ENOENT \/ ret = - EFAULT \/ ret = - EAGAIN \/ ret = - E2BIG \/
      ret = - EIO \/ ret = - ETIMEDOUT \/
      0 <= ret <= ICC_MAX_SIZE cfg - ICC_HDR_SIZE
  end /\
  (cmd <> ICC_IOCTL_CMD cfg ->
   icc_ioctl cfg bpcie env u g cmd arg = ([], Returns (- ENOENT) g)) /\
  (cmd = ICC_IOCTL_CMD cfg -> uread u arg SIZEOF_ICC_CMD = None ->
   icc_ioctl cfg bpcie env u g cmd arg = ([], Returns (- EFAULT) g)) /\
  (forall n, In (Copy_out n) (fst (icc_ioctl cfg bpcie env u g cmd arg)) ->
   exists ret g',
     snd (icc_ioctl cfg bpcie env u g cmd arg) = Returns ret g' /\
     (0 <= ret \/ ret = - EFAULT)).
Proof.
  intros Hb. unfold icc_ioctl.
  destruct (Z.eqb_spec cmd (ICC_IOCTL_CMD cfg)) as [Hcmd|Hcmd].
  2:{ cbn [fst snd]. split; [tauto|]. split; [reflexivity|].
      split; [contradiction|]. intros n []. }
  destruct (uread u arg SIZEOF_ICC_CMD) as [raw|].
  2:{ cbn [fst snd]. split; [tauto|]. split; [contradiction|].
      split; [reflexivity|]. intros n []. }
  destruct (uread u _ _) as [bytes|].
  2:{ cbn [fst snd]. split; [tauto|]. split; [contradiction|].
      split; [discriminate|]. intros n [H|[]]. discriminate. }
  match goal with
  | |- context [apcie_icc_cmd cfg bpcie env ?g1 ?ma ?mi ?d ?l ?r ?c] =>
      pose proof (apcie_icc_cmd_cases cfg bpcie env g1 ma mi d l r c Hb)
        as Hcases;
      pose proof (icc_cmd_range_aux cfg env (dev g1) ma mi d l r c false)
        as Hrange;
      destruct (apcie_icc_cmd cfg bpcie env g1 ma mi d l r c)
        as [reply_len g'|]
  end.
  2:{ cbn [fst snd]. split; [exact Hcases|]. split; [contradiction|].
      split; [discriminate|]. intros n [H|[]]. discriminate. }
  assert (Hret : reply_len = - EAGAIN \/ reply_len = - E2BIG \/
                 reply_len = - EIO \/ reply_len = - ETIMEDOUT \/
                 0 <= reply_len <= ICC_MAX_SIZE cfg - ICC_HDR_SIZE).
  { destruct Hcases as [_ [(_ & -> & _)|(_ & _ & -> & _)]]; [tauto|].
    destruct Hrange as [H|[H|[H|[[_ H]|H]]]]; try tauto. discriminate. }
  destruct (Z.ltb_spec reply_len 0) as [Hneg|Hpos].
  - cbn [fst snd]. split; [tauto|]. split; [contradiction|].
    split; [discriminate|]. intros n [H|[]]. discriminate.
  - destruct (uwrite u _ _); cbn [fst snd].
    + split; [|split; [contradiction|split; [discriminate|]]].
      * destruct Hret as [H|[H|[H|[H|H]]]]; try tauto;
          unfold EAGAIN, E2BIG, EIO, ETIMEDOUT in H; lia.
      * intros n _. exists reply_len, g'. split; [reflexivity | left; exact Hpos].
    + split; [tauto|]. split; [contradiction|]. split; [discriminate|].
      intros n _. eexists _, g'. split; [reflexivity | right; reflexivity].
Qed.

End Callers.

(** * Further properties of the command queue *)

Section CqRequest.

Import Bridge BridgeSpec.

Lemma req_code_put (q : i2c_cmdqueue) (v : Z) : req_code (put q v) = req_code q.
Proof. reflexivity. Qed.

Lemma req_code_cq_cmd (q : i2c_cmdqueue) (ma mi : Z) :
  req_code (cq_cmd q ma mi) = req_code q.
Proof.
  unfold cq_cmd, close_group.
  destruct (negb (same_cmd q (to_u8 ma) (to_u8 mi))); destruct (cmd q);
    reflexivity.
Qed.

Lemma req_code_cq_emit (q : i2c_cmdqueue) (op : cq_op) :
  req_code (cq_emit q op) = req_code q.
Proof.
  destruct op; cbn [cq_emit];
    unfold cq_read, cq_writereg, cq_mask, cq_delay, cq_wait_set,
           cq_wait_clear, cq_cmd2;
    cbv zeta; rewrite ?req_code_put; apply req_code_cq_cmd.
Qed.

Lemma req_code_cq_batch (ops : list cq_op) :
  forall q, req_code (fold_left cq_emit ops q) = req_code q.
Proof.
  induction ops as [|op ops IH]; intros q; [reflexivity|].
  cbn [fold_left]. rewrite IH. apply req_code_cq_emit.
Qed.

Lemma fold_add_op_nonempty (ops : list cq_op) :
  forall gs, (gs <> [] \/ ops <> []) -> fold_left add_op ops gs <> [].
Proof.
  induction ops as [|op ops IH]; intros gs H; cbn [fold_left].
  - destruct H as [H|H]; [exact H | contradiction].
  - apply IH. left. unfold add_op. destruct (opcode op) as [ma mi].
    destruct gs as [|g rest]; [discriminate|].
    destruct ((g_major g =? ma) && (g_minor g =? mi)); discriminate.
Qed.

(** The queue after a batch that fits the buffer. *)
Lemma cq_batch_inv (q0 : i2c_cmdqueue) (code : Z) (ops : list cq_op) :
  length (req_cmdbuf q0) = CMDBUF_SIZE ->
  (total_size (fold_left add_op ops []) <= CMDBUF_SIZE)%nat ->
  cq_inv (cq_batch q0 code ops) (fold_left add_op ops []).
Proof.
  intros Hlen Hfit. unfold cq_batch.
  apply cq_run_inv; [apply cq_init_inv, Hlen | exact Hfit].
Qed.

(** X18.  For every batch that fits the request buffer, long runs
    included, the buffer [cq_exec] seals holds one 4-byte header per run
    of equal opcode pairs followed by the operands of the run; the
    header's length field is the size of header and operands modulo 256
    and its count field the run length modulo 256, the fields being
    bytes.  The write cursor is at the total size and the group count is
    the number of runs modulo 256. *)
Theorem cq_batch_wire (q0 : i2c_cmdqueue) (code : Z) (ops : list cq_op) :
  length (req_cmdbuf q0) = CMDBUF_SIZE ->
  (total_size (spec_coalesce ops) <= CMDBUF_SIZE)%nat ->
  firstn (p (close_group (cq_batch q0 code ops)))
         (req_cmdbuf (close_group (cq_batch q0 code ops)))
  = wire_groups (spec_coalesce ops) /\
  p (close_group (cq_batch q0 code ops)) = total_size (spec_coalesce ops) /\
  req_count (close_group (cq_batch q0 code ops))
  = to_u8 (Z.of_nat (length (spec_coalesce ops))).
Proof.
  intros Hlen Hfit. unfold spec_coalesce in *.
  rewrite total_size_rev in *.
  pose proof (cq_batch_inv q0 code ops Hlen Hfit) as Hinv.
  destruct (close_group_inv _ _ Hinv) as (Hbuf & Hcnt & Hp).
  rewrite length_rev. repeat split; assumption.
Qed.

Lemma cq_batch_wire_witness :
  length (req_cmdbuf cq_zero) = CMDBUF_SIZE /\
  (total_size (spec_coalesce long_run) <= CMDBUF_SIZE)%nat /\
  p (close_group (cq_batch cq_zero 4 long_run))
  = total_size (spec_coalesce long_run).
Proof.
  assert (H1 : length (req_cmdbuf cq_zero) = CMDBUF_SIZE) by reflexivity.
  assert (H2 : (total_size (spec_coalesce long_run) <= CMDBUF_SIZE)%nat)
    by (vm_compute; lia).
  destruct (cq_batch_wire cq_zero 4 long_run H1 H2) as (_ & H3 & _).
  exact (conj H1 (conj H2 H3)).
Defined.

(** The request of a batch, as [cq_exec] hands it to the transport. *)
Lemma cq_seal_request (q0 : i2c_cmdqueue) (code : Z) (ops : list cq_op) :
  length (req_cmdbuf q0) = CMDBUF_SIZE ->
  ops <> [] ->
  (length (encode_groups (spec_coalesce ops)) <= CMDBUF_SIZE)%nat ->
  Forall (fun g => (group_size g <= 255)%nat) (spec_coalesce ops) ->
  (exists c, cmd (cq_batch q0 code ops) = Some c) /\
  length (req_cmdbuf (cq_seal (cq_batch q0 code ops))) = CMDBUF_SIZE /\
  req_bytes (cq_seal (cq_batch q0 code ops))
  = [to_u8 code;
     lo8 (Z.of_nat (length (encode_groups (spec_coalesce ops))) + REQ_HDR_SIZE);
     hi8 (Z.of_nat (length (encode_groups (spec_coalesce ops))) + REQ_HDR_SIZE);
     Z.of_nat (length (spec_coalesce ops))]
    ++ encode_groups (spec_coalesce ops).
Proof.
  intros Hlen Hne Hfit Hsmall. unfold spec_coalesce in *.
  set (gs := fold_left add_op ops []) in *.
  rewrite encode_groups_length, total_size_rev in Hfit.
  assert (Hok : Forall (fun g => (1 <= g_count g
                                  /\ 4 * g_count g <= length (g_body g))%nat) gs)
    by (apply fold_add_op_ok; constructor).
  pose proof (cq_batch_inv q0 code ops Hlen Hfit) as Hinv. fold gs in Hinv.
  destruct (close_group_inv _ _ Hinv) as (Hbuf & Hcnt & Hp).
  assert (Hgs : gs <> []) by (apply fold_add_op_nonempty; right; exact Hne).
  assert (Hcmd : exists c, cmd (cq_batch q0 code ops) = Some c).
  { destruct Hinv as (_ & _ & H). destruct gs as [|g rest]; [contradiction|].
    destruct H as [H _]. eauto. }
  assert (Hlen' : length (req_cmdbuf (close_group (cq_batch q0 code ops)))
                  = CMDBUF_SIZE).
  { destruct Hinv as (Hl & _). unfold close_group.
    destruct (cmd (cq_batch q0 code ops)); [|exact Hl].
    cbn [set_cmdbuf req_cmdbuf]. now rewrite store_byte_length. }
  split; [exact Hcmd|]. split; [exact Hlen'|].
  unfold req_bytes, cq_seal.
  cbn [req_code req_length req_count req_cmdbuf].
  assert (Hcode : req_code (close_group (cq_batch q0 code ops)) = to_u8 code).
  { unfold close_group. destruct (cmd (cq_batch q0 code ops));
      cbn [set_cmdbuf req_code]; unfold cq_batch;
      rewrite req_code_cq_batch; reflexivity. }
  rewrite Hcode, Hcnt, Hp, encode_groups_length, total_size_rev, length_rev.
  unfold REQ_HDR_SIZE, CMDBUF_SIZE in *.
  rewrite (to_u16_small (Z.of_nat (total_size gs) + 4)) by lia.
  rewrite (to_u8_small (Z.of_nat (length gs)))
    by (pose proof (groups_number _ Hok); lia).
  replace (Z.to_nat (Z.of_nat (total_size gs) + 4 - 4))
    with (p (close_group (cq_batch q0 code ops))) by lia.
  rewrite Hbuf.
  rewrite (wire_groups_encode (rev gs) Hsmall (Forall_rev Hok)).
  reflexivity.
Qed.

(** X19.  Executing a non-empty batch that fits the buffer and whose
    groups are at most 255 bytes long makes exactly one transport call, to
    major 0x10 minor 0 with the whole reply structure as capacity; the
    request is the batch code, the 16-bit little-endian total length
    (4 plus the size of the groups), the number of groups, and the
    run-length encoded groups. *)
Theorem cq_exec_request (icc : transport) (q0 : i2c_cmdqueue) (code : Z)
  (ops : list cq_op) :
  length (req_cmdbuf q0) = CMDBUF_SIZE ->
  ops <> [] ->
  (length (encode_groups (spec_coalesce ops)) <= CMDBUF_SIZE)%nat ->
  Forall (fun g => (group_size g <= 255)%nat) (spec_coalesce ops) ->
  filter (fun e => match e with Icc_cmd _ => true | _ => false end)
         (snd (cq_exec icc (cq_batch q0 code ops)))
  = [Icc_cmd
       (mk_call 0x10 0
          ([to_u8 code;
            lo8 (Z.of_nat (length (encode_groups (spec_coalesce ops)))
                 + REQ_HDR_SIZE);
            hi8 (Z.of_nat (length (encode_groups (spec_coalesce ops)))
                 + REQ_HDR_SIZE);
            Z.of_nat (length (spec_coalesce ops))]
           ++ encode_groups (spec_coalesce ops))
          REPLY_SIZE)].
Proof.
  intros Hlen Hne Hfit Hsmall.
  destruct (cq_seal_request q0 code ops Hlen Hne Hfit Hsmall)
    as ((c & Hcmd) & _ & Hreq).
  unfold cq_exec. rewrite Hcmd, Hreq.
  destruct (icc _ _) as [res rep].
  destruct (res <? 5); [reflexivity|].
  destruct (negb _ || negb _); reflexivity.
Qed.

Lemma cq_exec_request_witness :
  length (req_cmdbuf cq_zero) = CMDBUF_SIZE /\
  three_writes <> [] /\
  (length (encode_groups (spec_coalesce three_writes)) <= CMDBUF_SIZE)%nat /\
  Forall (fun g => (group_size g <= 255)%nat) (spec_coalesce three_writes) /\
  filter (fun e => match e with Icc_cmd _ => true | _ => false end)
         (snd (cq_exec icc_short (cq_batch cq_zero 4 three_writes)))
  = [Icc_cmd
       (mk_call 0x10 0
          ([to_u8 4;
            lo8 (Z.of_nat (length (encode_groups (spec_coalesce three_writes)))
                 + REQ_HDR_SIZE);
            hi8 (Z.of_nat (length (encode_groups (spec_coalesce three_writes)))
                 + REQ_HDR_SIZE);
            Z.of_nat (length (spec_coalesce three_writes))]
           ++ encode_groups (spec_coalesce three_writes))
          REPLY_SIZE)].
Proof.
  assert (H1 : length (req_cmdbuf cq_zero) = CMDBUF_SIZE) by reflexivity.
  assert (H2 : three_writes <> []) by discriminate.
  assert (H3 : (length (encode_groups (spec_coalesce three_writes))
                <= CMDBUF_SIZE)%nat) by (vm_compute; lia).
  assert (H4 : Forall (fun g => (group_size g <= 255)%nat)
                      (spec_coalesce three_writes))
    by (repeat constructor; vm_compute; lia).
  exact (conj H1 (conj H2 (conj H3 (conj H4
           (cq_exec_request icc_short cq_zero 4 three_writes H1 H2 H3 H4))))).
Defined.

End CqRequest.

(** * Properties of the bridge driver *)

Section DriverBatches.

Import Bridge BridgeSpec Ps4Bridge BridgeFacts.



End DriverBatches.

Section Driver.

Import Bridge BridgeSpec Ps4Bridge BridgeFacts.

















End Driver.

Section DriverEntry.

Import Bridge BridgeSpec Ps4Bridge BridgeFacts.




End DriverEntry.

(** * The further properties at concrete inputs *)

Section FurtherExamples.

Import Icc IccFacts IccExamples Bridge BridgeSpec Ps4Bridge BridgeFacts.

Ltac closed :=
  vm_compute; repeat split; try reflexivity; try discriminate;
  try (intro; discriminate).

Lemma event_dispatch_witness :
  buf_empty (spm_reply sc_event) = 0 /\
  buf_full (spm_reply sc_event) = 1 /\
  Z.land (Hdr.minor (inbound sc_event)) (ICC_EVENT sample_config) <> 0 /\
  mailbox (handle_message sample_config sc_event) = mailbox sc_event.
Proof.
  assert (H1 : buf_empty (spm_reply sc_event) = 0) by closed.
  assert (H2 : buf_full (spm_reply sc_event) = 1) by closed.
  assert (H3 : Z.land (Hdr.minor (inbound sc_event)) (ICC_EVENT sample_config)
               <> 0) by closed.
  destruct (event_dispatch sample_config sc_event H1 H2 H3) as (H4 & _).
  exact (conj H1 (conj H2 (conj H3 H4))).
Defined.

Lemma icc_cmd_too_big_witness :
  ICC_MAX_PAYLOAD sample_config < to_u16 0x7e5 /\
  _apcie_icc_cmd sample_config (silence false) sc0 1 0 None 0x7e5 None 0 false
  = (- E2BIG, sc0).
Proof.
  assert (H1 : ICC_MAX_PAYLOAD sample_config < to_u16 0x7e5) by closed.
  exact (conj H1 (icc_cmd_too_big sample_config (silence false) sc0 1 0 None
                    0x7e5 None 0 false H1)).
Defined.

Lemma icc_cmd_busy_witness :
  to_u16 1 <= ICC_MAX_PAYLOAD sample_config /\
  (buf_empty (spm_request sc_timed_out) <> 1 \/
   buf_full (spm_request sc_timed_out) <> 0) /\
  fst (_apcie_icc_cmd sample_config (silence false) sc_timed_out 1 0
                      (Some 0%nat) 1 (Some 1%nat) 8 false)
  = - EIO.
Proof.
  assert (H1 : to_u16 1 <= ICC_MAX_PAYLOAD sample_config) by closed.
  assert (H2 : buf_empty (spm_request sc_timed_out) <> 1 \/
               buf_full (spm_request sc_timed_out) <> 0)
    by (left; closed).
  destruct (icc_cmd_busy sample_config (silence false) sc_timed_out 1 0
              (Some 0%nat) 1 (Some 1%nat) 8 false H1 H2) as (H3 & _).
  exact (conj H1 (conj H2 H3)).
Defined.

Lemma request_frame_round_trip_witness :
  can_send sample_config sc0 1 /\
  data_ok sc0 (Some 0%nat) 1 /\
  0 <= Hdr.unknown (request sc0) < 2 ^ 16 /\
  hdr_of_bytes
    (buf_data (spm_request (submitted sample_config sc0 1 0 (Some 0%nat) 1
                                      (Some 1%nat) 8)))
  = request (submitted sample_config sc0 1 0 (Some 0%nat) 1 (Some 1%nat) 8).
Proof.
  assert (H1 : can_send sample_config sc0 1) by closed.
  assert (H2 : data_ok sc0 (Some 0%nat) 1) by closed.
  assert (H3 : 0 <= Hdr.unknown (request sc0) < 2 ^ 16) by closed.
  destruct (request_frame_round_trip sample_config sc0 1 0 (Some 0%nat) 1
              (Some 1%nat) 8 H1 H2 H3) as (_ & _ & H4 & _).
  exact (conj H1 (conj H2 (conj H3 H4))).
Defined.

Lemma request_frame_length_witness :
  config_ok sample_config /\
  to_u16 1 <= ICC_MAX_PAYLOAD sample_config /\
  data_ok sc0 (Some 0%nat) 1 /\
  Hdr.length (request_hdr sample_config sc0 (to_u8 1) (to_u16 0) (to_u16 1)
                (load (mem sc0) (Some 0%nat) (to_u16 1)))
  = Z.max (ICC_HDR_SIZE + to_u16 1) (ICC_MIN_SIZE sample_config).
Proof.
  assert (H1 : config_ok sample_config) by closed.
  assert (H2 : to_u16 1 <= ICC_MAX_PAYLOAD sample_config) by closed.
  assert (H3 : data_ok sc0 (Some 0%nat) 1) by closed.
  destruct (request_frame_length sample_config sc0 1 0 (Some 0%nat) 1
              H1 H2 H3) as (H4 & _).
  exact (conj H1 (conj H2 (conj H3 H4))).
Defined.

Lemma icc_cmd_leaves_mailbox_at_rest_witness :
  can_send sample_config sc0 1 /\
  reply_pending (snd (_apcie_icc_cmd sample_config (silence false) sc0 1 0
                                     (Some 0%nat) 1 (Some 1%nat) 8 false))
  = false.
Proof.
  assert (H1 : can_send sample_config sc0 1) by closed.
  destruct (icc_cmd_leaves_mailbox_at_rest sample_config (silence false) sc0
              1 0 (Some 0%nat) 1 (Some 1%nat) 8 false H1) as (H2 & _).
  exact (conj H1 H2).
Defined.

Lemma idle_mailbox_frozen_witness :
  reply_pending sc0 = false /\
  mailbox (fold_left (hw_step sample_config)
             [Remote_post (reply_slot reply1 payload1 []); Irq [1; 0]] sc0)
  = mailbox sc0.
Proof.
  assert (H1 : reply_pending sc0 = false) by closed.
  exact (conj H1 (idle_mailbox_frozen sample_config
                    [Remote_post (reply_slot reply1 payload1 []); Irq [1; 0]]
                    sc0 H1)).
Defined.

Lemma late_reply_dropped_witness :
  can_send sample_config sc0 1 /\
  reply_pending
    (icc_cmd_wait sample_config (silence false)
       (submitted sample_config sc0 1 0 (Some 0%nat) 1 (Some 1%nat) 8))
  = true /\
  expected_reply sample_config sc0 reply1 payload1 /\
  mailbox
    (handle_message sample_config
       (set_spm_reply
          (snd (_apcie_icc_cmd sample_config (silence false) sc0 1 0
                               (Some 0%nat) 1 (Some 1%nat) 8 false))
          (reply_slot reply1 payload1 [])))
  = mailbox (snd (_apcie_icc_cmd sample_config (silence false) sc0 1 0
                                 (Some 0%nat) 1 (Some 1%nat) 8 false)).
Proof.
  assert (H1 : can_send sample_config sc0 1) by closed.
  assert (H2 : reply_pending
                 (icc_cmd_wait sample_config (silence false)
                    (submitted sample_config sc0 1 0 (Some 0%nat) 1
                               (Some 1%nat) 8)) = true) by closed.
  assert (H3 : expected_reply sample_config sc0 reply1 payload1) by closed.
  destruct (late_reply_dropped sample_config (silence false) sc0 1 0
              (Some 0%nat) 1 (Some 1%nat) 8 false reply1 payload1 []
              H1 H2 H3) as (H4 & _).
  exact (conj H1 (conj H2 (conj H3 H4))).
Defined.

Lemma icc_cmd_null_reply_witness :
  can_send sample_config sc0 1 /\
  to_u16 0 = 0 /\
  reply_to sample_config sc0 1 0 reply1 payload1 /\
  Hdr.checksum reply1 = frame_checksum reply1 payload1 /\
  Z.land 1 APCIE_ICC_SEND <> 0 /\
  fst (_apcie_icc_cmd sample_config (answers reply1 payload1 [] 1 false 5)
                      sc0 1 0 (Some 0%nat) 1 None 0 false)
  = Hdr.length reply1 - ICC_HDR_SIZE.
Proof.
  assert (H1 : can_send sample_config sc0 1) by closed.
  assert (H2 : to_u16 0 = 0) by closed.
  assert (H3 : reply_to sample_config sc0 1 0 reply1 payload1) by closed.
  assert (H4 : Hdr.checksum reply1 = frame_checksum reply1 payload1) by closed.
  assert (H5 : Z.land 1 APCIE_ICC_SEND <> 0) by closed.
  destruct (icc_cmd_null_reply sample_config sc0 1 0 (Some 0%nat) 1 0 false
              reply1 payload1 [] 1 false 5 H1 H2 H3 H4 H5) as (H6 & _).
  exact (conj H1 (conj H2 (conj H3 (conj H4 (conj H5 H6))))).
Defined.

Lemma icc_cmd_reply_mismatch_witness :
  can_send sample_config sc0 1 /\
  buffer_ok sc0 (Some 1%nat) 8 /\
  expected_reply sample_config sc0 wrong_major payload1 /\
  Hdr.checksum wrong_major = frame_checksum wrong_major payload1 /\
  Z.land 1 APCIE_ICC_SEND <> 0 /\
  (Hdr.major wrong_major <> to_u8 1 \/
   Hdr.minor wrong_major
   <> Z.lor (to_u16 0) (ICC_REPLY sample_config)) /\
  fst (_apcie_icc_cmd sample_config (answers wrong_major payload1 [] 1 false 5)
                      sc0 1 0 (Some 0%nat) 1 (Some 1%nat) 8 false)
  = - EIO.
Proof.
  assert (H1 : can_send sample_config sc0 1) by closed.
  assert (H2 : buffer_ok sc0 (Some 1%nat) 8) by closed.
  assert (H3 : expected_reply sample_config sc0 wrong_major payload1)
    by closed.
  assert (H4 : Hdr.checksum wrong_major = frame_checksum wrong_major payload1)
    by closed.
  assert (H5 : Z.land 1 APCIE_ICC_SEND <> 0) by closed.
  assert (H6 : Hdr.major wrong_major <> to_u8 1 \/
               Hdr.minor wrong_major
               <> Z.lor (to_u16 0) (ICC_REPLY sample_config))
    by (left; closed).
  destruct (icc_cmd_reply_mismatch sample_config sc0 1 0 (Some 0%nat) 1
              (Some 1%nat) 8 false wrong_major payload1 [] 1 false 5
              H1 H2 H3 H4 H5 H6) as (H7 & _).
  exact (conj H1 (conj H2 (conj H3 (conj H4 (conj H5 (conj H6 H7)))))).
Defined.

Lemma apcie_icc_cmd_registered_witness :
  bpcie_initialized g_ready = false /\
  icc_mutex g_ready = false /\
  icc_sc g_ready = true /\
  exists ret g',
    apcie_icc_cmd sample_config no_bpcie
      (answers reply1 payload1 [] 1 false 5) g_ready 1 0 (Some 0%nat) 1
      (Some 1%nat) 8
    = Returns ret g' /\
    icc_mutex g' = false.
Proof.
  assert (H1 : bpcie_initialized g_ready = false) by reflexivity.
  assert (H2 : icc_mutex g_ready = false) by reflexivity.
  assert (H3 : icc_sc g_ready = true) by reflexivity.
  destruct (apcie_icc_cmd_registered sample_config no_bpcie
              (answers reply1 payload1 [] 1 false 5) g_ready 1 0 (Some 0%nat)
              1 (Some 1%nat) 8 H1 H2 H3) as (ret & g' & H4 & H5 & _).
  exact (conj H1 (conj H2 (conj H3
           (ex_intro _ ret (ex_intro _ g' (conj H4 H5)))))).
Defined.

Lemma icc_ioctl_outcomes_witness :
  bpcie_initialized g_ready = false /\
  (uread user_none 0 SIZEOF_ICC_CMD = None ->
   icc_ioctl sample_config no_bpcie (silence false) user_none g_ready
             (ICC_IOCTL_CMD sample_config) 0
   = ([], Returns (- EFAULT) g_ready)).
Proof.
  assert (H1 : bpcie_initialized g_ready = false) by reflexivity.
  destruct (icc_ioctl_outcomes sample_config no_bpcie (silence false)
              user_none g_ready (ICC_IOCTL_CMD sample_config) 0 H1)
    as (_ & _ & H2 & _).
  exact (conj H1 (H2 eq_refl)).
Defined.


(** With the cable plugged, the example transport makes [detect] report
    the connector connected. *)
Example detect_example :
  exists b' evs,
    ps4_bridge_detect icc_plugged bridge0
    = Some (connector_status_connected, b', evs).
Proof. eexists; eexists. vm_compute. reflexivity. Qed.



End FurtherExamples.

(** * Properties of bring-up and tear-down *)

Section InitRemove.

Import Icc IccInit.

Lemma command_log (cfg : icc_config) (bpcie : bpcie_transport)
  (env : wait_env) (d : driver) (major minor : Z) (data : option ptr)
  (length : Z) (reply : option ptr) (cap : Z) (ret : Z) (d' : driver) :
  command cfg bpcie env d major minor data length reply cap = Done ret d' ->
  klog d' = klog d /\ pm_power_off d' = pm_power_off d.
Proof.
  unfold command.
  destruct (apcie_icc_cmd cfg bpcie env (glob d) major minor data length reply
                          cap); [|discriminate].
  intros H. injection H as _ <-. split; reflexivity.
Qed.

Lemma resetBtWlan_log (cfg : icc_config) (bpcie : bpcie_transport)
  (env : init_env) (d : driver) (u : unit) (d' : driver) :
  resetBtWlan cfg bpcie env d = Done u d' ->
  klog d' = klog d /\ pm_power_off d' = pm_power_off d.
Proof.
  unfold resetBtWlan. cbv zeta.
  destruct (command _ _ _ _ _ _ _ _ _ _) as [r d1|d1] eqn:H1; cbn [bind];
    [|discriminate].
  intros H. injection H as _ <-.
  destruct (command_log _ _ _ _ _ _ _ _ _ _ _ _ H1) as [-> ->].
  split; reflexivity.
Qed.

Lemma do_icc_init_log (cfg : icc_config) (bpcie : bpcie_transport)
  (env : init_env) (d : driver) (u : unit) (d' : driver) :
  do_icc_init cfg bpcie env d = Done u d' ->
  klog d' = klog d /\ pm_power_off d' = pm_power_off d.
Proof.
  unfold do_icc_init. cbv zeta.
  destruct (command _ _ (waits env 1%nat) _ _ _ _ _ _ _) as [r1 d1|d1] eqn:H1;
    cbn [bind]; [|discriminate].
  destruct (command _ _ (waits env 2%nat) _ _ _ _ _ _ _) as [r2 d2|d2] eqn:H2;
    cbn [bind]; [|discriminate].
  destruct (command _ _ (waits env 3%nat) _ _ _ _ _ _ _) as [r3 d3|d3] eqn:H3;
    cbn [bind]; [|discriminate].
  intros H. injection H as _ <-.
  destruct (command_log _ _ _ _ _ _ _ _ _ _ _ _ H3) as [-> ->].
  destruct (command_log _ _ _ _ _ _ _ _ _ _ _ _ H2) as [-> ->].
  destruct (command_log _ _ _ _ _ _ _ _ _ _ _ _ H1) as [-> ->].
  split; reflexivity.
Qed.

Ltac unwound :=
  let H := fresh in
  intros H; injection H as <- <-;
  eexists; split;
  [ cbn [klog call err on_dev set_glob]; rewrite <- ?app_assoc; reflexivity
  | split; [reflexivity|]; split; [reflexivity|];
    split; [intros; first [assumption | reflexivity] | reflexivity] ].

(** X23.  Whenever [apcie_icc_init] returns an error, it has released, in
    reverse order, the regions, the mapping and the interrupt it had got
    by then, and the device is not registered; the mutex and
    [pm_power_off] are as before.  The reference to the memory function
    that [pci_get_slot] returned is the one thing it keeps. *)
Theorem apcie_icc_init_unwinds (cfg : icc_config) (bpcie : bpcie_transport)
  (env : init_env) (d : driver) (ret : Z) (d' : driver) :
  apcie_icc_init cfg bpcie env d = Done ret d' ->
  ret <> 0 ->
  exists new,
    klog d' = klog d ++ new /\
    held new = (if mem_dev_found env then [Mem_dev_ref] else []) /\
    icc_mutex (glob d') = icc_mutex (glob d) /\
    (icc_sc (glob d) = false -> icc_sc (glob d') = false) /\
    pm_power_off d' = pm_power_off d.
Proof.
  intros Hinit Hret. revert Hinit. unfold apcie_icc_init. cbv zeta.
  destruct (mem_dev_found env); cbn [negb]; [|unwound].
  destruct (icc_region_ok env); cbn [negb]; [|unwound].
  destruct (spm_region_ok env); cbn [negb];
    [|unfold release_icc; unwound].
  destruct (ioremap_ok env); cbn [negb];
    [|unfold release_spm, release_icc; unwound].
  destruct (request_irq_ret env =? 0) eqn:Hirq; cbn [negb].
  2:{ unfold iounmap, release_spm, release_icc.
      intros H; inversion H; subst ret d'; clear H.
      eexists; split;
        [cbn [klog call err on_dev set_glob]; rewrite <- ?app_assoc;
         reflexivity|].
      split; [cbv [held fold_left account acquired released app];
              rewrite Hirq; reflexivity|].
      split; [reflexivity|]. split; [intros; assumption | reflexivity]. }
  apply Z.eqb_eq in Hirq.
  cbn [call glob on_dev set_glob set_dev dev iowrite32 emit spm_request].
  destruct (negb (_ =? 1) || negb (_ =? 0)).
  { unfold free_irq, iounmap, release_spm, release_icc.
    intros H; inversion H; subst ret d'; clear H.
    eexists; split;
      [cbn [klog call err on_dev set_glob]; rewrite <- ?app_assoc;
       reflexivity|].
    split; [cbv [held fold_left account acquired released app];
            rewrite Hirq; reflexivity|].
    split; [reflexivity|]. split; [intros; assumption | reflexivity]. }
  match goal with
  | |- context [if icc_mutex ?g then _ else _] =>
      change (icc_mutex g) with (icc_mutex (glob d))
  end.
  destruct (icc_mutex (glob d)) eqn:Hm; [discriminate|].
  destruct (icc_i2c_init_ret env =? 0) eqn:Hi2c; cbn [negb].
  2:{ unfold unassign_global, free_irq, iounmap, release_spm, release_icc.
      cbn [err on_dev set_glob glob set_dev set_icc_sc icc_mutex call].
      rewrite Hm.
      intros H; inversion H; subst ret d'; clear H.
      eexists; split;
        [cbn [klog call err on_dev set_glob]; rewrite <- ?app_assoc;
         reflexivity|].
      split; [cbv [held fold_left account acquired released app];
              rewrite Hirq, Hi2c; reflexivity|].
      split; [cbn; exact Hm|]. split; [intros; reflexivity | reflexivity]. }
  destruct (resetBtWlan _ _ _ _) as [u1 d1|d1]; cbn [bind]; [|discriminate].
  destruct (do_icc_init _ _ _ _) as [u2 d2|d2]; cbn [bind]; [|discriminate].
  destruct (kzalloc_ret env);
    [destruct (negb (register_chrdev_ret env =? 0))|];
    intros H;
    apply (f_equal (fun o => match o with Done a _ => a | Stuck _ => 0 end))
      in H; cbv beta iota in H; congruence.
Qed.

End InitRemove.

Section InitSuccess.

Import Icc IccInit.

Lemma command_ready (cfg : icc_config) (bpcie : bpcie_transport)
  (env : wait_env) (d : driver) (major minor : Z) (data : option ptr)
  (length : Z) (reply : option ptr) (cap : Z) :
  ready d ->
  exists ret d',
    command cfg bpcie env d major minor data length reply cap = Done ret d' /\
    ready d' /\ klog d' = klog d /\ pm_power_off d' = pm_power_off d /\
    ioctl_tmp_buf (glob d') = ioctl_tmp_buf (glob d).
Proof.
  intros (Hb & Hm & Hsc). unfold command, apcie_icc_cmd. rewrite Hb, Hm.
  cbn [set_mutex icc_sc]. rewrite Hsc. cbn [negb dev set_mutex].
  destruct (_apcie_icc_cmd cfg env (dev (glob d)) major minor data length
                           reply cap false) as [ret sc].
  eexists; eexists. split; [reflexivity|].
  repeat split; assumption.
Qed.

Lemma resetBtWlan_ready (cfg : icc_config) (bpcie : bpcie_transport)
  (env : init_env) (d : driver) :
  ready d ->
  exists d',
    resetBtWlan cfg bpcie env d = Done tt d' /\
    ready d' /\ klog d' = klog d /\ pm_power_off d' = pm_power_off d /\
    ioctl_tmp_buf (glob d') = ioctl_tmp_buf (glob d).
Proof.
  intros Hr. unfold resetBtWlan. cbv zeta.
  destruct (command_ready cfg bpcie (waits env 0%nat)
              (place d (on_ptr (locals env)) [3]) 5 0
              (Some (on_ptr (locals env))) 1 (Some (resp_ptr (locals env))) 20
              Hr) as (ret & d' & -> & Hr' & Hk & Hp & Hi).
  exists d'. cbn [bind]. repeat split; try apply Hr'; assumption.
Qed.

Lemma do_icc_init_ready (cfg : icc_config) (bpcie : bpcie_transport)
  (env : init_env) (d : driver) :
  ready d ->
  exists d',
    do_icc_init cfg bpcie env d = Done tt d' /\
    ready d' /\ klog d' = klog d /\ pm_power_off d' = pm_power_off d /\
    ioctl_tmp_buf (glob d') = ioctl_tmp_buf (glob d).
Proof.
  intros Hr. unfold do_icc_init. cbv zeta.
  set (f := locals env).
  set (d0 := place (place d (svc_ptr f) [16]) (led_config_ptr f) led_config).
  assert (Hr0 : ready d0) by exact Hr.
  destruct (command_ready cfg bpcie (waits env 1%nat) d0 2 6 None 0
              (Some (reply_ptr f)) 0x30 Hr0)
    as (r1 & d1 & -> & Hr1 & Hk1 & Hp1 & Hi1).
  cbn [bind].
  destruct (command_ready cfg bpcie (waits env 2%nat) d1 1 0
              (Some (svc_ptr f)) 1 (Some (reply_ptr f)) 0x30 Hr1)
    as (r2 & d2 & -> & Hr2 & Hk2 & Hp2 & Hi2).
  cbn [bind].
  destruct (command_ready cfg bpcie (waits env 3%nat) d2 9 0x20
              (Some (led_config_ptr f)) (Z.of_nat (List.length led_config))
              (Some (reply_ptr f)) 0x30 Hr2)
    as (r3 & d3 & -> & Hr3 & Hk3 & Hp3 & Hi3).
  cbn [bind]. exists d3. split; [reflexivity|].
  split; [exact Hr3|].
  rewrite Hk3, Hk2, Hk1, Hp3, Hp2, Hp1, Hi3, Hi2, Hi1.
  repeat split.
Qed.

Lemma init_success (cfg : icc_config) (bpcie : bpcie_transport)
  (env : init_env) (d : driver) :
  comes_up env d ->
  icc_i2c_init_ret env = 0 ->
  bpcie_initialized (glob d) = false ->
  icc_mutex (glob d) = false ->
  exists d',
    apcie_icc_init cfg bpcie env d = Done 0 d' /\
    klog d' = klog d ++ init_calls env /\
    icc_sc (glob d') = true /\ icc_mutex (glob d') = false /\
    bpcie_initialized (glob d') = false /\
    pm_power_off d' = true /\
    ioctl_tmp_buf (glob d') = kzalloc_ret env.
Proof.
  intros (H1 & H2 & H3 & H4 & H5 & H6 & H7) Hi2c Hb Hm.
  unfold apcie_icc_init. cbv zeta.
  rewrite H1, H2, H3, H4, H5, Hi2c. cbn [negb Z.eqb].
  match goal with
  | |- context [if negb (buf_empty ?a =? 1) || negb (buf_full ?b =? 0)
                then _ else _] =>
      change (buf_empty a) with (buf_empty (spm_request (dev (glob d))));
      change (buf_full b) with (buf_full (spm_request (dev (glob d))))
  end.
  rewrite H6, H7. cbn [negb Z.eqb orb].
  match goal with
  | |- context [if icc_mutex ?g then _ else _] =>
      change (icc_mutex g) with (icc_mutex (glob d))
  end.
  rewrite Hm.
  match goal with
  | |- context [resetBtWlan cfg bpcie env ?x] => set (d1 := x)
  end.
  assert (Hr1 : ready d1) by (repeat split; assumption).
  destruct (resetBtWlan_ready cfg bpcie env d1 Hr1)
    as (d2 & -> & Hr2 & Hk2 & Hp2 & Hi2).
  cbn [bind].
  match goal with
  | |- context [do_icc_init cfg bpcie env ?x] => set (d3 := x)
  end.
  assert (Hr3 : ready d3)
    by (subst d3; destruct (negb (icc_pwrbutton_init_ret env =? 0));
        exact Hr2).
  assert (Hk3 : klog d3
                = klog d2 ++ [Icc_pwrbutton_init (icc_pwrbutton_init_ret env)])
    by (subst d3; destruct (negb (icc_pwrbutton_init_ret env =? 0));
        reflexivity).
  destruct (do_icc_init_ready cfg bpcie env d3 Hr3)
    as (d4 & -> & (Hb4 & Hm4 & Hsc4) & Hk4 & Hp4 & Hi4).
  cbn [bind].
  assert (Hlog : klog d4 ++ [Kzalloc (kzalloc_ret env)]
                 = klog d ++ [Pci_get_slot true;
                              Request_mem_region Rgn_icc true;
                              Request_mem_region Rgn_spm true; Ioremap true;
                              Request_irq 0; Icc_i2c_init 0;
                              Icc_pwrbutton_init (icc_pwrbutton_init_ret env);
                              Kzalloc (kzalloc_ret env)]).
  { rewrite Hk4, Hk3, Hk2. subst d1.
    cbn [klog call err on_dev set_glob]. rewrite <- !app_assoc. reflexivity. }
  unfold init_calls.
  destruct (kzalloc_ret env) as [a|].
  - destruct (negb (register_chrdev_ret env =? 0));
      (eexists; split; [reflexivity|]);
      (split; [cbn [klog call err on_dev set_glob place set_pm_power_off];
               rewrite Hlog, <- !app_assoc; reflexivity|]);
      repeat split; assumption.
  - eexists; split; [reflexivity|].
    split; [cbn [klog call err on_dev set_glob place set_pm_power_off];
            rewrite Hlog, app_nil_r; reflexivity|].
    repeat split; assumption.
Qed.

End InitSuccess.

Section InitOutcomes.

Import Icc IccInit.

Lemma held_init_calls (env : init_env) :
  held (init_calls env)
  = [Mem_dev_ref; Mem_region Rgn_icc; Mem_region Rgn_spm; Spm_mapping;
     Irq_handler; I2c_bus] ++ optional env.
Proof.
  unfold init_calls, optional.
  destruct (kzalloc_ret env) as [a|];
    cbv [held fold_left account acquired released app];
    destruct (icc_pwrbutton_init_ret env =? 0);
    try destruct (register_chrdev_ret env =? 0); reflexivity.
Qed.

(** X24.  When the calls it cannot do without succeed, the request half
    is idle and the mutex free, [apcie_icc_init] returns 0 with the device
    registered, the mutex free and [pm_power_off] set, holding the
    reference to the memory function, both regions, the mapping, the
    interrupt and the I2C bus.  It returns 0 all the same when the power
    button, the scratch buffer of the ioctl or the character device cannot
    be had; without the scratch buffer the character device is not
    registered. *)
Theorem apcie_icc_init_comes_up (cfg : icc_config) (bpcie : bpcie_transport)
  (env : init_env) (d : driver) :
  comes_up env d ->
  icc_i2c_init_ret env = 0 ->
  bpcie_initialized (glob d) = false ->
  icc_mutex (glob d) = false ->
  exists d',
    apcie_icc_init cfg bpcie env d = Done 0 d' /\
    (exists new,
       klog d' = klog d ++ new /\
       held new
       = [Mem_dev_ref; Mem_region Rgn_icc; Mem_region Rgn_spm; Spm_mapping;
          Irq_handler; I2c_bus] ++ optional env) /\
    icc_sc (glob d') = true /\ icc_mutex (glob d') = false /\
    pm_power_off d' = true /\
    ioctl_tmp_buf (glob d') = kzalloc_ret env.
Proof.
  intros Hup Hi2c Hb Hm.
  destruct (init_success cfg bpcie env d Hup Hi2c Hb Hm)
    as (d' & Hinit & Hlog & Hsc & Hm' & _ & Hpm & Hbuf).
  exists d'. split; [exact Hinit|].
  split; [exists (init_calls env); split;
          [exact Hlog | apply held_init_calls]|].
  repeat split; assumption.
Qed.

Lemma held_init_remove (env : init_env) :
  held (init_calls env
        ++ [Icc_pwrbutton_remove; Icc_i2c_remove; Free_irq; Iounmap;
            Release_mem_region Rgn_spm; Release_mem_region Rgn_icc])
  = Mem_dev_ref ::
    match kzalloc_ret env with
    | None => []
    | Some _ =>
        Scratch_buf :: (if register_chrdev_ret env =? 0 then [Chrdev] else [])
    end.
Proof.
  unfold init_calls.
  destruct (kzalloc_ret env) as [a|];
    cbv [held fold_left account acquired released app];
    destruct (icc_pwrbutton_init_ret env =? 0);
    try destruct (register_chrdev_ret env =? 0); reflexivity.
Qed.

(** X25.  [apcie_icc_remove] after a successful [apcie_icc_init] releases
    the interrupt, the mapping and both regions, shuts down the power
    button and the I2C bus, masks the interrupts, unregisters the device
    and clears [pm_power_off].  It does not give back the reference to the
    memory function, the scratch buffer of the ioctl or the character
    device. *)
Theorem apcie_icc_init_remove (cfg : icc_config) (bpcie : bpcie_transport)
  (env : init_env) (d : driver) :
  comes_up env d ->
  icc_i2c_init_ret env = 0 ->
  bpcie_initialized (glob d) = false ->
  icc_mutex (glob d) = false ->
  exists d',
    bind (apcie_icc_init cfg bpcie env d) (fun _ d => apcie_icc_remove d)
    = Done tt d' /\
    (exists new,
       klog d' = klog d ++ new /\
       held new
       = Mem_dev_ref ::
         match kzalloc_ret env with
         | None => []
         | Some _ =>
             Scratch_buf ::
             (if register_chrdev_ret env =? 0 then [Chrdev] else [])
         end) /\
    icc_sc (glob d') = false /\ icc_mutex (glob d') = false /\
    pm_power_off d' = false /\
    ioctl_tmp_buf (glob d') = kzalloc_ret env /\
    (exists tr,
       trace (dev (glob d'))
       = tr ++ [Iowrite32 0 APCIE_REG_ICC_IRQ_MASK]).
Proof.
  intros Hup Hi2c Hb Hm.
  destruct (init_success cfg bpcie env d Hup Hi2c Hb Hm)
    as (d1 & -> & Hlog & Hsc & Hm' & _ & Hpm & Hbuf).
  cbn [bind]. unfold apcie_icc_remove. cbv zeta.
  match goal with
  | |- context [if icc_mutex ?g then _ else _] =>
      change (icc_mutex g) with (icc_mutex (glob d1))
  end.
  rewrite Hm'. eexists. split; [reflexivity|].
  split.
  { eexists. split; [|apply held_init_remove].
    cbn [klog call err on_dev set_glob set_pm_power_off].
    rewrite Hlog, <- !app_assoc. reflexivity. }
  split; [reflexivity|]. split; [exact Hm'|]. split; [reflexivity|].
  split; [exact Hbuf|].
  eexists. reflexivity.
Qed.

(** X26.  One call of [apcie_icc_cmd] before the device is registered
    returns [-EAGAIN] with the mutex held, and that is enough to keep the
    transport from ever coming up: [apcie_icc_init], with every kernel
    call succeeding, then never gets past its [mutex_lock].  It hangs
    there with the device not registered, holding both regions, the
    mapping and the interrupt. *)
Theorem apcie_icc_init_after_early_call (cfg : icc_config)
  (bpcie : bpcie_transport) (wenv : wait_env) (env : init_env) (d : driver)
  (major minor : Z) (data : option ptr) (length : Z) (reply : option ptr)
  (cap : Z) :
  comes_up env d ->
  bpcie_initialized (glob d) = false ->
  icc_mutex (glob d) = false ->
  icc_sc (glob d) = false ->
  exists g1,
    apcie_icc_cmd cfg bpcie wenv (glob d) major minor data length reply cap
    = Returns (- EAGAIN) g1 /\
    exists d' new,
      apcie_icc_init cfg bpcie env (set_glob d g1) = Stuck d' /\
      klog d' = klog d ++ new /\
      held new = [Mem_dev_ref; Mem_region Rgn_icc; Mem_region Rgn_spm;
                  Spm_mapping; Irq_handler] /\
      icc_sc (glob d') = false.
Proof.
  intros (H1 & H2 & H3 & H4 & H5 & H6 & H7) Hb Hm Hsc.
  unfold apcie_icc_cmd. rewrite Hb, Hm. cbn [set_mutex icc_sc].
  rewrite Hsc. cbn [negb]. eexists. split; [reflexivity|].
  unfold apcie_icc_init. cbv zeta.
  rewrite H1, H2, H3, H4, H5. cbn [negb Z.eqb].
  match goal with
  | |- context [if negb (buf_empty ?a =? 1) || negb (buf_full ?b =? 0)
                then _ else _] =>
      change (buf_empty a) with (buf_empty (spm_request (dev (glob d))));
      change (buf_full b) with (buf_full (spm_request (dev (glob d))))
  end.
  rewrite H6, H7. cbn [negb Z.eqb orb].
  match goal with
  | |- context [if icc_mutex ?g then _ else _] =>
      change (icc_mutex g) with true
  end.
  cbv iota.
  eexists; eexists. split; [reflexivity|].
  split; [cbn [klog call err on_dev set_glob]; rewrite <- !app_assoc;
          reflexivity|].
  split; [reflexivity | exact Hsc].
Qed.

End InitOutcomes.

Section InitExamples.

Import Icc IccInit.

Lemma apcie_icc_init_unwinds_witness :
  apcie_icc_init sample_config no_bpcie env_no_irq driver0
  = Done (- EBUSY)
         (outcome_driver
            (apcie_icc_init sample_config no_bpcie env_no_irq driver0)) /\
  - EBUSY <> 0 /\
  exists new,
    klog (outcome_driver
            (apcie_icc_init sample_config no_bpcie env_no_irq driver0))
    = klog driver0 ++ new /\
    held new = [Mem_dev_ref].
Proof.
  assert (H1 : apcie_icc_init sample_config no_bpcie env_no_irq driver0
               = Done (- EBUSY)
                   (outcome_driver
                      (apcie_icc_init sample_config no_bpcie env_no_irq
                                      driver0))) by reflexivity.
  assert (H2 : - EBUSY <> 0) by discriminate.
  destruct (apcie_icc_init_unwinds sample_config no_bpcie env_no_irq driver0
              (- EBUSY) _ H1 H2) as (new & H3 & H4 & _).
  exact (conj H1 (conj H2 (ex_intro _ new (conj H3 H4)))).
Defined.

Lemma apcie_icc_init_comes_up_witness :
  comes_up env_ok driver0 /\
  icc_i2c_init_ret env_ok = 0 /\
  bpcie_initialized (glob driver0) = false /\
  icc_mutex (glob driver0) = false /\
  exists d',
    apcie_icc_init sample_config no_bpcie env_ok driver0 = Done 0 d' /\
    icc_sc (glob d') = true.
Proof.
  assert (H1 : comes_up env_ok driver0) by (repeat split).
  assert (H2 : icc_i2c_init_ret env_ok = 0) by reflexivity.
  assert (H3 : bpcie_initialized (glob driver0) = false) by reflexivity.
  assert (H4 : icc_mutex (glob driver0) = false) by reflexivity.
  destruct (apcie_icc_init_comes_up sample_config no_bpcie env_ok driver0
              H1 H2 H3 H4) as (d' & H5 & _ & H6 & _).
  exact (conj H1 (conj H2 (conj H3 (conj H4
           (ex_intro _ d' (conj H5 H6)))))).
Defined.

Lemma apcie_icc_init_remove_witness :
  comes_up env_ok driver0 /\
  icc_i2c_init_ret env_ok = 0 /\
  bpcie_initialized (glob driver0) = false /\
  icc_mutex (glob driver0) = false /\
  exists d',
    bind (apcie_icc_init sample_config no_bpcie env_ok driver0)
         (fun _ d => apcie_icc_remove d) = Done tt d' /\
    icc_sc (glob d') = false.
Proof.
  assert (H1 : comes_up env_ok driver0) by (repeat split).
  assert (H2 : icc_i2c_init_ret env_ok = 0) by reflexivity.
  assert (H3 : bpcie_initialized (glob driver0) = false) by reflexivity.
  assert (H4 : icc_mutex (glob driver0) = false) by reflexivity.
  destruct (apcie_icc_init_remove sample_config no_bpcie env_ok driver0
              H1 H2 H3 H4) as (d' & H5 & _ & H6 & _).
  exact (conj H1 (conj H2 (conj H3 (conj H4
           (ex_intro _ d' (conj H5 H6)))))).
Defined.

Lemma apcie_icc_init_after_early_call_witness :
  comes_up env_ok driver0 /\
  bpcie_initialized (glob driver0) = false /\
  icc_mutex (glob driver0) = false /\
  icc_sc (glob driver0) = false /\
  exists g1,
    apcie_icc_cmd sample_config no_bpcie (silence false) (glob driver0) 1 0
                  (Some 0%nat) 1 (Some 1%nat) 8
    = Returns (- EAGAIN) g1 /\
    exists d',
      apcie_icc_init sample_config no_bpcie env_ok (set_glob driver0 g1)
      = Stuck d'.
Proof.
  assert (H1 : comes_up env_ok driver0) by (repeat split).
  assert (H2 : bpcie_initialized (glob driver0) = false) by reflexivity.
  assert (H3 : icc_mutex (glob driver0) = false) by reflexivity.
  assert (H4 : icc_sc (glob driver0) = false) by reflexivity.
  destruct (apcie_icc_init_after_early_call sample_config no_bpcie
              (silence false) env_ok driver0 1 0 (Some 0%nat) 1 (Some 1%nat) 8
              H1 H2 H3 H4) as (g1 & H5 & d' & new & H6 & _).
  exact (conj H1 (conj H2 (conj H3 (conj H4
           (ex_intro _ g1 (conj H5 (ex_intro _ d' H6))))))).
Defined.

End InitExamples.
